(** * DPA margin simulator and database test server: a shallow embedding

    This development embeds in Rocq the parts of

      - [harness/reference_models/tools/studies/dpa_margin_sim.py]
        ([SyntheticMoveList], [ScatterAnalyze], [ExtensiveInterferenceCheck]
        and the log reconciliation prologue of [DpaAnalyzeLogs]), and
      - [harness/database.py] ([DatabaseHandler.translate_path])

    and states the properties of the specification against them.

    Conventions of the embedding:
      - a Python [int] is a [Z]; a list index follows Python's rule (a negative
        index counts from the end, an index out of range raises [IndexError]);
      - a Python exception is a constructor of [PyExn], and a function that may
        raise returns in the [result] monad;
      - a Python [set] of grants is a [gset Grant], [len] of it is [size];
      - interference levels (IEEE doubles in the program) are read as real
        numbers;
      - the programs are read as Python 3 runs them: a string is text
        ([str]), told apart from [bytes] where the program writes to a
        socket. *)

From Stdlib Require Import ZArith String Ascii List Reals Lra Lia.
From stdpp Require Import base list gmap sets strings sorting pretty.

Set Default Proof Using "Type".
Open Scope Z_scope.

(** ** Python exceptions and the error monad *)

Inductive PyExn : Type :=
  | IndexError
  | ValueError
  | TypeError
  | ZeroDivisionError
  | UnboundLocalError.

Inductive result (A : Type) : Type :=
  | OK (a : A)
  | Raise (e : PyExn).
Arguments OK {A} a.
Arguments Raise {A} e.

Definition rbind {A B : Type} (k : A → result B) (m : result A) : result B :=
  match m with
  | OK a => k a
  | Raise e => Raise e
  end.

#[global] Instance result_ret : MRet result := λ A a, OK a.
#[global] Instance result_bind : MBind result := λ A B k m, rbind k m.

(** [[f x for x in l]] where [f] may raise: the first exception wins. *)
Fixpoint rmap {A B : Type} (f : A → result B) (l : list A) : result (list B) :=
  match l with
  | [] => OK []
  | x :: l' => y ← f x; ys ← rmap f l'; OK (y :: ys)
  end.

Definition is_OK {A : Type} (m : result A) : Prop := ∃ a, m = OK a.

(** ** Python sequence primitives *)

(** [l[i]] *)
Definition py_getitem {A : Type} (l : list A) (i : Z) : result A :=
  let n := Z.of_nat (length l) in
  let j := if i <? 0 then i + n else i in
  if (j <? 0) || (n <=? j) then Raise IndexError
  else match l !! Z.to_nat j with
       | Some x => OK x
       | None => Raise IndexError
       end.

(** [l[:n]] *)
Definition py_slice_to {A : Type} (l : list A) (n : Z) : list A :=
  if n <? 0 then take (Z.to_nat (Z.of_nat (length l) + n)) l
  else take (Z.to_nat n) l.

(** [l[k:]] *)
Definition py_slice_from {A : Type} (l : list A) (k : Z) : list A :=
  if k <? 0 then drop (Z.to_nat (Z.of_nat (length l) + k)) l
  else drop (Z.to_nat k) l.

(** [range(n)] *)
Definition py_range (n : Z) : list Z :=
  map Z.of_nat (seq 0 (Z.to_nat n)).

(** [l.index(v)]: position of the first element equal to [v]. *)
Fixpoint index_from (v : Z) (l : list Z) (i : Z) : result Z :=
  match l with
  | [] => Raise ValueError
  | x :: l' => if x =? v then OK i else index_from v l' (i + 1)
  end.

Definition py_index (l : list Z) (v : Z) : result Z := index_from v l 0.

(** ** numpy primitives on one-dimensional integer arrays *)

(** [np.argmax]: position of the first occurrence of the largest element. *)
Fixpoint argmax_from (l : list Z) (i best_i best : Z) : Z :=
  match l with
  | [] => best_i
  | x :: l' =>
      if best <? x then argmax_from l' (i + 1) i x
      else argmax_from l' (i + 1) best_i best
  end.

Definition np_argmax (l : list Z) : result Z :=
  match l with
  | [] => Raise ValueError
  | x :: l' => OK (argmax_from l' 1 0 x)
  end.

(** [np.argmin]: position of the first occurrence of the smallest element. *)
Fixpoint argmin_from (l : list Z) (i best_i best : Z) : Z :=
  match l with
  | [] => best_i
  | x :: l' =>
      if x <? best then argmin_from l' (i + 1) i x
      else argmin_from l' (i + 1) best_i best
  end.

Definition np_argmin (l : list Z) : result Z :=
  match l with
  | [] => Raise ValueError
  | x :: l' => OK (argmin_from l' 1 0 x)
  end.

(** [np.around] of the virtual index [0.5 * (n - 1)] of the 50th percentile:
    an integer when [n] is odd, otherwise a half that rounds to the even
    neighbour. *)
Definition nearest_index (n : nat) : nat :=
  let q := ((n - 1) / 2)%nat in
  if Nat.even (n - 1) then q
  else if Nat.even q then q else S q.

(** [np.percentile(a, 50, interpolation='nearest')]: the element of the sorted
    array at the rounded virtual index.  On an empty array numpy has no element
    to return and the lookup of the outcome raises. *)
Definition np_percentile_50_nearest (a : list Z) : result Z :=
  match merge_sort Z.le a !! nearest_index (length a) with
  | Some v => OK v
  | None => Raise IndexError
  end.

(** ** Python string primitives *)

(** [s.startswith(p)] *)
Definition py_startswith (s p : string) : bool := String.prefix p s.

(** [s.split(sep)] for a non-empty separator: [skip] counts the characters of
    a separator occurrence still to be dropped, [cur] is the piece read so
    far. *)
Fixpoint split_go (sep s : string) (skip : nat) (cur : string) : list string :=
  match s with
  | EmptyString => [cur]
  | String c s' =>
      match skip with
      | S k => split_go sep s' k cur
      | O =>
          if String.prefix sep s
          then cur :: split_go sep s' (String.length sep - 1) EmptyString
          else split_go sep s' 0 (cur +:+ String c EmptyString)
      end
  end.

Definition py_split (s sep : string) : list string := split_go sep s 0 EmptyString.

(** The characters [int] and [strip] take for blanks, among the code points
    below 256 (a character of a string stands for the code point of its
    number). *)
Definition is_blank (c : ascii) : bool :=
  let n := nat_of_ascii c in
  (n =? 32)%nat || ((9 <=? n)%nat && (n <=? 13)%nat)
  || ((28 <=? n)%nat && (n <=? 31)%nat) || (n =? 133)%nat || (n =? 160)%nat.

Fixpoint lstrip (s : string) : string :=
  match s with
  | String c s' => if is_blank c then lstrip s' else s
  | EmptyString => EmptyString
  end.

Fixpoint rstrip (s : string) : string :=
  match s with
  | EmptyString => EmptyString
  | String c s' =>
      match rstrip s' with
      | EmptyString => if is_blank c then EmptyString else String c EmptyString
      | t => String c t
      end
  end.

(** The value of decimal digits read from left to right; an underscore is
    accepted where a digit follows it (and, the text starting with a digit, a
    digit precedes it). *)
Fixpoint digits_value (s : string) (acc : Z) : option Z :=
  match s with
  | EmptyString => Some acc
  | String c s' =>
      let n := nat_of_ascii c in
      if (48 <=? n)%nat && (n <=? 57)%nat
      then digits_value s' (10 * acc + Z.of_nat (n - 48))
      else if (n =? 95)%nat then
        match s' with
        | String d _ =>
            if (48 <=? nat_of_ascii d)%nat && (nat_of_ascii d <=? 57)%nat
            then digits_value s' acc else None
        | EmptyString => None
        end
      else None
  end.

(** [int(s)] on a string, as Python 3 reads it: blanks around, an optional
    sign, then decimal digits, with single underscores allowed between two
    digits; any other text raises [ValueError]. *)
Definition py_int (s : string) : result Z :=
  let body (t : string) : option Z :=
    match t with
    | EmptyString => None
    | String c _ =>
        if (48 <=? nat_of_ascii c)%nat && (nat_of_ascii c <=? 57)%nat
        then digits_value t 0 else None
    end in
  let signed : option Z :=
    match rstrip (lstrip s) with
    | String "-" t => Z.opp <$> body t
    | String "+" t => body t
    | t => body t
    end in
  match signed with
  | Some z => OK z
  | None => Raise ValueError
  end.

(** A value handed to the [%] formatting operator. *)
Inductive PyValue : Type :=
  | PyInt (z : Z)
  | PyStr (s : string).

(** [(pre + '%d' + post) % v]: the [%d] conversion accepts a number only. *)
Definition py_format_d (pre post : string) (v : PyValue) : result string :=
  match v with
  | PyInt z => OK (pre +:+ pretty z +:+ post)
  | PyStr _ => Raise TypeError
  end.

(** ** SyntheticMoveList *)

(** A move list is one set of grants per channel; a run collection is the
    list of the move lists of the successive runs. *)
Abbreviation MoveList Grant := (list (gset Grant)).

(** [if num == 0: num = len(ml_list)] *)
Definition effective_num {A : Type} (ml_list : list A) (num : Z) : Z :=
  if num =? 0 then Z.of_nat (length ml_list) else num.

Section synthetic.
Context `{Countable Grant}.

(** [set.intersection] applied to the unpacked list [sets]: the unbound
    method needs at least its receiver. *)
Definition set_intersection (sets : list (gset Grant)) : result (gset Grant) :=
  match sets with
  | [] => Raise TypeError
  | s :: ss => OK (foldl (∩) s ss)
  end.

(** [[len(ml[chan_idx]) for ml in ml_list]] *)
Definition ml_sizes (ml_list : list (MoveList Grant)) (chan_idx : Z) : result (list Z) :=
  rmap (λ ml : MoveList Grant, s ← py_getitem ml chan_idx; OK (Z.of_nat (size s))) ml_list.

Definition SyntheticMoveList (ml_list : list (MoveList Grant)) (method : string)
    (num : Z) (chan_idx : Z) : result (MoveList Grant) :=
  let num := effective_num ml_list num in
  ml_size ← ml_sizes ml_list chan_idx;
  if py_startswith method "med" then
    v ← np_percentile_50_nearest (py_slice_to ml_size num);
    median_idx ← py_index ml_size v;
    py_getitem ml_list median_idx
  else if py_startswith method "max" then
    max_idx ← np_argmax (py_slice_to ml_size num);
    py_getitem ml_list max_idx
  else if py_startswith method "min" then
    min_idx ← np_argmin (py_slice_to ml_size num);
    py_getitem ml_list min_idx
  else if py_startswith method "int" then
    ml0 ← py_getitem ml_list 0;
    rmap (λ chan : Z,
            sets ← rmap (λ k : Z, ml ← py_getitem ml_list k; py_getitem ml chan)
                        (py_range num);
            set_intersection sets)
         (py_range (Z.of_nat (length ml0)))
  else if py_startswith method "idx" then
    piece ← py_getitem (py_split method "idx") 1;
    idx ← py_int piece;
    py_getitem ml_list idx
  else
    msg ← py_format_d "Ref ML method " " unsupported" (PyStr method);
    Raise ValueError.

End synthetic.

(** ** dB and linear power

    [Db2Lin] and [Lin2Db] are bound to [dpa_mgr.Db2Lin] and [dpa_mgr.Lin2Db];
    [ScatterAnalyze] below is written over any such pair. *)

(** Modelled from the spec: [dpa_mgr.Db2Lin], the module [dpa_mgr] is not part
    of the sources at hand; the specification gives toLinear(x) = 10^(x/10). *)
Definition Db2Lin (x : R) : R := Rpower 10 (x / 10).

(** Modelled from the spec: [dpa_mgr.Lin2Db], the module [dpa_mgr] is not part
    of the sources at hand; the specification gives toDb(x) = 10·log10(x). *)
Definition Lin2Db (x : R) : R := (10 * (ln x / ln 10))%R.

(** ** numpy primitives on one-dimensional arrays of levels *)

#[global] Instance Rlt_decision (x y : R) : Decision (x < y)%R := Rlt_dec x y.

(** An elementwise binary operation: equal shapes pair up, a one-element array
    is broadcast, any other pair of shapes raises. *)
Definition np_binop (f : R → R → R) (a b : list R) : result (list R) :=
  if (length a =? length b)%nat then OK (zip_with f a b)
  else match a, b with
       | [x], _ => OK (map (f x) b)
       | _, [y] => OK (map (λ x, f x y) a)
       | _, _ => Raise ValueError
       end.

(** [np.max] *)
Definition np_max (a : list R) : result R :=
  match a with
  | [] => Raise ValueError
  | x :: a' => OK (foldl Rmax x a')
  end.

(** [np.count_nonzero(a < c)] *)
Definition np_count_below (a : list R) (c : R) : Z :=
  Z.of_nat (length (filter (λ x, (x < c)%R) a)).

(** ** ScatterAnalyze: the statistics stage *)

(** What the statistics stage reports before it plots. *)
Record MarginReport : Type := {
  max_diff_mw : R;
  max_margin_db : R;
  (** percentage of samples below the probe margins 1.5, 2.0, 2.5, 3.0, 3.5 dB *)
  pct_below : list R;
}.

Section scatter.
Variables Db2Lin_ Lin2Db_ : R → R.

Definition probe_margins : list R := [1.5; 2; 2.5; 3; 3.5]%R.

(** The figures are not modelled; [None] is the early [return] on an empty
    list of levels. *)
Definition ScatterAnalyze (ref_levels diff_levels : list R) (threshold_db : R)
    : result (option MarginReport) :=
  match ref_levels with
  | [] => OK None
  | _ =>
      sum_levels ← np_binop Rplus ref_levels diff_levels;
      diff_mw ← np_binop Rminus (map Db2Lin_ sum_levels) (map Db2Lin_ ref_levels);
      max_diff ← np_max diff_mw;
      let max_margin :=
        (Lin2Db_ (max_diff + Db2Lin_ threshold_db) - threshold_db)%R in
      let pct (probe : R) : R :=
        (IZR (np_count_below diff_mw
                (Db2Lin_ (threshold_db + probe) - Db2Lin_ threshold_db))
         / INR (length diff_mw) * 100)%R in
      OK (Some {| max_diff_mw := max_diff;
                  max_margin_db := max_margin;
                  pct_below := map pct probe_margins |})
  end.
End scatter.

(** ** ExtensiveInterferenceCheck *)

(** A numpy array of levels as the interference check yields it: of dimension
    zero (its [shape] is the empty tuple) or one. *)
Inductive NdArray : Type :=
  | Arr0 (x : R)
  | Arr1 (xs : list R).

(** [a - b] when [b] has dimension one. *)
Definition nd_sub_arr1 (a : NdArray) (ys : list R) : result (list R) :=
  match a with
  | Arr0 x => OK (map (λ y, (x - y)%R) ys)
  | Arr1 xs => np_binop Rminus xs ys
  end.

Record PtResult : Type := {
  A_DPA : NdArray;
  A_DPA_ref : NdArray;
}.

Section extensive.
Context `{Countable Grant}.
Context {Channel MarginSpec Rng : Type}.

(** The fields of [dpa_mgr.Dpa] the check loop reads or writes. *)
Record Dpa : Type := {
  name : string;
  move_lists : MoveList Grant;
  margin_db : MarginSpec;
  threshold : R;
}.

Definition set_move_lists (dpa : Dpa) (ml : MoveList Grant) : Dpa :=
  {| name := name dpa; move_lists := ml;
     margin_db := margin_db dpa; threshold := threshold dpa |}.

(** [dpa.CheckInterference(uut_keep_list, margin, channel=..., output_data=...)]:
    the external Monte-Carlo check, as a function of the state of the random
    generator; it yields its verdict and the results it appends to
    [output_data]. *)
Variable CheckInterference :
  Dpa → gset Grant → MarginSpec → Channel → Rng → bool * list PtResult * Rng.

Variables Db2Lin_ Lin2Db_ : R → R.

(** The variables the loop of the check updates, and [checked], the move
    lists handed to the successive interference checks. *)
Record CheckState : Type := {
  st_dpa : Dpa;
  st_rng : Rng;
  num_success : Z;
  ref_levels : list R;
  diff_levels : list R;
  checked : list (MoveList Grant);
}.

(** [for pt_res in interf_results: ...] *)
Fixpoint collect_levels (interf_results : list PtResult) (refs diffs : list R)
    : result (list R * list R) :=
  match interf_results with
  | [] => OK (refs, diffs)
  | pt_res :: rest =>
      match A_DPA_ref pt_res with
      | Arr0 _ => collect_levels rest refs diffs
      | Arr1 ys =>
          d ← nd_sub_arr1 (A_DPA pt_res) ys;
          collect_levels rest (refs ++ ys) (diffs ++ d)
      end
  end.

(** One turn of [for k in range(num_check): ...] *)
Definition check_step (uut_keep_list : gset Grant)
    (ref_move_lists : list (MoveList Grant)) (ref_ml_num : Z) (ref_ml_method : string)
    (channel : Channel) (chan_idx : Z) (st : CheckState) (k : Z)
    : result CheckState :=
  ml ← SyntheticMoveList (py_slice_from ref_move_lists k)
                         ref_ml_method ref_ml_num chan_idx;
  let dpa := set_move_lists (st_dpa st) ml in
  let '(success, interf_results, rng) :=
    CheckInterference dpa uut_keep_list (margin_db dpa) channel (st_rng st) in
  levels ← collect_levels interf_results (ref_levels st) (diff_levels st);
  OK {| st_dpa := dpa; st_rng := rng;
        num_success := num_success st + (if success then 1 else 0);
        ref_levels := levels.1; diff_levels := levels.2;
        checked := checked st ++ [ml] |}.

Fixpoint check_loop (step : CheckState → Z → result CheckState)
    (ks : list Z) (st : CheckState) : result CheckState :=
  match ks with
  | [] => OK st
  | k :: ks' => st' ← step st k; check_loop step ks' st'
  end.

(** [(100. * a) / b] *)
Definition py_percent (a b : Z) : result R :=
  if b =? 0 then Raise ZeroDivisionError
  else OK (100 * IZR a / IZR b)%R.

(** What a run of the extensive check leaves behind: the two arrays it
    returns, the counts it prints, the mutated [dpa] and generator state. *)
Record CheckOutcome : Type := {
  out_ref_levels : list R;
  out_diff_levels : list R;
  out_num_success : Z;
  out_num_check : Z;
  out_percent : R;
  out_state : CheckState;
}.

Definition ExtensiveInterferenceCheck (dpa : Dpa) (rng : Rng)
    (uut_keep_list : gset Grant) (ref_move_lists : list (MoveList Grant))
    (ref_ml_num : Z) (ref_ml_method : string)
    (channel : Channel) (chan_idx : Z) : result CheckOutcome :=
  let st0 := {| st_dpa := dpa; st_rng := rng; num_success := 0;
                ref_levels := []; diff_levels := []; checked := [] |} in
  let num_synth_ml := if ref_ml_num =? 0 then 1 else ref_ml_num in
  let num_check := Z.of_nat (length ref_move_lists) - num_synth_ml + 1 in
  st ← check_loop
         (check_step uut_keep_list ref_move_lists ref_ml_num ref_ml_method
                     channel chan_idx)
         (py_range num_check) st0;
  percent ← py_percent (num_success st) num_check;
  _ ← ScatterAnalyze Db2Lin_ Lin2Db_ (ref_levels st) (diff_levels st)
                     (threshold (st_dpa st));
  OK {| out_ref_levels := ref_levels st;
        out_diff_levels := diff_levels st;
        out_num_success := num_success st;
        out_num_check := num_check;
        out_percent := percent;
        out_state := st |}.

End extensive.

Arguments Dpa Grant {_ _} MarginSpec.
Arguments CheckState Grant {_ _} MarginSpec Rng.
Arguments CheckOutcome Grant {_ _} MarginSpec Rng.

(** The interference checks in the words of the specification, to compare
    the loop with: one check per move list of [mls], in order, each made on
    the DPA carrying that move list, the random generator passing from one
    check to the next.  The value is the verdict and the results of every
    check, and the generator after the last. *)
Section spec_checks.
Context `{Countable Grant} {Channel MarginSpec Rng : Type}.
Variable CheckInterference :
  Dpa Grant MarginSpec → gset Grant → MarginSpec → Channel → Rng
  → bool * list PtResult * Rng.

Fixpoint spec_checks_on (dpa : Dpa Grant MarginSpec) (uut_keep_list : gset Grant)
    (channel : Channel) (mls : list (MoveList Grant)) (rng : Rng)
    : list (bool * list PtResult) * Rng :=
  match mls with
  | [] => ([], rng)
  | ml :: rest =>
      let '(success, results, rng1) :=
        CheckInterference (set_move_lists dpa ml) uut_keep_list (margin_db dpa)
                          channel rng in
      let '(more, rng2) := spec_checks_on dpa uut_keep_list channel rest rng1 in
      ((success, results) :: more, rng2)
  end.

End spec_checks.

(** The number of checks that passed, and the results of all of them. *)
Definition count_successes (outcomes : list (bool * list PtResult)) : Z :=
  foldr (λ (o : bool * list PtResult) (n : Z), (if o.1 then 1 else 0) + n) 0
        outcomes.

Definition all_results (outcomes : list (bool * list PtResult)) : list PtResult :=
  concat (map snd outcomes).

(** ** DpaAnalyzeLogs: reconciliation of the logs with the configuration *)

(** A local variable of a Python function: unbound until first assigned. *)
Definition py_local {A : Type} (v : option A) : result A :=
  match v with
  | Some a => OK a
  | None => Raise UnboundLocalError
  end.

Section analyze_logs.
Context `{Countable Grant}.
Context {DpaCfg : Type}.

(** External collaborators: the readers of the two files, the coordinate
    rounding of a grant, its managed flag, and the reference DPA once found
    (or built), loaded with the grants and its move lists computed, which
    gives the neighbor list and the move list of its most used channel, or
    raises. *)
Variable ReadDpaLogFile : string → list Grant * list Grant * list Grant.
Variable ReadTestHarnessConfigFile : string → list Grant * list DpaCfg.
Variable CleanGrant : Grant → Grant.
Variable is_managed_grant : Grant → bool.
Variable ComputedLists :
  list DpaCfg → list Grant → result (gset Grant * gset Grant).

(** A call of [sim_utils.CreateCbrsPlot] or [sim_utils.PlotGrants]. *)
Inductive PlotCall : Type :=
  | CreateCbrsPlot (tag : string)
  | PlotGrants (grants : list Grant).

Record Reconciled : Type := {
  rec_grants : list Grant;
  rec_no_peers : bool;
  rec_uut_keep_list : gset Grant;
  rec_ref_move_list : option (gset Grant);
  rec_plots : list PlotCall;
}.

(** A file name is falsy when empty. *)
Definition no_file (f : string) : bool := if decide (f = EmptyString) then true else false.

(** The function from its first line up to [plt.show] after the maps. *)
Definition DpaAnalyzeLogs_reconcile (config_file log_file : string)
    : result Reconciled :=
  let '(log_file, config_file) :=
    if no_file log_file && negb (no_file config_file)
    then (config_file, EmptyString) else (log_file, config_file) in
  let '(ref_nbor_list, ref_keep_list, uut_keep_list) := ReadDpaLogFile log_file in
  let '(grants, dpas, ref_nbor_list, ref_keep_list, uut_keep_list) :=
    if negb (no_file config_file) then
      let '(grants, dpas) := ReadTestHarnessConfigFile config_file in
      (map CleanGrant grants, dpas, map CleanGrant ref_nbor_list,
       map CleanGrant ref_keep_list, map CleanGrant uut_keep_list)
    else (ref_nbor_list, [], ref_nbor_list, ref_keep_list, uut_keep_list) in
  let ref_nbor_list : gset Grant := list_to_set ref_nbor_list in
  let ref_keep_list : gset Grant := list_to_set ref_keep_list in
  let uut_keep_list : gset Grant := list_to_set uut_keep_list in
  let no_peers :=
    bool_decide (ref_nbor_list = ∅) && negb (bool_decide (uut_keep_list = ∅)) in
  match grants with
  | [] => Raise ValueError
  | _ =>
      lists ← ComputedLists dpas grants;
      let nbor_list := lists.1 in
      let move_list := lists.2 in
      let uut_move_list_uut :=
        filter (λ g, is_managed_grant g = true ∧ g ∉ uut_keep_list)
               (elements nbor_list) in
      let move_list_uut :=
        filter (λ g, is_managed_grant g = true) (elements move_list) in
      let move_list_other :=
        filter (λ g, is_managed_grant g = false) (elements move_list) in
      let '(ref_move_list, ref_move_list_other, plots1) :=
        if bool_decide (size ref_nbor_list ≠ 0%nat) then
          let ref_move_list := nbor_list ∖ ref_keep_list in
          let ref_move_list_uut :=
            filter (λ g, is_managed_grant g = true) (elements ref_move_list) in
          let ref_move_list_other :=
            filter (λ g, is_managed_grant g = false) (elements ref_move_list) in
          (Some ref_move_list, Some ref_move_list_other,
           [CreateCbrsPlot "Test Ref "; PlotGrants ref_move_list_other;
            PlotGrants ref_move_list_uut;
            CreateCbrsPlot "Test UUT "; PlotGrants ref_move_list_other;
            PlotGrants uut_move_list_uut])
        else (None, None, []) in
      let plots2 :=
        plots1 ++ [CreateCbrsPlot "Calc Ref "; PlotGrants move_list_other;
                   PlotGrants move_list_uut; CreateCbrsPlot "Test UUT "] in
      other ← py_local ref_move_list_other;
      OK {| rec_grants := grants;
            rec_no_peers := no_peers;
            rec_uut_keep_list := uut_keep_list;
            rec_ref_move_list := ref_move_list;
            rec_plots := plots2 ++ [PlotGrants other;
                                    PlotGrants uut_move_list_uut] |}
  end.

End analyze_logs.

Arguments PlotCall Grant : clear implicits.
Arguments Reconciled Grant {_ _}.

(** ** database.py: the test file server *)

Module Database.

(** [base64.b64encode] *)
Definition b64_alphabet : string :=
  "ABCDEFGHIJKLMNOPQRSTUVWXYZabcdefghijklmnopqrstuvwxyz0123456789+/".

Definition b64_char (n : N) : ascii :=
  match String.get (N.to_nat n) b64_alphabet with
  | Some c => c
  | None => "="%char
  end.

Fixpoint b64_groups (bytes : list N) : string :=
  match bytes with
  | [] => EmptyString
  | [a] =>
      let w := (a * 65536)%N in
      String (b64_char (w / 262144)) (String (b64_char ((w / 4096) mod 64)) "==")
  | [a; b] =>
      let w := (a * 65536 + b * 256)%N in
      String (b64_char (w / 262144)) (String (b64_char ((w / 4096) mod 64))
        (String (b64_char ((w / 64) mod 64)) "="))
  | a :: b :: c :: rest =>
      let w := (a * 65536 + b * 256 + c)%N in
      String (b64_char (w / 262144)) (String (b64_char ((w / 4096) mod 64))
        (String (b64_char ((w / 64) mod 64)) (String (b64_char (w mod 64))
          (b64_groups rest))))
  end.

Definition b64encode (s : string) : string :=
  b64_groups (map N_of_ascii (list_ascii_of_string s)).

Definition _USERNAME : string := "username".
Definition _PASSWORD : string := "password".
Definition _AUTHORIZATION_STRING : string :=
  "Basic " +:+ b64encode (_USERNAME +:+ ":" +:+ _PASSWORD).

(** [DatabaseHTTPServer]: the fields the handler reads. *)
Record Server : Type := {
  authorization : bool;
  file_paths : gmap string string;
}.

Definition lower_ascii (c : ascii) : ascii :=
  let n := nat_of_ascii c in
  if (65 <=? n)%nat && (n <=? 90)%nat then ascii_of_nat (n + 32) else c.

Fixpoint lower (s : string) : string :=
  match s with
  | EmptyString => EmptyString
  | String c s' => String (lower_ascii c) (lower s')
  end.

(** The request headers ([self.headers], an [http.client.HTTPMessage]): a
    dictionary keyed by the field names in lower case, which [in] and the
    subscript consult with the name lowered. *)
Definition Headers : Type := gmap string string.

Definition header_get (headers : Headers) (field : string) : option string :=
  headers !! lower field.

(** What the handler has sent to the client. *)
Inductive Sent : Type :=
  | send_response (code : Z)
  | end_headers
  | sent_bytes (data : string).

(** What a caller hands to [wfile.write]: text ([str]) or [bytes]. *)
Inductive Payload : Type :=
  | Text (s : string)
  | Bytes (b : string).

(** [self.wfile.write(data)]: the handler writes to its socket unbuffered
    ([wbufsize] is 0), and the socket takes bytes only: on a text string
    [socket.sendall] raises [TypeError] and nothing is sent. *)
Definition wfile_write (data : Payload) : result (list Sent) :=
  match data with
  | Bytes b => OK [sent_bytes b]
  | Text _ => Raise TypeError
  end.

(** The branch of a failed authorization: the 401 response, the reason
    [why], a note, and the empty path. *)
Definition refuse (why : string) : result string * list Sent :=
  let sent := [send_response 401; end_headers] in
  match wfile_write (Text why) with
  | Raise e => (Raise e, sent)
  | OK sent1 =>
      match wfile_write (Text "Ignore 404 response below.

") with
      | Raise e => (Raise e, sent ++ sent1)
      | OK sent2 => (OK EmptyString, sent ++ sent1 ++ sent2)
      end
  end.

(** [DatabaseHandler.translate_path]: the path returned, or the exception
    raised, and what was sent to the client meanwhile. *)
Definition translate_path (server : Server) (headers : Headers) (path : string)
    : result string * list Sent :=
  let lookup :=
    match file_paths server !! path with
    | Some file_path => file_path
    | None => EmptyString
    end in
  if authorization server then
    match header_get headers "Authorization" with
    | None => refuse "no auth header received.
"
    | Some auth =>
        if negb (String.eqb auth _AUTHORIZATION_STRING)
        then refuse "Incorrect username:password.
"
        else (OK lookup, [])
    end
  else (OK lookup, []).

(** A request is authorized when the server asks for no authorization or the
    request carries the expected header. *)
Definition authorized (server : Server) (headers : Headers) : Prop :=
  authorization server = false
  ∨ header_get headers "Authorization" = Some _AUTHORIZATION_STRING.

End Database.


(** ** Vocabulary of the specification *)

Section vocabulary.
Context `{Countable Grant}.

(** The set a run holds for a channel (empty when it has no such channel). *)
Definition chan_set (ml : MoveList Grant) (c : Z) : gset Grant :=
  default ∅ (ml !! Z.to_nat c).

(** Its cardinality. *)
Definition size_at (c : Z) (ml : MoveList Grant) : Z := Z.of_nat (size (chan_set ml c)).

(** A channel index every run of the collection has. *)
Definition valid_chan (ml_list : list (MoveList Grant)) (c : Z) : Prop :=
  0 ≤ c ∧ Forall (λ ml : MoveList Grant, c < Z.of_nat (length ml)) ml_list.

(** The sizes the size-ranked methods look at: [ml_size[:num]], those of the
    first [num] runs, of all runs when [num] is [0]. *)
Definition window_sizes (ml_list : list (MoveList Grant)) (c num : Z) : list Z :=
  py_slice_to (map (size_at c) ml_list) (effective_num ml_list num).

(** The invariant of a run collection: every run has [nchan] channels. *)
Definition run_collection (nchan : nat) (ml_list : list (MoveList Grant)) : Prop :=
  Forall (λ ml : MoveList Grant, length ml = nchan) ml_list.

End vocabulary.

(** [v] stands at position [i] of [l], nothing in [l] is smaller, and every
    earlier element is larger. *)
Definition first_min_at (l : list Z) (i : nat) (v : Z) : Prop :=
  l !! i = Some v
  ∧ (∀ j x, l !! j = Some x → v ≤ x)
  ∧ (∀ j x, (j < i)%nat → l !! j = Some x → v < x).

Definition first_max_at (l : list Z) (i : nat) (v : Z) : Prop :=
  l !! i = Some v
  ∧ (∀ j x, l !! j = Some x → x ≤ v)
  ∧ (∀ j x, (j < i)%nat → l !! j = Some x → x < v).

(** [v] stands at position [i] of [l] and at no earlier one. *)
Definition first_at (l : list Z) (i : nat) (v : Z) : Prop :=
  l !! i = Some v ∧ (∀ j, (j < i)%nat → l !! j ≠ Some v).

(** [k] is the rank nearest to the middle [(n - 1) / 2] of [n] ranks, the even
    one of the two when the middle falls between two ranks. *)
Definition nearest_rank (n k : nat) : Prop :=
  (k < n)%nat
  ∧ Z.abs (2 * Z.of_nat k - (Z.of_nat n - 1)) ≤ 1
  ∧ (2 * Z.of_nat k ≠ Z.of_nat n - 1 → Nat.even k = true).

(** The method names the dispatch of [SyntheticMoveList] recognises. *)
Definition recognised (method : string) : bool :=
  existsb (py_startswith method) ["med"; "max"; "min"; "int"; "idx"]%string.

(** The linear-domain deviation of a sample (reference level, delta in dB). *)
Definition delta_linear (sample : R * R) : R :=
  (Db2Lin (sample.1 + sample.2) - Db2Lin sample.1)%R.

(** The two arrays of a result go together: the UUT levels are a scalar or
    have the shape of the reference levels. *)
Definition well_shaped (pt : PtResult) : Prop :=
  match A_DPA_ref pt, A_DPA pt with
  | Arr1 ys, Arr1 xs => length xs = length ys
  | _, _ => True
  end.

(** Scenario 1 of the specification: five runs over one channel, whose sets
    have 3, 5, 2, 5 and 4 grants. *)
Definition scenario1 : list (list (gset nat)) :=
  [ [ {[1%nat; 2%nat; 3%nat]} ];
    [ {[1%nat; 2%nat; 3%nat; 4%nat; 5%nat]} ];
    [ {[1%nat; 2%nat]} ];
    [ {[2%nat; 3%nat; 4%nat; 5%nat; 6%nat]} ];
    [ {[1%nat; 2%nat; 3%nat; 4%nat]} ] ].

(** Scenario 3: ten runs (scenario 1 twice over), a window of three, and a
    check that always passes and yields one point with one azimuth, 2 dB above
    a reference level of -100 dBm. *)
Definition scenario3_runs : list (MoveList nat) := scenario1 ++ scenario1.

Definition scenario3_dpa : Dpa nat unit :=
  {| name := "West14"; move_lists := []; margin_db := tt; threshold := (-96)%R |}.

Definition scenario3_check (dpa : Dpa nat unit) (keep : gset nat) (margin : unit)
    (channel : unit) (rng : unit) : bool * list PtResult * unit :=
  (true, [ {| A_DPA := Arr1 [(-98)%R]; A_DPA_ref := Arr1 [(-100)%R] |} ], tt).

(** A server that asks for authorization and serves one file. *)
Definition example_server : Database.Server :=
  {| Database.authorization := true;
     Database.file_paths := {[ "/allsitedata"%string := "allsitedata1"%string ]} |}.

Definition example_headers : Database.Headers :=
  {[ "authorization"%string := "Basic dXNlcm5hbWU6cGFzc3dvcmQ="%string ]}.

(** ** GetMostUsedChannel *)

Section most_used_channel.
Context `{Countable Grant} {Channel : Type}.

(** [dpa._channels] and [dpa.GetNeighborList] are what the function reads of
    the DPA. *)
Definition GetMostUsedChannel (channels : list Channel)
    (GetNeighborList : Channel → gset Grant) : result (Channel * Z) :=
  chan_idx ← np_argmax
               (map (λ chan, Z.of_nat (size (GetNeighborList chan))) channels);
  channel ← py_getitem channels chan_idx;
  OK (channel, chan_idx).

End most_used_channel.

(** ** The command line options the functions below read *)

Record Options : Type := {
  opt_dpa : string;
  opt_dpa_kml : string;
  opt_dpa_builder : string;
  opt_dpa_builder_uut : string;
  opt_margin_db : string;
  opt_ref_ml_num : Z;
  opt_uut_ml_num : Z;
  opt_num_ml : Z;
  opt_do_extensive : bool;
}.

(** [a or b] on integers *)
Definition py_or (a b : Z) : Z := if a =? 0 then b else a.

(** ** FindOrBuildDpa *)

(** The value of [dpa.margin_db]: a number or a policy string. *)
Inductive MarginDb : Type :=
  | MarginFloat (x : R)
  | MarginText (s : string).

(** A DPA as the configuration reader or the builder hands it over: the
    attributes [margin_db] and [geometry] may be missing. *)
Record ConfigDpa (Geometry Points : Type) : Type := {
  cd_name : string;
  cd_margin_db : option MarginDb;
  cd_geometry : option Geometry;
  cd_protected_points : Points;
}.
Arguments cd_name {Geometry Points} _.
Arguments cd_margin_db {Geometry Points} _.
Arguments cd_geometry {Geometry Points} _.
Arguments cd_protected_points {Geometry Points} _.

Section find_dpa.
Context {Geometry Points Grant : Type}.

(** External collaborators: [dpa_mgr.BuildDpa(name, None, portal_dpa_filename)],
    the count [len(dpa.geometry.buffer(2.5).intersection(all_cbsds))] of the
    grants near a DPA, the geometry of a coastal zone ([None] where the lookup
    raises [KeyError]), the geometry of a portal zone of a KML file,
    [dpa_builder.DpaProtectionPoints] and [float] on a string ([None] where it
    raises [ValueError]). *)
Variable BuildDpa : string → option string → result (ConfigDpa Geometry Points).
Variable CountInside : ConfigDpa Geometry Points → list Grant → result Z.
Variable CoastalZone : string → option Geometry.
Variable PortalZone : option string → string → result Geometry.
Variable DpaProtectionPoints : string → Geometry → string → result Points.
Variable py_float : string → option R.

(** [for d in dpas: if d.name.lower() == options.dpa.lower(): dpa = d; break] *)
Fixpoint find_by_name (dpas : list (ConfigDpa Geometry Points)) (wanted : string)
    : option (ConfigDpa Geometry Points) :=
  match dpas with
  | [] => None
  | d :: rest =>
      if String.eqb (Database.lower (cd_name d)) (Database.lower wanted)
      then Some d else find_by_name rest wanted
  end.

(** The first half of the function: which DPA is taken, and the local variable
    [dpa_kml_file], assigned under [--dpa] only. *)
Definition select_dpa (dpas : list (ConfigDpa Geometry Points)) (options : Options)
    (grants : list Grant)
    : result (ConfigDpa Geometry Points * option (option string)) :=
  if negb (String.eqb (opt_dpa options) EmptyString) then
    let dpa_kml_file :=
      if String.eqb (opt_dpa_kml options) EmptyString then None
      else Some (opt_dpa_kml options) in
    match find_by_name dpas (opt_dpa options) with
    | Some d => OK (d, Some dpa_kml_file)
    | None =>
        d ← BuildDpa (opt_dpa options) dpa_kml_file;
        OK (d, Some dpa_kml_file)
    end
  else
    match dpas with
    | [] => Raise ValueError
    | [d] => OK (d, None)
    | _ =>
        num_cbsds_inside ← rmap (λ d, CountInside d grants) dpas;
        idx ← np_argmax num_cbsds_inside;
        d ← py_getitem dpas idx;
        OK (d, None)
    end.

(** The second half: the attributes the function makes sure of or overrides. *)
Definition complete_dpa (options : Options) (dpa : ConfigDpa Geometry Points)
    (dpa_kml_file : option (option string)) : result (ConfigDpa Geometry Points) :=
  let margin :=
    match cd_margin_db dpa with
    | Some m => m
    | None => MarginText "linear(1.5)"
    end in
  geometry ←
    match cd_geometry dpa with
    | Some g => OK g
    | None =>
        match CoastalZone (cd_name dpa) with
        | Some g => OK g
        | None =>
            kml ← py_local dpa_kml_file;
            PortalZone kml (cd_name dpa)
        end
    end;
  points ←
    (if negb (String.eqb (opt_dpa_builder options) EmptyString)
     then DpaProtectionPoints (cd_name dpa) geometry (opt_dpa_builder options)
     else OK (cd_protected_points dpa));
  let margin :=
    if negb (String.eqb (opt_margin_db options) EmptyString) then
      match py_float (opt_margin_db options) with
      | Some x => MarginFloat x
      | None => MarginText (opt_margin_db options)
      end
    else margin in
  OK {| cd_name := cd_name dpa; cd_margin_db := Some margin;
        cd_geometry := Some geometry; cd_protected_points := points |}.

Definition FindOrBuildDpa (dpas : list (ConfigDpa Geometry Points))
    (options : Options) (grants : list Grant)
    : result (ConfigDpa Geometry Points) :=
  sel ← select_dpa dpas options grants;
  complete_dpa options sel.1 sel.2.

End find_dpa.

(** ** DpaSimulate: how many runs are computed and kept *)

(** [num_ref_ml], [num_uut_ml] and [num_base_ml], with [--dpa_builder_uut]
    dropped when it repeats [--dpa_builder]. *)
Definition effective_builder_uut (options : Options) : string :=
  if String.eqb (opt_dpa_builder_uut options) (opt_dpa_builder options)
  then EmptyString else opt_dpa_builder_uut options.

Definition DpaSimulate_run_counts (options : Options) : Z * Z * Z :=
  let num_ref_ml := py_or (opt_ref_ml_num options) (opt_num_ml options) in
  let num_uut_ml := py_or (opt_uut_ml_num options) (opt_num_ml options) in
  let num_base_ml :=
    if negb (String.eqb (effective_builder_uut options) EmptyString)
    then num_ref_ml else Z.max num_ref_ml num_uut_ml in
  let num_base_ml :=
    if opt_do_extensive options then Z.max num_base_ml (opt_num_ml options)
    else num_base_ml in
  (num_ref_ml, num_uut_ml, num_base_ml).

Section simulate_runs.
Context `{Countable Grant} {Rng : Type}.

(** [dpa.ComputeMoveLists()] followed by the copy of [dpa.move_lists]: the
    external generator, as a function of the state of the random generator. *)
Variable ComputeMoveLists : Rng → MoveList Grant * Rng.
(** The same on the copy of the DPA that carries the UUT's protected points. *)
Variable ComputeMoveListsUut : Rng → MoveList Grant * Rng.

(** [for k in range(n): dpa.ComputeMoveLists(); runs.append(copy.copy(dpa.move_lists))] *)
Fixpoint compute_runs (compute : Rng → MoveList Grant * Rng) (n : nat) (rng : Rng)
    : list (MoveList Grant) * Rng :=
  match n with
  | O => ([], rng)
  | S n' =>
      let '(ml, rng1) := compute rng in
      let '(runs, rng2) := compute_runs compute n' rng1 in
      (ml :: runs, rng2)
  end.

(** The reference runs and the UUT runs the simulation works on (the UUT has
    runs of its own when it has a builder of its own). *)
Definition DpaSimulate_runs (options : Options) (rng : Rng)
    : list (MoveList Grant) * list (MoveList Grant) :=
  let '(num_ref_ml, num_uut_ml, num_base_ml) := DpaSimulate_run_counts options in
  let '(ref_move_list_runs, rng1) :=
    compute_runs ComputeMoveLists (Z.to_nat num_base_ml) rng in
  let uut_move_list_runs :=
    if negb (String.eqb (effective_builder_uut options) EmptyString)
    then (compute_runs ComputeMoveListsUut (Z.to_nat num_uut_ml) rng1).1
    else py_slice_to ref_move_list_runs num_uut_ml in
  (py_slice_to ref_move_list_runs num_ref_ml, uut_move_list_runs).

End simulate_runs.

(** ** DpaAnalyzeLogs: the re-test against one reference move list *)

(** [num_check = max(10, num_base_ml // 2)], with the counts as
    [DpaAnalyzeLogs] sets them: the UUT has [num_ml] runs. *)
Definition DpaAnalyzeLogs_retest_num_check (options : Options) : Z :=
  let num_ref_ml := py_or (opt_ref_ml_num options) (opt_num_ml options) in
  let num_uut_ml := opt_num_ml options in
  let num_base_ml := Z.max num_ref_ml num_uut_ml in
  Z.max 10 (num_base_ml `div` 2).

(** [many_ref_move_list_runs = [full_ref_move_list_runs] * num_check] *)
Definition DpaAnalyzeLogs_retest_runs {A : Type} (options : Options)
    (full_ref_move_list_runs : A) : list A :=
  replicate (Z.to_nat (DpaAnalyzeLogs_retest_num_check options))
            full_ref_move_list_runs.

(** ** database.py: the mappings of the server *)

Module DatabaseServer.

(** [DatabaseHTTPServer.__init__]: no file is mapped at first. *)
Definition new_server (authorization : bool) : Database.Server :=
  {| Database.authorization := authorization; Database.file_paths := ∅ |}.

(** [DatabaseServer.setFileToServe] *)
Definition setFileToServe (server : Database.Server) (file_url file_path : string)
    : Database.Server :=
  {| Database.authorization := Database.authorization server;
     Database.file_paths := {[ file_url := file_path ]} |}.

(** [DatabaseServer.setFilesToServe] *)
Definition setFilesToServe (server : Database.Server)
    (file_url_file_path_dict : gmap string string) : Database.Server :=
  {| Database.authorization := Database.authorization server;
     Database.file_paths := file_url_file_path_dict |}.

End DatabaseServer.

(** ** Further vocabulary *)



(** The method names that select a run by the size of its set. *)
Definition size_ranked (method : string) : bool :=
  py_startswith method "med" || py_startswith method "max"
  || py_startswith method "min".

(** ** Instances for the functions around the simulation *)

(** Three channels and the neighbor list of each. *)
Definition example_channels : list nat := [0%nat; 1%nat; 2%nat].

Definition example_neighbors (chan : nat) : gset nat :=
  match chan with
  | 0%nat => {[1%nat]}
  | 1%nat => {[1%nat; 2%nat; 3%nat]}
  | _ => {[4%nat; 5%nat; 6%nat]}
  end.

(** [--dpa EAST1 --ref_ml_num 3 --num_ml 10 --do_extensive] *)
Definition example_options : Options :=
  {| opt_dpa := "EAST1"; opt_dpa_kml := EmptyString;
     opt_dpa_builder := EmptyString; opt_dpa_builder_uut := EmptyString;
     opt_margin_db := EmptyString;
     opt_ref_ml_num := 3; opt_uut_ml_num := 0; opt_num_ml := 10;
     opt_do_extensive := true |}.

(** The same without [--dpa]. *)
Definition example_options_no_dpa : Options :=
  {| opt_dpa := EmptyString; opt_dpa_kml := "zones.kml";
     opt_dpa_builder := EmptyString; opt_dpa_builder_uut := EmptyString;
     opt_margin_db := EmptyString;
     opt_ref_ml_num := 3; opt_uut_ml_num := 0; opt_num_ml := 10;
     opt_do_extensive := true |}.

(** A configuration with two DPAs, and one with a single DPA that has no
    geometry. *)
Definition example_dpas : list (ConfigDpa unit unit) :=
  [ {| cd_name := "West14"; cd_margin_db := None;
       cd_geometry := Some tt; cd_protected_points := tt |};
    {| cd_name := "East1"; cd_margin_db := Some (MarginText "linear(2)");
       cd_geometry := Some tt; cd_protected_points := tt |} ].

Definition example_dpa_no_geometry : ConfigDpa unit unit :=
  {| cd_name := "Pensacola"; cd_margin_db := None;
     cd_geometry := None; cd_protected_points := tt |}.

(** Collaborators: a builder that fails, no coastal zone, a portal zone for
    every name, and as many grants near a DPA as its name has letters. *)
Definition example_BuildDpa (name : string) (kml : option string)
    : result (ConfigDpa unit unit) := Raise ValueError.

Definition example_CountInside (dpa : ConfigDpa unit unit) (grants : list nat)
    : result Z := OK (Z.of_nat (String.length (cd_name dpa))).

Definition example_CoastalZone (name : string) : option unit := None.

Definition example_PortalZone (kml : option string) (name : string) : result unit :=
  OK tt.

Definition example_DpaProtectionPoints (name : string) (geometry : unit)
    (builder : string) : result unit := OK tt.

Definition example_py_float (s : string) : option R := None.

(** A move list generator over one channel: run [k] protects the grants
    [0 .. k mod 3]. *)
Definition example_ComputeMoveLists (rng : nat) : MoveList nat * nat :=
  ([ list_to_set (seq 0 (S (rng mod 3))) ], S rng).

(** An interference check on the same random generator: it passes and yields
    one point with one azimuth. *)
Definition example_check (dpa : Dpa nat unit) (keep : gset nat) (margin : unit)
    (channel : unit) (rng : nat) : bool * list PtResult * nat :=
  (true, [ {| A_DPA := Arr1 [(-98)%R]; A_DPA_ref := Arr1 [(-100)%R] |} ], S rng).

(** * Properties *)

(** ** The error monad and the sequence primitives *)

Lemma rbind_OK {A B : Type} (a : A) (k : A → result B) : (OK a ≫= k) = k a.
Proof. done. Qed.

Lemma rbind_Raise {A B : Type} (e : PyExn) (k : A → result B) :
  (Raise e ≫= k) = Raise e.
Proof. done. Qed.

Lemma rmap_ok {A B : Type} (f : A → result B) (g : A → B) (l : list A) :
  (∀ x, x ∈ l → f x = OK (g x)) → rmap f l = OK (map g l).
Proof.
  induction l as [|x l IH]; intros Hf; simpl; [done|].
  rewrite (Hf x) by set_solver. simpl.
  rewrite IH by (intros y Hy; apply Hf; set_solver). done.
Qed.

Lemma rmap_raise_only {A B : Type} (f : A → result B) (e0 : PyExn) (l : list A) e :
  (∀ x e', f x = Raise e' → e' = e0) → rmap f l = Raise e → e = e0.
Proof.
  intros Hf. induction l as [|x l IH]; simpl; [done|].
  destruct (f x) as [y|e'] eqn:Hx; simpl.
  - destruct (rmap f l); simpl; [done|]. intros [= <-]. by apply IH.
  - intros [= <-]. by apply (Hf x).
Qed.

Lemma py_getitem_lookup {A : Type} (l : list A) (i : nat) (x : A) :
  l !! i = Some x → py_getitem l (Z.of_nat i) = OK x.
Proof.
  intros Hx. pose proof (lookup_lt_Some _ _ _ Hx) as Hlt.
  unfold py_getitem.
  destruct (Z.ltb_spec (Z.of_nat i) 0) as [?|_]; [lia|].
  destruct (Z.ltb_spec (Z.of_nat i) 0) as [?|_]; [lia|].
  destruct (Z.leb_spec (Z.of_nat (length l)) (Z.of_nat i)) as [?|_]; [lia|].
  simpl. by rewrite Nat2Z.id, Hx.
Qed.

Lemma py_getitem_raises {A : Type} (l : list A) (i : Z) e :
  py_getitem l i = Raise e → e = IndexError.
Proof.
  unfold py_getitem. repeat case_match; congruence.
Qed.

Lemma py_range_spec (n k : Z) : k ∈ py_range n ↔ 0 ≤ k < n.
Proof.
  unfold py_range. rewrite list_elem_of_In, in_map_iff. split.
  - intros (i & <- & Hi). apply in_seq in Hi. lia.
  - intros Hk. exists (Z.to_nat k). split; [lia|]. apply in_seq. lia.
Qed.

Lemma py_range_length (n : Z) : length (py_range n) = Z.to_nat n.
Proof. unfold py_range. by rewrite length_map, length_seq. Qed.

Lemma py_range_lookup (n : Z) (i : nat) :
  (i < Z.to_nat n)%nat → py_range n !! i = Some (Z.of_nat i).
Proof.
  intros Hi. unfold py_range. rewrite list_lookup_fmap.
  by rewrite lookup_seq_lt.
Qed.

(** ** numpy's argmin, argmax and nearest percentile *)

Lemma first_min_at_singleton (x : Z) : first_min_at [x] 0 x.
Proof.
  split; [done|]. split.
  - intros [|j] y; simpl; [intros [= <-]; lia | by rewrite lookup_nil].
  - intros j y Hj. lia.
Qed.

Lemma first_max_at_singleton (x : Z) : first_max_at [x] 0 x.
Proof.
  split; [done|]. split.
  - intros [|j] y; simpl; [intros [= <-]; lia | by rewrite lookup_nil].
  - intros j y Hj. lia.
Qed.

(** A candidate that beats the best so far takes over at the end of the
    prefix scanned. *)
Lemma first_min_at_snoc_new (p : list Z) (bi : nat) (b x : Z) :
  first_min_at p bi b → x < b → first_min_at (p ++ [x]) (length p) x.
Proof.
  intros (Hb & Hle & Hlt) Hx. split; [by rewrite list_lookup_middle|]. split.
  - intros j y Hy. apply lookup_app_Some in Hy as [Hy|[_ Hy]].
    + specialize (Hle _ _ Hy). lia.
    + apply list_lookup_singleton_Some in Hy as [_ <-]. lia.
  - intros j y Hj Hy. rewrite lookup_app_l in Hy by done.
    specialize (Hle _ _ Hy). lia.
Qed.

Lemma first_min_at_snoc_keep (p : list Z) (bi : nat) (b x : Z) :
  first_min_at p bi b → b ≤ x → first_min_at (p ++ [x]) bi b.
Proof.
  intros (Hb & Hle & Hlt) Hx.
  pose proof (lookup_lt_Some _ _ _ Hb) as Hbi.
  split; [by rewrite lookup_app_l|]. split.
  - intros j y Hy. apply lookup_app_Some in Hy as [Hy|[_ Hy]]; [by eapply Hle|].
    by apply list_lookup_singleton_Some in Hy as [_ <-].
  - intros j y Hj Hy. rewrite lookup_app_l in Hy by lia. by eapply Hlt.
Qed.

Lemma first_max_at_snoc_new (p : list Z) (bi : nat) (b x : Z) :
  first_max_at p bi b → b < x → first_max_at (p ++ [x]) (length p) x.
Proof.
  intros (Hb & Hle & Hlt) Hx. split; [by rewrite list_lookup_middle|]. split.
  - intros j y Hy. apply lookup_app_Some in Hy as [Hy|[_ Hy]].
    + specialize (Hle _ _ Hy). lia.
    + apply list_lookup_singleton_Some in Hy as [_ <-]. lia.
  - intros j y Hj Hy. rewrite lookup_app_l in Hy by done.
    specialize (Hle _ _ Hy). lia.
Qed.

Lemma first_max_at_snoc_keep (p : list Z) (bi : nat) (b x : Z) :
  first_max_at p bi b → x ≤ b → first_max_at (p ++ [x]) bi b.
Proof.
  intros (Hb & Hle & Hlt) Hx.
  pose proof (lookup_lt_Some _ _ _ Hb) as Hbi.
  split; [by rewrite lookup_app_l|]. split.
  - intros j y Hy. apply lookup_app_Some in Hy as [Hy|[_ Hy]]; [by eapply Hle|].
    by apply list_lookup_singleton_Some in Hy as [_ <-].
  - intros j y Hj Hy. rewrite lookup_app_l in Hy by lia. by eapply Hlt.
Qed.

Lemma argmin_from_spec (l p : list Z) (bi : nat) (b : Z) :
  first_min_at p bi b →
  ∃ r v, argmin_from l (Z.of_nat (length p)) (Z.of_nat bi) b = Z.of_nat r
         ∧ first_min_at (p ++ l) r v.
Proof.
  revert p bi b. induction l as [|x l IH]; intros p bi b Hp; simpl.
  - exists bi, b. by rewrite app_nil_r.
  - replace (Z.of_nat (length p) + 1) with (Z.of_nat (length (p ++ [x])))
      by (rewrite length_app; simpl; lia).
    rewrite (cons_middle x p l), app_assoc.
    destruct (Z.ltb_spec x b) as [Hx|Hx].
    + apply IH. by eapply first_min_at_snoc_new.
    + apply IH. by eapply first_min_at_snoc_keep.
Qed.

Lemma argmax_from_spec (l p : list Z) (bi : nat) (b : Z) :
  first_max_at p bi b →
  ∃ r v, argmax_from l (Z.of_nat (length p)) (Z.of_nat bi) b = Z.of_nat r
         ∧ first_max_at (p ++ l) r v.
Proof.
  revert p bi b. induction l as [|x l IH]; intros p bi b Hp; simpl.
  - exists bi, b. by rewrite app_nil_r.
  - replace (Z.of_nat (length p) + 1) with (Z.of_nat (length (p ++ [x])))
      by (rewrite length_app; simpl; lia).
    rewrite (cons_middle x p l), app_assoc.
    destruct (Z.ltb_spec b x) as [Hx|Hx].
    + apply IH. by eapply first_max_at_snoc_new.
    + apply IH. by eapply first_max_at_snoc_keep.
Qed.

Lemma np_argmin_spec (l : list Z) :
  l ≠ [] → ∃ r v, np_argmin l = OK (Z.of_nat r) ∧ first_min_at l r v.
Proof.
  destruct l as [|x l]; [done|]. intros _.
  destruct (argmin_from_spec l [x] 0 x (first_min_at_singleton x))
    as (r & v & Hr & Hv).
  exists r, v. change (Z.of_nat (length [x])) with 1 in Hr.
  change (Z.of_nat 0) with 0 in Hr. simpl. by rewrite Hr.
Qed.

Lemma np_argmax_spec (l : list Z) :
  l ≠ [] → ∃ r v, np_argmax l = OK (Z.of_nat r) ∧ first_max_at l r v.
Proof.
  destruct l as [|x l]; [done|]. intros _.
  destruct (argmax_from_spec l [x] 0 x (first_max_at_singleton x))
    as (r & v & Hr & Hv).
  exists r, v. change (Z.of_nat (length [x])) with 1 in Hr.
  change (Z.of_nat 0) with 0 in Hr. simpl. by rewrite Hr.
Qed.

Lemma index_from_spec (v : Z) (l : list Z) (k : Z) :
  v ∈ l → ∃ i, index_from v l k = OK (k + Z.of_nat i) ∧ first_at l i v.
Proof.
  revert k. induction l as [|x l IH]; intros k Hv; [by apply elem_of_nil in Hv|].
  simpl. destruct (Z.eqb_spec x v) as [->|Hne].
  - exists 0%nat. split; [f_equal; lia|]. split; [done|]. intros j Hj. lia.
  - apply elem_of_cons in Hv as [->|Hv]; [done|].
    destruct (IH (k + 1) Hv) as (i & Hi & Hat & Hfirst).
    exists (S i). split; [rewrite Hi; f_equal; lia|]. split; [done|].
    intros [|j] Hj; simpl; [congruence|]. apply Hfirst. lia.
Qed.

Lemma py_index_spec (l : list Z) (v : Z) :
  v ∈ l → ∃ i, py_index l v = OK (Z.of_nat i) ∧ first_at l i v.
Proof.
  intros Hv. destruct (index_from_spec v l 0 Hv) as (i & Hi & Hat).
  exists i. by split.
Qed.

Lemma nearest_index_rank (n : nat) : (1 ≤ n)%nat → nearest_rank n (nearest_index n).
Proof.
  intros Hn. unfold nearest_rank, nearest_index.
  pose proof (Nat.div_mod_eq (n - 1) 2) as Hdiv.
  pose proof (Nat.mod_upper_bound (n - 1) 2 ltac:(lia)) as Hmod.
  destruct (Nat.even (n - 1)) eqn:Hev.
  - apply Nat.even_spec in Hev as [m Hm]. 
    assert ((n - 1) / 2 = m)%nat as ->.
    { rewrite Hm, Nat.mul_comm. by apply Nat.div_mul. }
    repeat split; lia.
  - assert (Nat.odd (n - 1) = true) as Hodd.
    { by rewrite <- Nat.negb_even, Hev. }
    apply Nat.odd_spec in Hodd as [m Hm].
    assert ((n - 1) / 2 = m)%nat as ->.
    { rewrite Hm, Nat.add_comm, Nat.mul_comm.
      rewrite Nat.div_add by lia. done. }
    destruct (Nat.even m) eqn:Hm2.
    + repeat split; try lia. done.
    + repeat split; try lia. intros _. by rewrite Nat.even_succ, <- Nat.negb_even, Hm2.
Qed.

Lemma np_percentile_50_nearest_spec (a : list Z) :
  a ≠ [] →
  ∃ sorted k v,
    sorted ≡ₚ a ∧ Sorted Z.le sorted ∧ nearest_rank (length a) k
    ∧ sorted !! k = Some v ∧ np_percentile_50_nearest a = OK v.
Proof.
  intros Ha. pose proof (merge_sort_Permutation Z.le a) as Hperm.
  assert (1 ≤ length a)%nat as Hlen by (destruct a; [done|simpl; lia]).
  pose proof (nearest_index_rank _ Hlen) as Hrank.
  destruct (lookup_lt_is_Some_2 (merge_sort Z.le a) (nearest_index (length a)))
    as [v Hv].
  { rewrite (Permutation_length Hperm). apply Hrank. }
  exists (merge_sort Z.le a), (nearest_index (length a)), v.
  repeat split; try done; try apply Hrank.
  - apply Sorted_merge_sort. intros x y. lia.
  - unfold np_percentile_50_nearest. by rewrite Hv.
Qed.

(** ** Scenario 1 and the rounding of the middle rank, evaluated *)

Example py_int_forms :
  py_int "12" = OK 12 ∧ py_int " +12 " = OK 12 ∧ py_int "-7" = OK (-7)
  ∧ py_int "0_1" = OK 1 ∧ py_int "1_000" = OK 1000
  ∧ py_int "1__2" = Raise ValueError ∧ py_int "_1" = Raise ValueError
  ∧ py_int "1_" = Raise ValueError ∧ py_int "+ 1" = Raise ValueError
  ∧ py_int EmptyString = Raise ValueError ∧ py_int "1x" = Raise ValueError.
Proof. repeat split; reflexivity. Qed.

Example synthetic_idx_underscore :
  SyntheticMoveList scenario1 "idx0_1" 5 0 = py_getitem scenario1 1.
Proof. by vm_compute. Qed.

Example nearest_index_values :
  map nearest_index [1; 2; 3; 4; 5; 6; 7; 8]%nat = [0; 0; 1; 2; 2; 2; 3; 4]%nat.
Proof. reflexivity. Qed.

Example percentile_even_window :
  np_percentile_50_nearest [4; 1; 3; 2] = OK 3
  ∧ np_percentile_50_nearest [2; 1] = OK 1.
Proof. split; reflexivity. Qed.

Example scenario1_min_max :
  SyntheticMoveList scenario1 "min" 5 0 = py_getitem scenario1 2
  ∧ SyntheticMoveList scenario1 "max" 5 0 = py_getitem scenario1 1
  ∧ SyntheticMoveList scenario1 "idx3" 5 0 = py_getitem scenario1 3
  ∧ SyntheticMoveList scenario1 "inter" 5 0 = OK [ {[2%nat]} ].
Proof. repeat split; by vm_compute. Qed.

(** ** SyntheticMoveList: how the method string dispatches *)

Section synthetic_facts.
Context `{Countable Grant}.
Implicit Types (ml_list : list (MoveList Grant)) (ml : MoveList Grant).

Lemma synthetic_min_unfold ml_list (m : string) num c :
  m = "min"%string →
  SyntheticMoveList ml_list m num c =
    (ml_size ← ml_sizes ml_list c;
     min_idx ← np_argmin (py_slice_to ml_size (effective_num ml_list num));
     py_getitem ml_list min_idx).
Proof. by intros ->. Qed.

Lemma synthetic_max_unfold ml_list (m : string) num c :
  m = "max"%string →
  SyntheticMoveList ml_list m num c =
    (ml_size ← ml_sizes ml_list c;
     max_idx ← np_argmax (py_slice_to ml_size (effective_num ml_list num));
     py_getitem ml_list max_idx).
Proof. by intros ->. Qed.

Lemma synthetic_med_unfold ml_list (m : string) num c :
  m = "median"%string ∨ m = "med"%string →
  SyntheticMoveList ml_list m num c =
    (ml_size ← ml_sizes ml_list c;
     v ← np_percentile_50_nearest (py_slice_to ml_size (effective_num ml_list num));
     median_idx ← py_index ml_size v;
     py_getitem ml_list median_idx).
Proof. by intros [-> | ->]. Qed.

Lemma synthetic_int_unfold ml_list (m : string) num c :
  m = "intersection"%string ∨ m = "inter"%string →
  SyntheticMoveList ml_list m num c =
    (ml_size ← ml_sizes ml_list c;
     ml0 ← py_getitem ml_list 0;
     rmap (λ chan : Z,
             sets ← rmap (λ k : Z, ml ← py_getitem ml_list k; py_getitem ml chan)
                         (py_range (effective_num ml_list num));
             set_intersection sets)
          (py_range (Z.of_nat (length ml0)))).
Proof. by intros [-> | ->]. Qed.

(** ** The sizes and the window *)

Lemma py_getitem_chan ml c :
  0 ≤ c < Z.of_nat (length ml) → py_getitem ml c = OK (chan_set ml c).
Proof.
  intros Hc. destruct (lookup_lt_is_Some_2 ml (Z.to_nat c)) as [s Hs]; [lia|].
  unfold chan_set. rewrite Hs. simpl.
  rewrite <- (Z2Nat.id c) at 1 by lia. by apply py_getitem_lookup.
Qed.

Lemma ml_sizes_valid ml_list c :
  valid_chan ml_list c → ml_sizes ml_list c = OK (map (size_at c) ml_list).
Proof.
  intros [Hc Hall]. apply rmap_ok. intros ml Hml.
  rewrite Forall_forall in Hall. specialize (Hall ml Hml).
  by rewrite py_getitem_chan by lia.
Qed.

Lemma ml_sizes_raises ml_list c e :
  ml_sizes ml_list c = Raise e → e = IndexError.
Proof.
  apply rmap_raise_only. intros ml e'.
  destruct (py_getitem ml c) eqn:Hg; simpl; [done|].
  intros [= <-]. by eapply py_getitem_raises.
Qed.

Lemma py_slice_to_window {A B : Type} (l : list A) (l' : list B) (num : Z) :
  length l' = length l → l ≠ [] → - Z.of_nat (length l) < num →
  ∃ m, (1 ≤ m ≤ length l)%nat ∧ py_slice_to l (effective_num l' num) = take m l.
Proof.
  intros Hlen Hl Hnum.
  assert (1 ≤ length l)%nat by (destruct l; [done|simpl; lia]).
  unfold py_slice_to, effective_num. rewrite Hlen.
  destruct (Z.eqb_spec num 0) as [->|Hne].
  - exists (length l). split; [lia|].
    destruct (Z.ltb_spec (Z.of_nat (length l)) 0); [lia|]. by rewrite Nat2Z.id.
  - destruct (Z.ltb_spec num 0).
    + exists (Z.to_nat (Z.of_nat (length l) + num)). split; [lia|done].
    + exists (Z.to_nat num `min` length l)%nat. split; [lia|].
      destruct (decide (Z.to_nat num ≤ length l)%nat).
      * by rewrite Nat.min_l.
      * rewrite Nat.min_r by lia. by rewrite !take_ge by lia.
Qed.

Lemma py_slice_to_exact {A B : Type} (l : list A) (l' : list B) (w : Z) :
  1 ≤ w → py_slice_to l (effective_num l' w) = take (Z.to_nat w) l.
Proof.
  intros Hw. unfold py_slice_to, effective_num.
  destruct (Z.eqb_spec w 0); [lia|]. by destruct (Z.ltb_spec w 0); [lia|].
Qed.

Lemma window_lookup ml_list c (m j : nat) ml :
  (j < m)%nat → ml_list !! j = Some ml →
  take m (map (size_at c) ml_list) !! j = Some (size_at c ml).
Proof.
  intros Hj Hml. rewrite lookup_take_lt by done.
  by rewrite list_lookup_fmap, Hml.
Qed.

Lemma window_lookup_inv ml_list c (m j : nat) v :
  take m (map (size_at c) ml_list) !! j = Some v →
  (j < m)%nat ∧ ∃ ml, ml_list !! j = Some ml ∧ size_at c ml = v.
Proof.
  intros Hv. apply lookup_take_Some in Hv as [Hv Hj]. split; [done|].
  rewrite list_lookup_fmap in Hv. destruct (ml_list !! j) as [ml|]; [|done].
  exists ml. split; [done|]. by injection Hv.
Qed.

Lemma window_nonempty ml_list c (m : nat) :
  (1 ≤ m ≤ length ml_list)%nat → take m (map (size_at c) ml_list) ≠ [].
Proof.
  intros Hm Hnil. apply (f_equal length) in Hnil.
  rewrite length_take, length_map in Hnil. simpl in Hnil. lia.
Qed.

(** ** Selection by smallest, largest and median size *)

Lemma select_min ml_list c (m : nat) :
  (1 ≤ m ≤ length ml_list)%nat →
  ∃ i ml,
    (min_idx ← np_argmin (take m (map (size_at c) ml_list));
     py_getitem ml_list min_idx) = OK ml
    ∧ ml_list !! i = Some ml
    ∧ first_min_at (take m (map (size_at c) ml_list)) i (size_at c ml).
Proof.
  intros Hm.
  destruct (np_argmin_spec _ (window_nonempty ml_list c m Hm)) as (i & v & Hi & Hat).
  destruct (window_lookup_inv _ _ _ _ _ (proj1 Hat)) as (Hlt & ml & Hml & <-).
  exists i, ml. rewrite Hi. simpl. by rewrite (py_getitem_lookup _ _ _ Hml).
Qed.

Lemma select_max ml_list c (m : nat) :
  (1 ≤ m ≤ length ml_list)%nat →
  ∃ i ml,
    (max_idx ← np_argmax (take m (map (size_at c) ml_list));
     py_getitem ml_list max_idx) = OK ml
    ∧ ml_list !! i = Some ml
    ∧ first_max_at (take m (map (size_at c) ml_list)) i (size_at c ml).
Proof.
  intros Hm.
  destruct (np_argmax_spec _ (window_nonempty ml_list c m Hm)) as (i & v & Hi & Hat).
  destruct (window_lookup_inv _ _ _ _ _ (proj1 Hat)) as (Hlt & ml & Hml & <-).
  exists i, ml. rewrite Hi. simpl. by rewrite (py_getitem_lookup _ _ _ Hml).
Qed.

Lemma select_median ml_list c (m : nat) :
  (1 ≤ m ≤ length ml_list)%nat →
  ∃ sorted k i ml,
    sorted ≡ₚ take m (map (size_at c) ml_list)
    ∧ Sorted Z.le sorted
    ∧ nearest_rank m k
    ∧ sorted !! k = Some (size_at c ml)
    ∧ (v ← np_percentile_50_nearest (take m (map (size_at c) ml_list));
       median_idx ← py_index (map (size_at c) ml_list) v;
       py_getitem ml_list median_idx) = OK ml
    ∧ ml_list !! i = Some ml
    ∧ (i < m)%nat
    ∧ first_at (map (size_at c) ml_list) i (size_at c ml).
Proof.
  intros Hm.
  destruct (np_percentile_50_nearest_spec _ (window_nonempty ml_list c m Hm))
    as (sorted & k & v & Hperm & Hsorted & Hrank & Hk & Hv).
  rewrite length_take, length_map, Nat.min_l in Hrank by lia.
  assert (v ∈ take m (map (size_at c) ml_list)) as Hin.
  { rewrite <- Hperm. by eapply list_elem_of_lookup_2. }
  apply list_elem_of_lookup in Hin as [j Hj].
  pose proof (proj1 (lookup_take_Some _ _ _ _) Hj) as [Hj' Hjm].
  destruct (py_index_spec (map (size_at c) ml_list) v) as (i & Hi & Hat & Hfirst).
  { by eapply list_elem_of_lookup_2. }
  assert (i ≤ j)%nat as Hij.
  { destruct (decide (i ≤ j)%nat); [done|]. exfalso. apply (Hfirst j); [lia|done]. }
  rewrite list_lookup_fmap in Hat.
  destruct (ml_list !! i) as [ml|] eqn:Hml; [|done].
  injection Hat as <-.
  exists sorted, k, i, ml. rewrite Hv. simpl. rewrite Hi. simpl.
  rewrite (py_getitem_lookup _ _ _ Hml).
  repeat split; try done; try lia; try apply Hrank.
  by rewrite list_lookup_fmap, Hml.
Qed.

End synthetic_facts.

(** ** SyntheticMoveList: the selection methods *)

Section synthetic_claims.
Context `{Countable Grant}.
Implicit Types (ml_list : list (MoveList Grant)) (ml : MoveList Grant).

(** C1. With a valid channel index and a window of [w] runs,
    [1 <= w <= number of runs], method 'min' returns the move list of the
    first run of the window whose set for the channel is smallest: no run of
    the window has a smaller set and every earlier run has a larger one.
    Method 'max' returns the first run of the window whose set is largest. *)
Theorem synthetic_min_max_first_extremal ml_list (c w : Z) :
  valid_chan ml_list c →
  1 ≤ w ≤ Z.of_nat (length ml_list) →
  (∃ (i : nat) ml,
      SyntheticMoveList ml_list "min" w c = OK ml
      ∧ ml_list !! i = Some ml
      ∧ Z.of_nat i < w
      ∧ (∀ (j : nat) mlj, Z.of_nat j < w → ml_list !! j = Some mlj →
           size_at c ml ≤ size_at c mlj)
      ∧ (∀ (j : nat) mlj, (j < i)%nat → ml_list !! j = Some mlj →
           size_at c ml < size_at c mlj))
  ∧ (∃ (i : nat) ml,
      SyntheticMoveList ml_list "max" w c = OK ml
      ∧ ml_list !! i = Some ml
      ∧ Z.of_nat i < w
      ∧ (∀ (j : nat) mlj, Z.of_nat j < w → ml_list !! j = Some mlj →
           size_at c mlj ≤ size_at c ml)
      ∧ (∀ (j : nat) mlj, (j < i)%nat → ml_list !! j = Some mlj →
           size_at c mlj < size_at c ml)).
Proof.
  intros Hc Hw.
  assert (1 ≤ Z.to_nat w ≤ length ml_list)%nat as Hm by lia.
  split.
  - destruct (select_min ml_list c _ Hm) as (i & ml & Hsel & Hml & Hat & Hle & Hlt).
    destruct (window_lookup_inv _ _ _ _ _ Hat) as [Hi _].
    exists i, ml.
    rewrite (synthetic_min_unfold _ _ _ _ eq_refl), (ml_sizes_valid _ _ Hc).
    simpl. rewrite py_slice_to_exact by lia.
    split; [done|]. split; [done|]. split; [lia|]. split.
    + intros j mlj Hj Hmlj. apply (Hle j).
      apply window_lookup; [lia|done].
    + intros j mlj Hj Hmlj. apply (Hlt j); [done|].
      apply window_lookup; [lia|done].
  - destruct (select_max ml_list c _ Hm) as (i & ml & Hsel & Hml & Hat & Hle & Hlt).
    destruct (window_lookup_inv _ _ _ _ _ Hat) as [Hi _].
    exists i, ml.
    rewrite (synthetic_max_unfold _ _ _ _ eq_refl), (ml_sizes_valid _ _ Hc).
    simpl. rewrite py_slice_to_exact by lia.
    split; [done|]. split; [done|]. split; [lia|]. split.
    + intros j mlj Hj Hmlj. apply (Hle j).
      apply window_lookup; [lia|done].
    + intros j mlj Hj Hmlj. apply (Hlt j); [done|].
      apply window_lookup; [lia|done].
Qed.

Lemma window_sizes_first ml_list (c w : Z) :
  1 ≤ w ≤ Z.of_nat (length ml_list) →
  window_sizes ml_list c w = map (size_at c) (take (Z.to_nat w) ml_list).
Proof.
  intros Hw. unfold window_sizes. rewrite py_slice_to_exact by lia.
  by rewrite <- fmap_take.
Qed.

Lemma window_sizes_all ml_list (c : Z) :
  window_sizes ml_list c 0 = map (size_at c) ml_list.
Proof.
  unfold window_sizes, effective_num, py_slice_to. simpl.
  destruct (Z.ltb_spec (Z.of_nat (length ml_list)) 0); [lia|].
  rewrite Nat2Z.id, take_ge; [done|]. by rewrite length_map.
Qed.

(** The median method on any collection: the value is the element of nearest
    middle rank among the sorted sizes of the window, and the run returned is
    the first of the collection with a set of that size. *)
Lemma synthetic_median_general ml_list (c num : Z) (m : string) :
  m = "median"%string ∨ m = "med"%string →
  ml_list ≠ [] →
  valid_chan ml_list c →
  - Z.of_nat (length ml_list) < num →
  ∃ (sorted : list Z) (k i : nat) ml,
    sorted ≡ₚ window_sizes ml_list c num
    ∧ Sorted Z.le sorted
    ∧ nearest_rank (length (window_sizes ml_list c num)) k
    ∧ sorted !! k = Some (size_at c ml)
    ∧ SyntheticMoveList ml_list m num c = OK ml
    ∧ ml_list !! i = Some ml
    ∧ (i < length (window_sizes ml_list c num))%nat
    ∧ (∀ (j : nat) mlj, (j < i)%nat → ml_list !! j = Some mlj →
         size_at c mlj ≠ size_at c ml).
Proof.
  intros Hmeth Hne Hc Hnum. unfold window_sizes.
  destruct (py_slice_to_window (map (size_at c) ml_list) ml_list num)
    as (n & Hn & Hwin).
  { by rewrite length_map. }
  { by destruct ml_list. }
  { by rewrite length_map. }
  rewrite length_map in Hn. rewrite Hwin.
  rewrite length_take, length_map, Nat.min_l by lia.
  destruct (select_median ml_list c n Hn)
    as (sorted & k & i & ml & Hperm & Hsorted & Hrank & Hk & Hsel & Hml & Hi
        & Hat & Hfirst).
  exists sorted, k, i, ml.
  rewrite (synthetic_med_unfold _ _ _ _ Hmeth), (ml_sizes_valid _ _ Hc).
  rewrite rbind_OK, Hwin.
  do 7 (split; [done|]).
  intros j mlj Hj Hmlj Heq. apply (Hfirst j Hj).
  by rewrite list_lookup_fmap, Hmlj, <- Heq.
Qed.

End synthetic_claims.

(** C2. Method 'median' (or 'med') takes the sizes of the runs of the window
    (the first [num] runs, all of them when [num] is 0), sorts them, picks the
    value at the rank nearest to the middle (an element of the window, no
    average of two) and returns the first run of the collection, in its
    original order, whose set has that size.  For the sizes 3, 5, 2, 5, 4 and
    a window of 5 the value is 4 and the run is number 4. *)
Theorem synthetic_median_nearest_rank :
  (∀ (Grant : Type) `(Countable Grant) (ml_list : list (MoveList Grant))
     (c num : Z) (m : string),
      m = "median"%string ∨ m = "med"%string →
      ml_list ≠ [] →
      valid_chan ml_list c →
      - Z.of_nat (length ml_list) < num →
      (1 ≤ num ≤ Z.of_nat (length ml_list) →
       window_sizes ml_list c num
       = map (size_at c) (take (Z.to_nat num) ml_list))
      ∧ (num = 0 → window_sizes ml_list c num = map (size_at c) ml_list)
      ∧ ∃ (sorted : list Z) (k i : nat) (ml : MoveList Grant),
          sorted ≡ₚ window_sizes ml_list c num
          ∧ Sorted Z.le sorted
          ∧ nearest_rank (length (window_sizes ml_list c num)) k
          ∧ sorted !! k = Some (size_at c ml)
          ∧ SyntheticMoveList ml_list m num c = OK ml
          ∧ ml_list !! i = Some ml
          ∧ (i < length (window_sizes ml_list c num))%nat
          ∧ (∀ (j : nat) mlj, (j < i)%nat → ml_list !! j = Some mlj →
               size_at c mlj ≠ size_at c ml))
  ∧ (map (size_at 0) scenario1 = [3; 5; 2; 5; 4]
     ∧ ∃ ml, SyntheticMoveList scenario1 "median" 5 0 = OK ml
             ∧ scenario1 !! 4%nat = Some ml
             ∧ size_at 0 ml = 4).
Proof.
  split.
  - intros Grant ? ? ml_list c num m Hm Hne Hc Hnum.
    split; [apply window_sizes_first|].
    split; [intros ->; apply window_sizes_all|].
    by apply synthetic_median_general.
  - split; [by vm_compute|].
    eexists. split; [by vm_compute|]. split; by vm_compute.
Qed.

Lemma rmap_Forall2 {A B : Type} (f : A → result B) (P : A → B → Prop) (l : list A) :
  (∀ x, x ∈ l → ∃ y, f x = OK y ∧ P x y) →
  ∃ ys, rmap f l = OK ys ∧ Forall2 P l ys.
Proof.
  induction l as [|x l IH]; intros Hf; simpl.
  - exists []. by split.
  - destruct (Hf x) as (y & Hy & HP); [set_solver|].
    destruct IH as (ys & Hys & Hall); [intros z Hz; apply Hf; set_solver|].
    exists (y :: ys). rewrite Hy. simpl. rewrite Hys. simpl.
    split; [done|]. by constructor.
Qed.

Section synthetic_more_claims.
Context `{Countable Grant}.
Implicit Types (ml_list : list (MoveList Grant)) (ml : MoveList Grant).

Lemma foldl_intersection_elem (s : gset Grant) (ss : list (gset Grant)) (g : Grant) :
  g ∈ foldl (∩) s ss ↔ g ∈ s ∧ ∀ t, t ∈ ss → g ∈ t.
Proof.
  revert s. induction ss as [|t ss IH]; intros s; simpl.
  - split; [intros Hg; split; [done|]; intros t Ht; by apply elem_of_nil in Ht|tauto].
  - rewrite IH, elem_of_intersection. split.
    + intros [[Hs Ht] Hss]. split; [done|]. intros u Hu.
      apply elem_of_cons in Hu as [->|Hu]; [done|by apply Hss].
    + intros [Hs Hall]. split; [split; [done|]|].
      * apply Hall. by left.
      * intros u Hu. apply Hall. by right.
Qed.

Lemma set_intersection_spec (sets : list (gset Grant)) :
  sets ≠ [] →
  ∃ s, set_intersection sets = OK s ∧ ∀ g, g ∈ s ↔ ∀ t, t ∈ sets → g ∈ t.
Proof.
  destruct sets as [|s ss]; [done|]. intros _. eexists. split; [done|].
  intros g. rewrite foldl_intersection_elem. split.
  - intros [Hs Hss] t Ht. apply elem_of_cons in Ht as [->|Ht]; [done|by apply Hss].
  - intros Hall. split; [apply Hall; by left|]. intros t Ht. apply Hall. by right.
Qed.

Lemma run_collection_valid_chan ml_list (nchan : nat) (c : Z) :
  run_collection nchan ml_list → 0 ≤ c < Z.of_nat nchan → valid_chan ml_list c.
Proof.
  intros Hrc Hc. split; [lia|]. eapply Forall_impl; [exact Hrc|].
  simpl. intros ml ->. lia.
Qed.

(** C8. With every run holding the same channels, a valid channel index and
    a window of [w] runs, [1 <= w <= number of runs], method 'intersection'
    (or 'inter') returns one set per channel, which holds exactly the grants
    that are in the set for that channel of every run of the window: nothing
    is trimmed.  So the set returned for the given channel is included in the
    set of each of these runs. *)
Theorem synthetic_intersection_subset ml_list (nchan : nat) (c w : Z) (m : string) :
  m = "intersection"%string ∨ m = "inter"%string →
  run_collection nchan ml_list →
  0 ≤ c < Z.of_nat nchan →
  1 ≤ w ≤ Z.of_nat (length ml_list) →
  ∃ r : MoveList Grant,
    SyntheticMoveList ml_list m w c = OK r
    ∧ length r = nchan
    ∧ (∀ (ch : nat) (s : gset Grant), r !! ch = Some s →
         ∀ g, g ∈ s ↔
              ∀ (k : nat) mlk, Z.of_nat k < w → ml_list !! k = Some mlk →
                               g ∈ chan_set mlk (Z.of_nat ch))
    ∧ (∀ (k : nat) mlk, Z.of_nat k < w → ml_list !! k = Some mlk →
         chan_set r c ⊆ chan_set mlk c).
Proof.
  intros Hmeth Hrc Hc Hw.
  pose proof (run_collection_valid_chan _ _ _ Hrc Hc) as Hvalid.
  destruct (lookup_lt_is_Some_2 ml_list 0) as [ml0 Hml0]; [lia|].
  assert (∀ (k : nat) mlk, ml_list !! k = Some mlk → length mlk = nchan) as Hlen.
  { intros k mlk Hk. unfold run_collection in Hrc.
    rewrite Forall_forall in Hrc. apply Hrc. by eapply list_elem_of_lookup_2. }
  set (P := λ (chan : Z) (s : gset Grant),
         ∀ g, g ∈ s ↔
              ∀ (k : nat) mlk, Z.of_nat k < w → ml_list !! k = Some mlk →
                               g ∈ chan_set mlk chan).
  destruct (rmap_Forall2
              (λ chan : Z,
                 sets ← rmap (λ k : Z, ml ← py_getitem ml_list k; py_getitem ml chan)
                             (py_range w);
                 set_intersection sets)
              P (py_range (Z.of_nat nchan))) as (r & Hr & Hall).
  { intros chan Hchan. apply py_range_spec in Hchan.
    destruct (rmap_Forall2
                (λ k : Z, ml ← py_getitem ml_list k; py_getitem ml chan)
                (λ (k : Z) (s : gset Grant),
                   ∃ mlk, ml_list !! Z.to_nat k = Some mlk ∧ s = chan_set mlk chan)
                (py_range w)) as (sets & Hsets & Hinner).
    { intros k Hk. apply py_range_spec in Hk.
      destruct (lookup_lt_is_Some_2 ml_list (Z.to_nat k)) as [mlk Hmlk]; [lia|].
      exists (chan_set mlk chan). split; [|by exists mlk].
      rewrite <- (Z2Nat.id k) at 1 by lia.
      rewrite (py_getitem_lookup _ _ _ Hmlk). simpl.
      apply py_getitem_chan. rewrite (Hlen _ _ Hmlk). lia. }
    destruct (set_intersection_spec sets) as (s & Hs & Hmem).
    { intros ->. apply Forall2_length in Hinner.
      rewrite py_range_length in Hinner. simpl in Hinner. lia. }
    exists s. rewrite Hsets. simpl. split; [done|].
    intros g. rewrite Hmem. split.
    - intros Hg k mlk Hk Hmlk.
      destruct (Forall2_lookup_l _ _ _ k (Z.of_nat k) Hinner) as (t & Ht & mlk' & Hmlk' & ->).
      { apply py_range_lookup. lia. }
      rewrite Nat2Z.id, Hmlk in Hmlk'. injection Hmlk' as <-.
      apply Hg. by eapply list_elem_of_lookup_2.
    - intros Hg t Ht. apply list_elem_of_lookup in Ht as [k Ht].
      destruct (Forall2_lookup_r _ _ _ k t Hinner Ht) as (kz & Hkz & mlk & Hmlk & ->).
      pose proof (lookup_lt_Some _ _ _ Hkz) as Hklt.
      rewrite py_range_length in Hklt.
      rewrite py_range_lookup in Hkz by done. injection Hkz as <-.
      rewrite Nat2Z.id in Hmlk. apply (Hg k); [lia|done]. }
  exists r.
  assert (length r = nchan) as Hrlen.
  { apply Forall2_length in Hall. rewrite py_range_length in Hall. lia. }
  assert (∀ (ch : nat) (s : gset Grant), r !! ch = Some s → P (Z.of_nat ch) s) as Hspec.
  { intros ch s Hs. pose proof (lookup_lt_Some _ _ _ Hs) as Hch.
    destruct (Forall2_lookup_r _ _ _ ch s Hall Hs) as (chz & Hchz & HP).
    rewrite py_range_lookup in Hchz by lia. by injection Hchz as <-. }
  split.
  { rewrite (synthetic_int_unfold _ _ _ _ Hmeth), (ml_sizes_valid _ _ Hvalid).
    simpl. change 0 with (Z.of_nat 0). rewrite (py_getitem_lookup _ _ _ Hml0).
    simpl. rewrite (Hlen _ _ Hml0).
    unfold effective_num. destruct (Z.eqb_spec w 0); [lia|]. exact Hr. }
  split; [done|]. split; [exact Hspec|].
  intros k mlk Hk Hmlk g Hg.
  destruct (lookup_lt_is_Some_2 r (Z.to_nat c)) as [s Hs]; [lia|].
  unfold chan_set at 1 in Hg. rewrite Hs in Hg. simpl in Hg.
  pose proof (Hspec _ _ Hs g) as Hiff. rewrite Z2Nat.id in Hiff by lia.
  by apply (proj1 Hiff Hg k).
Qed.

(** C9. On a collection with at least one run, a valid channel index and a
    window that is not empty, the three size-ranked methods all return, and
    the set for the channel grows with the method: 'min' gives at most the
    size of 'median', which gives at most the size of 'max'. *)
Theorem synthetic_size_monotone_in_method ml_list (c num : Z) :
  ml_list ≠ [] →
  valid_chan ml_list c →
  - Z.of_nat (length ml_list) < num →
  ∃ ml_min ml_med ml_max : MoveList Grant,
    SyntheticMoveList ml_list "min" num c = OK ml_min
    ∧ SyntheticMoveList ml_list "median" num c = OK ml_med
    ∧ SyntheticMoveList ml_list "max" num c = OK ml_max
    ∧ size_at c ml_min ≤ size_at c ml_med ≤ size_at c ml_max.
Proof.
  intros Hne Hc Hnum.
  destruct (py_slice_to_window (map (size_at c) ml_list) ml_list num)
    as (m & Hm & Hwin).
  { by rewrite length_map. }
  { by destruct ml_list. }
  { by rewrite length_map. }
  rewrite length_map in Hm.
  destruct (select_min ml_list c m Hm) as (i1 & ml1 & Hsel1 & _ & _ & Hle1 & _).
  destruct (select_max ml_list c m Hm) as (i3 & ml3 & Hsel3 & _ & _ & Hle3 & _).
  destruct (select_median ml_list c m Hm)
    as (sorted & k & i2 & ml2 & Hperm & _ & _ & Hk & Hsel2 & _ & _ & _).
  assert (size_at c ml2 ∈ take m (map (size_at c) ml_list)) as Hin.
  { rewrite <- Hperm. by eapply list_elem_of_lookup_2. }
  apply list_elem_of_lookup in Hin as [j Hj].
  exists ml1, ml2, ml3.
  rewrite (synthetic_min_unfold _ _ _ _ eq_refl),
    (synthetic_med_unfold _ "median" _ _ (or_introl eq_refl)),
    (synthetic_max_unfold _ _ _ _ eq_refl), (ml_sizes_valid _ _ Hc).
  simpl. rewrite Hwin.
  split; [done|]. split; [done|]. split; [done|].
  split; [by apply (Hle1 j)|by apply (Hle3 j)].
Qed.

(** C5. A method string that starts with none of 'med', 'max', 'min', 'int',
    'idx' makes the function raise, but never the [ValueError] its last
    branch names: formatting the message applies [%d] to the string and
    raises [TypeError] first.  (An invalid channel index raises earlier.) *)
Theorem synthetic_unknown_method_raises_TypeError ml_list (method : string) (num c : Z) :
  recognised method = false →
  ∃ e, SyntheticMoveList ml_list method num c = Raise e
       ∧ e ≠ ValueError
       ∧ (valid_chan ml_list c → e = TypeError).
Proof.
  intros Hrec. unfold recognised in Hrec. simpl in Hrec.
  repeat (apply orb_false_elim in Hrec as [? Hrec]).
  unfold SyntheticMoveList.
  destruct (ml_sizes ml_list c) as [sizes|e] eqn:Hsizes; simpl.
  - exists TypeError. repeat case_match; try congruence. by simpl.
  - exists e. split; [done|]. pose proof (ml_sizes_raises _ _ _ Hsizes) as ->.
    split; [done|]. intros Hc. rewrite (ml_sizes_valid _ _ Hc) in Hsizes.
    discriminate.
Qed.

End synthetic_more_claims.

(** ** ScatterAnalyze and the arrays of levels *)

Lemma np_binop_same_length (f : R → R → R) (a b : list R) :
  length a = length b → np_binop f a b = OK (zip_with f a b).
Proof.
  intros Hlen. unfold np_binop. by rewrite Hlen, Nat.eqb_refl.
Qed.

Lemma np_max_spec (a : list R) :
  a ≠ [] → ∃ m, np_max a = OK m ∧ m ∈ a ∧ ∀ x, x ∈ a → (x <= m)%R.
Proof.
  destruct a as [|x a]; [done|]. intros _. simpl.
  exists (foldl Rmax x a). split; [done|].
  assert (∀ (l : list R) (b : R),
             (foldl Rmax b l = b ∨ foldl Rmax b l ∈ l)
             ∧ (b <= foldl Rmax b l)%R
             ∧ ∀ y, y ∈ l → (y <= foldl Rmax b l)%R) as Hfold.
  { induction l as [|y l IH]; intros b; simpl.
    - split; [by left|]. split; [lra|]. intros y Hy. by apply elem_of_nil in Hy.
    - destruct (IH (Rmax b y)) as (Hmem & Hge & Hall).
      pose proof (Rmax_l b y). pose proof (Rmax_r b y).
      split; [|split; [lra|]].
      + destruct Hmem as [Heq|Hin]; [|right; by right].
        rewrite Heq. unfold Rmax. destruct (Rle_dec b y); [right; by left|by left].
      + intros z Hz. apply elem_of_cons in Hz as [->|Hz]; [lra|by apply Hall]. }
  destruct (Hfold a x) as (Hmem & Hge & Hall). split.
  - destruct Hmem as [->|Hin]; [by left|by right].
  - intros y Hy. apply elem_of_cons in Hy as [->|Hy]; [done|by apply Hall].
Qed.

Section scatter_facts.
Variables D L : R → R.

Lemma deviations_zip (samples : list (R * R)) :
  zip_with Rminus
    (map D (zip_with Rplus (map fst samples) (map snd samples)))
    (map D (map fst samples))
  = map (λ s : R * R, (D (s.1 + s.2) - D s.1)%R) samples.
Proof. induction samples as [|[a b] l IH]; simpl; [done|]. by rewrite IH. Qed.

(** On one sample per position, the stage reports the largest deviation and
    the margin computed from it. *)
Lemma ScatterAnalyze_samples (samples : list (R * R)) (threshold_db : R) :
  samples ≠ [] →
  ∃ rep,
    ScatterAnalyze D L (map fst samples) (map snd samples) threshold_db
      = OK (Some rep)
    ∧ max_diff_mw rep ∈ map (λ s : R * R, (D (s.1 + s.2) - D s.1)%R) samples
    ∧ (∀ x, x ∈ map (λ s : R * R, (D (s.1 + s.2) - D s.1)%R) samples →
            (x <= max_diff_mw rep)%R)
    ∧ max_margin_db rep
      = (L (max_diff_mw rep + D threshold_db) - threshold_db)%R.
Proof.
  intros Hne. unfold ScatterAnalyze.
  destruct (map fst samples) as [|r0 rs] eqn:Hfst.
  { destruct samples; [done|discriminate]. }
  rewrite <- Hfst.
  rewrite np_binop_same_length by (by rewrite !length_map).
  rewrite rbind_OK.
  rewrite np_binop_same_length
    by (rewrite !length_map, length_zip_with, !length_map; lia).
  rewrite rbind_OK, deviations_zip.
  destruct (np_max_spec (map (λ s : R * R, (D (s.1 + s.2) - D s.1)%R) samples))
    as (m & Hm & Hin & Hmax).
  { by destruct samples. }
  rewrite Hm, rbind_OK.
  eexists. split; [done|]. simpl. by repeat split.
Qed.

(** The stage never raises on two arrays of one length. *)
Lemma ScatterAnalyze_total (refs diffs : list R) (threshold_db : R) :
  length refs = length diffs → is_OK (ScatterAnalyze D L refs diffs threshold_db).
Proof.
  intros Hlen. unfold ScatterAnalyze. destruct refs as [|r0 rs].
  { by eexists. }
  assert (1 ≤ length (r0 :: rs))%nat as Hpos by (simpl; lia).
  remember (r0 :: rs) as refs eqn:Hrefs. clear Hrefs.
  rewrite np_binop_same_length by done.
  rewrite rbind_OK.
  rewrite np_binop_same_length
    by (rewrite !length_map, length_zip_with; lia).
  rewrite rbind_OK.
  destruct (np_max_spec (zip_with Rminus (map D (zip_with Rplus refs diffs)) (map D refs)))
    as (m & -> & _).
  { intros Hnil. apply (f_equal length) in Hnil.
    rewrite length_zip_with, !length_map, length_zip_with in Hnil.
    simpl in Hnil. lia. }
  by eexists.
Qed.

End scatter_facts.

(** ** dB and linear power over the reals *)

Lemma ln_10_pos : (0 < ln 10)%R.
Proof. rewrite <- ln_1. apply ln_increasing; lra. Qed.

Lemma Db2Lin_pos (x : R) : (0 < Db2Lin x)%R.
Proof. unfold Db2Lin, Rpower. apply exp_pos. Qed.

Lemma Db2Lin_lt (x y : R) : (x < y)%R → (Db2Lin x < Db2Lin y)%R.
Proof. intros Hxy. unfold Db2Lin. apply Rpower_lt; lra. Qed.

Lemma Db2Lin_plus (x y : R) : Db2Lin (x + y) = (Db2Lin x * Db2Lin y)%R.
Proof.
  unfold Db2Lin. rewrite <- Rpower_plus. f_equal. lra.
Qed.

Lemma Db2Lin_0 : Db2Lin 0 = 1%R.
Proof. unfold Db2Lin. replace (0 / 10)%R with 0%R by lra. apply Rpower_O. lra. Qed.

(** The round trip of the specification, exact over the reals. *)
Lemma Lin2Db_Db2Lin (x : R) : Lin2Db (Db2Lin x) = x.
Proof.
  unfold Lin2Db, Db2Lin, Rpower. rewrite ln_exp.
  pose proof ln_10_pos. field. lra.
Qed.

Lemma Lin2Db_lt (x y : R) : (0 < x)%R → (x < y)%R → (Lin2Db x < Lin2Db y)%R.
Proof.
  intros Hx Hxy. unfold Lin2Db. pose proof ln_10_pos as H10.
  pose proof (ln_increasing x y Hx Hxy) as Hln.
  apply Rmult_lt_compat_l; [lra|].
  apply Rmult_lt_compat_r; [|done]. by apply Rinv_0_lt_compat.
Qed.

(** Scenario 2: the sum under the logarithm lies strictly between the
    threshold and the threshold raised by 2 dB. *)
Lemma scenario2_sum_bounds :
  (Db2Lin (-96) < Db2Lin (-98) - Db2Lin (-100) + Db2Lin (-96) < Db2Lin (-94))%R.
Proof.
  pose proof (Db2Lin_lt (-100) (-98) ltac:(lra)) as Hlow.
  pose proof (Db2Lin_pos (-94)) as HA.
  pose proof (Db2Lin_pos (-2)) as Ht0.
  pose proof (Db2Lin_lt (-2) 0 ltac:(lra)) as Ht1. rewrite Db2Lin_0 in Ht1.
  assert (Db2Lin (-96) = Db2Lin (-94) * Db2Lin (-2))%R as H96.
  { rewrite <- Db2Lin_plus. f_equal. lra. }
  assert (Db2Lin (-98) = Db2Lin (-94) * Db2Lin (-2) * Db2Lin (-2))%R as H98.
  { rewrite <- H96, <- Db2Lin_plus. f_equal. lra. }
  assert (Db2Lin (-100) = Db2Lin (-94) * Db2Lin (-2) * Db2Lin (-2) * Db2Lin (-2))%R
    as H100.
  { rewrite <- H98, <- Db2Lin_plus. f_equal. lra. }
  split; [lra|].
  rewrite H100, H98, H96.
  set (A := Db2Lin (-94)) in *. set (t := Db2Lin (-2)) in *.
  assert (0 < (1 - t) * (1 - t * t))%R as Hprod.
  { apply Rmult_lt_0_compat; [lra|nra]. }
  nra.
Qed.

(** C7. On a non-empty list of samples (reference level, delta) the
    statistics stage reports [max_margin_db = Lin2Db (m + Db2Lin threshold) -
    threshold], where [m] is the largest of the linear deviations [Db2Lin
    (level + delta) - Db2Lin level] of the samples.  For the threshold -96 and
    the single sample (-100, +2) this is [Lin2Db (Db2Lin (-98) - Db2Lin (-100)
    + Db2Lin (-96)) - (-96)], strictly between 0 and 2. *)
Theorem scatter_max_margin :
  (∀ (samples : list (R * R)) (threshold_db : R),
      samples ≠ [] →
      ∃ rep,
        ScatterAnalyze Db2Lin Lin2Db (map fst samples) (map snd samples)
                       threshold_db = OK (Some rep)
        ∧ max_diff_mw rep ∈ map delta_linear samples
        ∧ (∀ x, x ∈ map delta_linear samples → (x <= max_diff_mw rep)%R)
        ∧ max_margin_db rep
          = (Lin2Db (max_diff_mw rep + Db2Lin threshold_db) - threshold_db)%R)
  ∧ (∃ rep,
        ScatterAnalyze Db2Lin Lin2Db [(-100)%R] [2%R] (-96)%R = OK (Some rep)
        ∧ max_margin_db rep
          = (Lin2Db (Db2Lin (-98) - Db2Lin (-100) + Db2Lin (-96)) - (-96))%R
        ∧ (0 < max_margin_db rep < 2)%R).
Proof.
  split.
  - intros samples threshold_db Hne.
    exact (ScatterAnalyze_samples Db2Lin Lin2Db samples threshold_db Hne).
  - destruct (ScatterAnalyze_samples Db2Lin Lin2Db [((-100)%R, 2%R)] (-96)%R)
      as (rep & Hrep & Hin & _ & Hmargin); [done|].
    exists rep. split; [exact Hrep|].
    apply list_elem_of_singleton in Hin. simpl in Hin.
    replace (-100 + 2)%R with (-98)%R in Hin by lra.
    rewrite Hmargin, Hin.
    split; [done|].
    destruct scenario2_sum_bounds as [Hlow Hup].
    pose proof (Lin2Db_lt _ _ (Db2Lin_pos (-96)) Hlow) as H1.
    assert (0 < Db2Lin (-98) - Db2Lin (-100) + Db2Lin (-96))%R as Hpos.
    { pose proof (Db2Lin_pos (-96)). lra. }
    pose proof (Lin2Db_lt _ _ Hpos Hup) as H2.
    rewrite Lin2Db_Db2Lin in H1, H2. lra.
Qed.

(** ** ExtensiveInterferenceCheck: the sliding window *)

Lemma py_slice_from_drop {A : Type} (l : list A) (k : nat) :
  py_slice_from l (Z.of_nat k) = drop k l.
Proof.
  unfold py_slice_from. destruct (Z.ltb_spec (Z.of_nat k) 0); [lia|].
  by rewrite Nat2Z.id.
Qed.

Lemma nd_sub_arr1_well_shaped (a : NdArray) (ys : list R) :
  match a with Arr1 xs => length xs = length ys | Arr0 _ => True end →
  ∃ d, nd_sub_arr1 a ys = OK d ∧ length d = length ys.
Proof.
  destruct a as [x|xs]; simpl; intros Hshape.
  - eexists. split; [done|]. by rewrite length_map.
  - rewrite np_binop_same_length by done. eexists. split; [done|].
    rewrite length_zip_with. lia.
Qed.

Lemma collect_levels_well_shaped (results : list PtResult) (refs diffs : list R) :
  Forall well_shaped results →
  length refs = length diffs →
  ∃ refs' diffs',
    collect_levels results refs diffs = OK (refs', diffs')
    ∧ length refs' = length diffs'.
Proof.
  intros Hall. revert refs diffs.
  induction Hall as [|pt results Hpt _ IH]; intros refs diffs Hlen; simpl.
  - by exists refs, diffs.
  - unfold well_shaped in Hpt. destruct (A_DPA_ref pt) as [y|ys]; [by apply IH|].
    destruct (nd_sub_arr1_well_shaped (A_DPA pt) ys) as (d & -> & Hd).
    { by destruct (A_DPA pt). }
    rewrite rbind_OK. apply IH. rewrite !length_app. lia.
Qed.

Section extensive_claims.
Context `{Countable Grant} {Channel MarginSpec Rng : Type}.
Variable CheckInterference :
  Dpa Grant MarginSpec → gset Grant → MarginSpec → Channel → Rng
  → bool * list PtResult * Rng.
Variables D L : R → R.

(** One turn of the loop, when its window synthesizes. *)
Lemma check_step_runs (uut_keep_list : gset Grant)
    (ref_move_lists : list (MoveList Grant)) (w : Z) (method : string)
    (channel : Channel) (c k : Z) (st : CheckState Grant MarginSpec Rng)
    (ml : MoveList Grant) :
  (∀ dpa kl m ch rng, Forall well_shaped (CheckInterference dpa kl m ch rng).1.2) →
  SyntheticMoveList (py_slice_from ref_move_lists k) method w c = OK ml →
  length (ref_levels st) = length (diff_levels st) →
  ∃ st',
    check_step CheckInterference uut_keep_list ref_move_lists w method channel c
               st k = OK st'
    ∧ length (ref_levels st') = length (diff_levels st')
    ∧ checked st' = checked st ++ [ml]
    ∧ move_lists (st_dpa st') = ml.
Proof.
  intros Hshape Hml Hlen. unfold check_step. rewrite Hml, rbind_OK.
  pose proof (Hshape (set_move_lists (st_dpa st) ml) uut_keep_list
                (margin_db (set_move_lists (st_dpa st) ml)) channel (st_rng st))
    as Hres.
  destruct (CheckInterference (set_move_lists (st_dpa st) ml) uut_keep_list
              (margin_db (set_move_lists (st_dpa st) ml)) channel (st_rng st))
    as [[success results] rng]. simpl in Hres.
  destruct (collect_levels_well_shaped results _ _ Hres Hlen)
    as (refs' & diffs' & -> & Hlen').
  rewrite rbind_OK. eexists. split; [done|]. by simpl.
Qed.

(** The loop runs to its end when every window synthesizes, and hands the
    synthesized move lists to the check one after the other. *)
Lemma check_loop_runs (uut_keep_list : gset Grant)
    (ref_move_lists : list (MoveList Grant)) (w : Z) (method : string)
    (channel : Channel) (c : Z) (ks : list Z) (st : CheckState Grant MarginSpec Rng) :
  (∀ dpa kl m ch rng, Forall well_shaped (CheckInterference dpa kl m ch rng).1.2) →
  (∀ k, k ∈ ks →
        is_OK (SyntheticMoveList (py_slice_from ref_move_lists k) method w c)) →
  length (ref_levels st) = length (diff_levels st) →
  ∃ st' mls,
    check_loop (check_step CheckInterference uut_keep_list ref_move_lists w
                           method channel c) ks st = OK st'
    ∧ length (ref_levels st') = length (diff_levels st')
    ∧ checked st' = checked st ++ mls
    ∧ Forall2 (λ k ml, SyntheticMoveList (py_slice_from ref_move_lists k)
                                          method w c = OK ml) ks mls.
Proof.
  intros Hshape. revert st.
  induction ks as [|k ks IH]; intros st Hsynth Hlen.
  - exists st, []. rewrite app_nil_r. by repeat split.
  - destruct (Hsynth k) as [ml Hml]; [by left|].
    destruct (check_step_runs uut_keep_list ref_move_lists w method channel c k
                st ml Hshape Hml Hlen) as (st1 & Hstep & Hlen1 & Hchecked1 & _).
    destruct (IH st1) as (st' & mls & Hloop & Hlen' & Hchecked & Hall).
    { intros k' Hk'. apply Hsynth. by right. }
    { done. }
    exists st', (ml :: mls). split.
    { change (check_loop ?f (k :: ks) st) with (st1' ← f st k; check_loop f ks st1').
      by rewrite Hstep, rbind_OK. }
    split; [done|]. split.
    + rewrite Hchecked, Hchecked1. by rewrite <- app_assoc.
    + by constructor.
Qed.

(** The levels of two lists of results are those of the first, then those
    of the second. *)
Lemma collect_levels_app (r1 r2 : list PtResult) (refs diffs : list R) :
  collect_levels (r1 ++ r2) refs diffs
  = (p ← collect_levels r1 refs diffs; collect_levels r2 p.1 p.2).
Proof.
  revert refs diffs. induction r1 as [|pt r1 IH]; intros refs diffs.
  { change (collect_levels [] refs diffs) with (OK (refs, diffs)).
    by rewrite rbind_OK. }
  change ((pt :: r1) ++ r2) with (pt :: (r1 ++ r2)). cbn [collect_levels].
  destruct (A_DPA_ref pt) as [y|ys]; [apply IH|].
  destruct (nd_sub_arr1 (A_DPA pt) ys) as [d|e].
  - rewrite !rbind_OK. apply IH.
  - by rewrite !rbind_Raise.
Qed.

Lemma spec_checks_on_set_move_lists (dpa : Dpa Grant MarginSpec)
    (ml0 : MoveList Grant) (uut_keep_list : gset Grant) (channel : Channel)
    (mls : list (MoveList Grant)) (rng : Rng) :
  spec_checks_on CheckInterference (set_move_lists dpa ml0) uut_keep_list channel
                 mls rng
  = spec_checks_on CheckInterference dpa uut_keep_list channel mls rng.
Proof.
  revert rng. induction mls as [|ml mls IH]; intros rng; [done|].
  cbn [spec_checks_on].
  change (set_move_lists (set_move_lists dpa ml0) ml) with (set_move_lists dpa ml).
  change (margin_db (set_move_lists dpa ml0)) with (margin_db dpa).
  destruct (CheckInterference _ _ _ _ _) as [[success results] rng1].
  by rewrite IH.
Qed.

Lemma spec_checks_on_length (dpa : Dpa Grant MarginSpec)
    (uut_keep_list : gset Grant) (channel : Channel)
    (mls : list (MoveList Grant)) (rng : Rng) :
  length (spec_checks_on CheckInterference dpa uut_keep_list channel mls rng).1
  = length mls.
Proof.
  revert rng. induction mls as [|ml mls IH]; intros rng; [done|].
  cbn [spec_checks_on].
  destruct (CheckInterference _ _ _ _ _) as [[success results] rng1].
  specialize (IH rng1).
  destruct (spec_checks_on _ _ _ _ _ _) as [more rng2]. simpl in *. by rewrite IH.
Qed.

(** A turn of the loop that returns has synthesized a move list, set it into
    the DPA, and called the interference check on that DPA: the verdict, the
    results and the generator it leaves are those of that call. *)
Lemma check_step_calls (uut_keep_list : gset Grant)
    (ref_move_lists : list (MoveList Grant)) (w : Z) (method : string)
    (channel : Channel) (c k : Z) (st st' : CheckState Grant MarginSpec Rng) :
  check_step CheckInterference uut_keep_list ref_move_lists w method channel c
             st k = OK st' →
  ∃ ml success results,
    SyntheticMoveList (py_slice_from ref_move_lists k) method w c = OK ml
    ∧ CheckInterference (set_move_lists (st_dpa st) ml) uut_keep_list
                        (margin_db (st_dpa st)) channel (st_rng st)
      = (success, results, st_rng st')
    ∧ st_dpa st' = set_move_lists (st_dpa st) ml
    ∧ num_success st' = num_success st + (if success then 1 else 0)
    ∧ collect_levels results (ref_levels st) (diff_levels st)
      = OK (ref_levels st', diff_levels st')
    ∧ checked st' = checked st ++ [ml].
Proof.
  unfold check_step. intros Hstep.
  destruct (SyntheticMoveList _ _ _ _) as [ml|]; [|done]. rewrite rbind_OK in Hstep.
  cbv zeta in Hstep.
  change (margin_db (set_move_lists (st_dpa st) ml)) with (margin_db (st_dpa st))
    in Hstep.
  destruct (CheckInterference (set_move_lists (st_dpa st) ml) uut_keep_list
              (margin_db (st_dpa st)) channel (st_rng st))
    as [[success results] rng1] eqn:Hcall.
  destruct (collect_levels _ _ _) as [[refs diffs]|] eqn:Hlevels; [|done].
  rewrite rbind_OK in Hstep. injection Hstep as <-. simpl.
  by exists ml, success, results.
Qed.

(** A loop that runs to its end has made the checks of the specification on
    the move lists it synthesized, one per position and in order. *)
Lemma check_loop_calls (uut_keep_list : gset Grant)
    (ref_move_lists : list (MoveList Grant)) (w : Z) (method : string)
    (channel : Channel) (c : Z) (ks : list Z)
    (st st' : CheckState Grant MarginSpec Rng) :
  check_loop (check_step CheckInterference uut_keep_list ref_move_lists w
                         method channel c) ks st = OK st' →
  ∃ mls outcomes,
    checked st' = checked st ++ mls
    ∧ Forall2 (λ k ml, SyntheticMoveList (py_slice_from ref_move_lists k)
                                          method w c = OK ml) ks mls
    ∧ spec_checks_on CheckInterference (st_dpa st) uut_keep_list channel mls
                     (st_rng st)
      = (outcomes, st_rng st')
    ∧ num_success st' = num_success st + count_successes outcomes
    ∧ collect_levels (all_results outcomes) (ref_levels st) (diff_levels st)
      = OK (ref_levels st', diff_levels st')
    ∧ st_dpa st' = set_move_lists (st_dpa st)
                                  (default (move_lists (st_dpa st)) (last mls)).
Proof.
  revert st. induction ks as [|k ks IH]; intros st.
  - intros [= <-]. exists [], []. rewrite app_nil_r.
    split; [done|]. split; [constructor|]. split; [done|].
    split; [simpl; lia|]. split; [done|]. simpl. by destruct (st_dpa st).
  - change (check_loop ?f (k :: ks) st) with (st1 ← f st k; check_loop f ks st1).
    destruct (check_step _ _ _ _ _ _ _ st k) as [st1|] eqn:Hstep; [|done].
    rewrite rbind_OK. intros Hloop.
    destruct (check_step_calls _ _ _ _ _ _ _ _ _ Hstep)
      as (ml & success & results & Hml & Hcall & Hdpa & Hnum & Hlevels & Hlog).
    destruct (IH _ Hloop)
      as (mls & outcomes & Hlog' & Hall & Hcalls & Hnum' & Hlevels' & Hdpa').
    exists (ml :: mls), ((success, results) :: outcomes).
    split; [by rewrite Hlog', Hlog, <- app_assoc|].
    split; [by constructor|]. split; [|split; [|split]].
    + cbn [spec_checks_on]. rewrite Hcall.
      rewrite Hdpa, spec_checks_on_set_move_lists in Hcalls. by rewrite Hcalls.
    + rewrite Hnum', Hnum. unfold count_successes. simpl. lia.
    + unfold all_results. simpl. rewrite collect_levels_app.
      by rewrite Hlevels, rbind_OK.
    + rewrite Hdpa', Hdpa. unfold set_move_lists. simpl. f_equal.
      destruct mls as [|ml' mls]; [done|].
      change (last (ml :: ml' :: mls)) with (last (ml' :: mls)).
      destruct (last (ml' :: mls)) eqn:Hlast; [done|].
      by apply last_None in Hlast.
Qed.

(** Whenever the extensive check returns, what it reports is what the checks
    of the specification give on the move lists synthesized at the successive
    positions. *)
Lemma extensive_check_calls (dpa : Dpa Grant MarginSpec) (rng : Rng)
    (uut_keep_list : gset Grant) (ref_move_lists : list (MoveList Grant))
    (w : Z) (method : string) (channel : Channel) (c : Z)
    (out : CheckOutcome Grant MarginSpec Rng) :
  ExtensiveInterferenceCheck CheckInterference D L dpa rng uut_keep_list
                             ref_move_lists w method channel c = OK out →
  ∃ outcomes,
    Forall2 (λ k ml, SyntheticMoveList (py_slice_from ref_move_lists k)
                                        method w c = OK ml)
            (py_range (out_num_check out)) (checked (out_state out))
    ∧ out_num_check out
      = Z.of_nat (length ref_move_lists) - (if w =? 0 then 1 else w) + 1
    ∧ out_num_check out ≠ 0
    ∧ spec_checks_on CheckInterference dpa uut_keep_list channel
                     (checked (out_state out)) rng
      = (outcomes, st_rng (out_state out))
    ∧ out_num_success out = count_successes outcomes
    ∧ collect_levels (all_results outcomes) [] []
      = OK (out_ref_levels out, out_diff_levels out)
    ∧ st_dpa (out_state out)
      = set_move_lists dpa (default (move_lists dpa)
                                    (last (checked (out_state out)))).
Proof.
  unfold ExtensiveInterferenceCheck.
  set (num_check := Z.of_nat (length ref_move_lists) - (if w =? 0 then 1 else w) + 1).
  set (st0 := {| st_dpa := dpa; st_rng := rng; num_success := 0;
                 ref_levels := []; diff_levels := []; checked := [] |}).
  destruct (check_loop _ (py_range num_check) st0) as [st|] eqn:Hloop; [|done].
  rewrite rbind_OK. unfold py_percent.
  destruct (Z.eqb_spec num_check 0) as [|Hnz]; [done|]. rewrite rbind_OK.
  destruct (ScatterAnalyze _ _ _ _ _) as [rep|]; [|done]. rewrite rbind_OK.
  intros [= <-]. simpl.
  destruct (check_loop_calls _ _ _ _ _ _ _ _ _ Hloop)
    as (mls & outcomes & Hlog & Hall & Hcalls & Hnum & Hlevels & Hdpa).
  simpl in Hlog, Hcalls, Hnum, Hlevels, Hdpa. subst mls.
  exists outcomes. by repeat split.
Qed.




(** C3. On an empty list of reference runs the check performs no
    interference check, and then raises [ZeroDivisionError]: with a window
    size of 0 or 1 the number of checks is 0, and the summary divides the
    number of successes by it. *)
Theorem extensive_check_empty_divides_by_zero (dpa : Dpa Grant MarginSpec)
    (rng : Rng) (uut_keep_list : gset Grant) (method : string)
    (channel : Channel) (c : Z) :
  ExtensiveInterferenceCheck CheckInterference D L dpa rng uut_keep_list
                             [] 0 method channel c = Raise ZeroDivisionError
  ∧ ExtensiveInterferenceCheck CheckInterference D L dpa rng uut_keep_list
                               [] 1 method channel c = Raise ZeroDivisionError.
Proof. split; reflexivity. Qed.

(** With a larger window size the empty list gives no error, and a negative
    number of checks. *)
Lemma extensive_check_empty_large_window (dpa : Dpa Grant MarginSpec)
    (rng : Rng) (uut_keep_list : gset Grant) (w : Z) (method : string)
    (channel : Channel) (c : Z) :
  2 ≤ w →
  ∃ out,
    ExtensiveInterferenceCheck CheckInterference D L dpa rng uut_keep_list
                               [] w method channel c = OK out
    ∧ out_num_check out = 1 - w
    ∧ out_ref_levels out = [] ∧ out_diff_levels out = []
    ∧ checked (out_state out) = [].
Proof.
  intros Hw. unfold ExtensiveInterferenceCheck.
  destruct (Z.eqb_spec w 0); [lia|]. simpl length.
  assert (py_range (Z.of_nat 0 - w + 1) = []) as ->.
  { unfold py_range. by replace (Z.to_nat (Z.of_nat 0 - w + 1)) with 0%nat by lia. }
  simpl. unfold py_percent.
  destruct (Z.eqb_spec (Z.of_nat 0 - w + 1) 0); [lia|]. rewrite rbind_OK.
  eexists. split; [done|]. simpl. split; [lia|]. by repeat split.
Qed.

End extensive_claims.

(** ** DpaAnalyzeLogs: the reconciliation *)

Lemma no_file_false (f : string) : f ≠ EmptyString → no_file f = false.
Proof. intros Hf. unfold no_file. by destruct (decide (f = EmptyString)). Qed.

Section analyze_logs_claims.
Context `{Countable Grant} {DpaCfg : Type}.
Variable ReadDpaLogFile : string → list Grant * list Grant * list Grant.
Variable ReadTestHarnessConfigFile : string → list Grant * list DpaCfg.
Variable CleanGrant : Grant → Grant.
Variable is_managed_grant : Grant → bool.
Variable ComputedLists :
  list DpaCfg → list Grant → result (gset Grant * gset Grant).

Local Abbreviation reconcile :=
  (DpaAnalyzeLogs_reconcile ReadDpaLogFile ReadTestHarnessConfigFile CleanGrant
                            is_managed_grant ComputedLists).

(** C6. With a configuration file that gives grants, a log whose neighbor
    list is empty and whose UUT keep list is not, and a reference DPA that
    computes its lists, the reconciliation does not succeed: the reference
    move list is left uncomputed, and plotting it then reads the local
    variable [ref_move_list_other] that was never assigned. *)
Theorem reconcile_no_peer_unbound_local (config_file log_file : string)
    (ref_keep uut_keep grants : list Grant) (dpas : list DpaCfg)
    (lists : gset Grant * gset Grant) :
  config_file ≠ EmptyString →
  log_file ≠ EmptyString →
  ReadDpaLogFile log_file = ([], ref_keep, uut_keep) →
  uut_keep ≠ [] →
  ReadTestHarnessConfigFile config_file = (grants, dpas) →
  grants ≠ [] →
  ComputedLists dpas (map CleanGrant grants) = OK lists →
  DpaAnalyzeLogs_reconcile ReadDpaLogFile ReadTestHarnessConfigFile CleanGrant
                           is_managed_grant ComputedLists config_file log_file
  = Raise UnboundLocalError.
Proof.
  intros Hcfg Hlog Hread Huut Hconf Hgrants Hlists.
  unfold DpaAnalyzeLogs_reconcile.
  rewrite (no_file_false _ Hlog). simpl. rewrite (no_file_false _ Hcfg). simpl.
  rewrite Hread, Hconf. simpl.
  destruct grants as [|g grants]; [done|]. simpl.
  simpl in Hlists. rewrite Hlists, rbind_OK.
  rewrite bool_decide_eq_false_2; [done|].
  intros Hneq. apply Hneq. reflexivity.
Qed.

(** The only [ValueError] of the reconciliation: no grant in the
    configuration, or no configuration and an empty neighbor list. *)
Lemma reconcile_no_grants_with_config (config_file log_file : string)
    (dpas : list DpaCfg) :
  config_file ≠ EmptyString →
  log_file ≠ EmptyString →
  ReadTestHarnessConfigFile config_file = ([], dpas) →
  reconcile config_file log_file = Raise ValueError.
Proof.
  intros Hcfg Hlog Hconf. unfold DpaAnalyzeLogs_reconcile.
  rewrite (no_file_false _ Hlog). simpl. rewrite (no_file_false _ Hcfg). simpl.
  destruct (ReadDpaLogFile log_file) as [[nbor keep] uut]. by rewrite Hconf.
Qed.

Lemma reconcile_no_grants_without_config (log_file : string)
    (ref_keep uut_keep : list Grant) :
  log_file ≠ EmptyString →
  ReadDpaLogFile log_file = ([], ref_keep, uut_keep) →
  reconcile EmptyString log_file = Raise ValueError.
Proof.
  intros Hlog Hread. unfold DpaAnalyzeLogs_reconcile.
  rewrite (no_file_false _ Hlog). simpl. by rewrite Hread.
Qed.

(** With peers in the log the reconciliation succeeds and the reference move
    list is the neighbor list computed less the reference keep list. *)
Lemma reconcile_with_peers (config_file log_file : string)
    (nbor ref_keep uut_keep grants : list Grant) (dpas : list DpaCfg)
    (lists : gset Grant * gset Grant) :
  config_file ≠ EmptyString →
  log_file ≠ EmptyString →
  ReadDpaLogFile log_file = (nbor, ref_keep, uut_keep) →
  nbor ≠ [] →
  ReadTestHarnessConfigFile config_file = (grants, dpas) →
  grants ≠ [] →
  ComputedLists dpas (map CleanGrant grants) = OK lists →
  ∃ r, reconcile config_file log_file = OK r
       ∧ rec_no_peers r = false
       ∧ rec_ref_move_list r
         = Some (lists.1 ∖ list_to_set (map CleanGrant ref_keep)).
Proof.
  intros Hcfg Hlog Hread Hnbor Hconf Hgrants Hlists.
  unfold DpaAnalyzeLogs_reconcile.
  rewrite (no_file_false _ Hlog). simpl. rewrite (no_file_false _ Hcfg). simpl.
  rewrite Hread, Hconf. simpl.
  destruct grants as [|g grants]; [done|]. simpl.
  simpl in Hlists. rewrite Hlists, rbind_OK.
  destruct nbor as [|n nbor]; [done|].
  assert (list_to_set (C := gset Grant) (map CleanGrant (n :: nbor)) ≠ ∅) as Hne.
  { simpl. set_solver. }
  rewrite bool_decide_eq_true_2.
  2:{ intros Hsize. apply size_empty_inv in Hsize. apply Hne.
      by apply leibniz_equiv. }
  simpl. eexists. split; [done|]. simpl. split; [|done].
  by rewrite bool_decide_eq_false_2.
Qed.

(** Every way the reconciliation can fail when both files are given: no grant
    in the configuration, a failure of the reference DPA, or the unassigned
    local variable of the log without peers. *)
Lemma reconcile_failures (config_file log_file : string)
    (nbor ref_keep uut_keep grants : list Grant) (dpas : list DpaCfg) (e : PyExn) :
  config_file ≠ EmptyString →
  log_file ≠ EmptyString →
  ReadDpaLogFile log_file = (nbor, ref_keep, uut_keep) →
  ReadTestHarnessConfigFile config_file = (grants, dpas) →
  reconcile config_file log_file = Raise e →
  (grants = [] ∧ e = ValueError)
  ∨ ComputedLists dpas (map CleanGrant grants) = Raise e
  ∨ (nbor = [] ∧ e = UnboundLocalError).
Proof.
  intros Hcfg Hlog Hread Hconf.
  unfold DpaAnalyzeLogs_reconcile.
  rewrite (no_file_false _ Hlog). simpl. rewrite (no_file_false _ Hcfg). simpl.
  rewrite Hread, Hconf. simpl.
  destruct grants as [|g grants]; simpl.
  { intros [= <-]. by left. }
  destruct (ComputedLists dpas (CleanGrant g :: map CleanGrant grants))
    as [lists|e'] eqn:Hlists.
  2:{ rewrite rbind_Raise. intros [= <-]. right. by left. }
  rewrite rbind_OK. destruct nbor as [|n nbor].
  - rewrite bool_decide_eq_false_2.
    + simpl. intros [= <-]. right. by right.
    + intros Hneq. apply Hneq. reflexivity.
  - rewrite bool_decide_eq_true_2; [done|].
    intros Hsize. apply size_empty_inv in Hsize.
    apply (not_elem_of_empty (C := gset Grant) (CleanGrant n)).
    rewrite <- Hsize. simpl. set_solver.
Qed.

End analyze_logs_claims.

(** ** Sliding windows always synthesize for the size-ranked methods *)

Section sliding_windows.
Context `{Countable Grant}.
Implicit Types (ml_list : list (MoveList Grant)) (ml : MoveList Grant).

Lemma synthetic_ranked_returns ml_list (c num : Z) (m : string) :
  m ∈ ["min"; "max"; "median"; "med"]%string →
  ml_list ≠ [] →
  valid_chan ml_list c →
  - Z.of_nat (length ml_list) < num →
  is_OK (SyntheticMoveList ml_list m num c).
Proof.
  intros Hm Hne Hc Hnum.
  destruct (py_slice_to_window (map (size_at c) ml_list) ml_list num)
    as (n & Hn & Hwin).
  { by rewrite length_map. }
  { by destruct ml_list. }
  { by rewrite length_map. }
  rewrite length_map in Hn.
  repeat (apply elem_of_cons in Hm as [->|Hm]).
  - destruct (select_min ml_list c n Hn) as (i & ml & Hsel & _).
    exists ml. rewrite (synthetic_min_unfold _ _ _ _ eq_refl), (ml_sizes_valid _ _ Hc).
    by rewrite rbind_OK, Hwin.
  - destruct (select_max ml_list c n Hn) as (i & ml & Hsel & _).
    exists ml. rewrite (synthetic_max_unfold _ _ _ _ eq_refl), (ml_sizes_valid _ _ Hc).
    by rewrite rbind_OK, Hwin.
  - destruct (select_median ml_list c n Hn)
      as (sorted & k & i & ml & _ & _ & _ & _ & Hsel & _).
    exists ml.
    rewrite (synthetic_med_unfold _ _ _ _ (or_introl eq_refl)), (ml_sizes_valid _ _ Hc).
    by rewrite rbind_OK, Hwin.
  - destruct (select_median ml_list c n Hn)
      as (sorted & k & i & ml & _ & _ & _ & _ & Hsel & _).
    exists ml.
    rewrite (synthetic_med_unfold _ _ _ _ (or_intror eq_refl)), (ml_sizes_valid _ _ Hc).
    by rewrite rbind_OK, Hwin.
  - by apply elem_of_nil in Hm.
Qed.

(** The hypothesis of the count of checks holds for these methods whenever
    the channel index is valid. *)
Lemma sliding_windows_synthesize ml_list (c w : Z) (m : string) :
  m ∈ ["min"; "max"; "median"; "med"]%string →
  valid_chan ml_list c →
  0 ≤ w →
  ∀ k : nat,
    Z.of_nat k < Z.of_nat (length ml_list) - Z.max w 1 + 1 →
    is_OK (SyntheticMoveList (drop k ml_list) m w c).
Proof.
  intros Hm [Hc Hall] Hw k Hk.
  assert (1 ≤ length (drop k ml_list))%nat as Hlen by (rewrite length_drop; lia).
  apply synthetic_ranked_returns; [done| | |lia].
  - intros Hnil. rewrite Hnil in Hlen. simpl in Hlen. lia.
  - split; [done|]. by apply Forall_drop.
Qed.

End sliding_windows.

(** ** database.py: translate_path *)

Example authorization_string :
  Database._AUTHORIZATION_STRING = "Basic dXNlcm5hbWU6cGFzc3dvcmQ="%string.
Proof. reflexivity. Qed.

(** C10. [translate_path] returns the configured file path of a mapped URL
    path when the request is authorized (no authorization asked, or the exact
    expected header carried), and the empty string for an unmapped path of an
    authorized request.  For a request with no header or a wrong one it
    sends the 401 response and then raises [TypeError], for it writes the
    reason as text on a socket that takes bytes: it never comes to return the
    empty string.  A path it does return is empty or the one configured for
    the URL path. *)
Theorem translate_path_unauthorized_raises_TypeError (server : Database.Server)
    (headers : Database.Headers) (path : string) :
  (Database.authorized server headers →
     ∀ file_path, Database.file_paths server !! path = Some file_path →
       Database.translate_path server headers path = (OK file_path, []))
  ∧ (Database.authorized server headers →
       Database.file_paths server !! path = None →
       Database.translate_path server headers path = (OK EmptyString, []))
  ∧ (Database.authorization server = true →
       Database.header_get headers "Authorization" = None →
       Database.translate_path server headers path
       = (Raise TypeError, [Database.send_response 401; Database.end_headers]))
  ∧ (Database.authorization server = true →
       ∀ auth, Database.header_get headers "Authorization" = Some auth →
         auth ≠ Database._AUTHORIZATION_STRING →
         Database.translate_path server headers path
         = (Raise TypeError, [Database.send_response 401; Database.end_headers]))
  ∧ (∀ p, (Database.translate_path server headers path).1 = OK p →
          p = EmptyString ∨ Database.file_paths server !! path = Some p).
Proof.
  unfold Database.translate_path, Database.authorized.
  split; [|split; [|split; [|split]]].
  - intros [Hoff|Hauth] file_path ->.
    + by rewrite Hoff.
    + rewrite Hauth, String.eqb_refl. simpl. by destruct (Database.authorization server).
  - intros [Hoff|Hauth] ->.
    + by rewrite Hoff.
    + rewrite Hauth, String.eqb_refl. simpl. by destruct (Database.authorization server).
  - by intros -> ->.
  - intros -> auth -> Hne.
    apply String.eqb_neq in Hne. by rewrite Hne.
  - intros p.
    destruct (Database.authorization server);
      [destruct (Database.header_get headers "Authorization") as [auth|];
       [destruct (negb (auth =? Database._AUTHORIZATION_STRING)%string)|]|];
      simpl; try done;
      intros [= <-]; destruct (Database.file_paths server !! path);
      (by right) || (by left).
Qed.

(** * Worked instances *)

Lemma scenario1_valid_chan : valid_chan scenario1 0.
Proof. split; [lia|]. repeat constructor; simpl; lia. Defined.

Lemma scenario1_run_collection : run_collection 1 scenario1.
Proof. repeat constructor. Defined.

(** Scenario 1 under 'min' and 'max' with the full window. *)
Lemma synthetic_min_max_scenario1 :
  valid_chan scenario1 0
  ∧ 1 ≤ 5 ≤ Z.of_nat (length scenario1)
  ∧ (∃ (i : nat) ml,
        SyntheticMoveList scenario1 "min" 5 0 = OK ml
        ∧ scenario1 !! i = Some ml ∧ Z.of_nat i < 5)
  ∧ (∃ (i : nat) ml,
        SyntheticMoveList scenario1 "max" 5 0 = OK ml
        ∧ scenario1 !! i = Some ml ∧ Z.of_nat i < 5).
Proof.
  assert (1 ≤ 5 ≤ Z.of_nat (length scenario1)) as Hw by (simpl; lia).
  split; [exact scenario1_valid_chan|]. split; [exact Hw|].
  destruct (synthetic_min_max_first_extremal scenario1 0 5 scenario1_valid_chan Hw)
    as [(i & ml & Hmin & Hi & Hlt & _) (j & ml' & Hmax & Hj & Hlt' & _)].
  split; [by exists i, ml|by exists j, ml'].
Defined.

(** Scenario 1 under 'median' with the full window. *)
Lemma synthetic_median_scenario1 :
  ∃ (sorted : list Z) (k i : nat) (ml : MoveList nat),
    sorted ≡ₚ window_sizes scenario1 0 5
    ∧ nearest_rank (length (window_sizes scenario1 0 5)) k
    ∧ sorted !! k = Some (size_at 0 ml)
    ∧ SyntheticMoveList scenario1 "median" 5 0 = OK ml
    ∧ scenario1 !! i = Some ml.
Proof.
  assert (- Z.of_nat (length scenario1) < 5) as Hw by (simpl; lia).
  destruct (proj1 synthetic_median_nearest_rank nat _ _ scenario1 0 5 "median"%string
              (or_introl eq_refl) ltac:(done) scenario1_valid_chan Hw)
    as (_ & _ & sorted & k & i & ml & Hperm & _ & Hrank & Hk & Hsel & Hi & _).
  by exists sorted, k, i, ml.
Defined.

(** Scenario 1 under 'inter': the grant common to the five runs. *)
Lemma synthetic_intersection_scenario1 :
  run_collection 1 scenario1
  ∧ ∃ r : MoveList nat,
      SyntheticMoveList scenario1 "inter" 5 0 = OK r
      ∧ length r = 1%nat
      ∧ ∀ (k : nat) mlk, Z.of_nat k < 5 → scenario1 !! k = Some mlk →
                         chan_set r 0 ⊆ chan_set mlk 0.
Proof.
  split; [exact scenario1_run_collection|].
  destruct (synthetic_intersection_subset scenario1 1 0 5 "inter"
              (or_intror eq_refl) scenario1_run_collection)
    as (r & Hr & Hlen & _ & Hsub); [lia|simpl; lia|].
  by exists r.
Defined.

(** Scenario 1 under the three size-ranked methods, all runs in the window. *)
Lemma synthetic_size_monotone_scenario1 :
  ∃ ml_min ml_med ml_max : MoveList nat,
    SyntheticMoveList scenario1 "min" 0 0 = OK ml_min
    ∧ SyntheticMoveList scenario1 "median" 0 0 = OK ml_med
    ∧ SyntheticMoveList scenario1 "max" 0 0 = OK ml_max
    ∧ size_at 0 ml_min ≤ size_at 0 ml_med ≤ size_at 0 ml_max.
Proof.
  apply (synthetic_size_monotone_in_method scenario1 0 0);
    [done|exact scenario1_valid_chan|simpl; lia].
Defined.

(** An unknown method name on scenario 1. *)
Lemma synthetic_unknown_method_scenario1 :
  recognised "average" = false
  ∧ SyntheticMoveList scenario1 "average" 5 0 = Raise TypeError.
Proof.
  split; [reflexivity|].
  destruct (synthetic_unknown_method_raises_TypeError scenario1 "average" 5 0 eq_refl)
    as (e & He & _ & Hty).
  rewrite He. f_equal. exact (Hty scenario1_valid_chan).
Defined.



(** Scenario 4: a configuration with two grants and a log with no neighbor
    list and one grant in the UUT keep list. *)
Lemma reconcile_scenario4 :
  DpaAnalyzeLogs_reconcile (DpaCfg := unit)
    (λ _, ([], [], [1%nat])) (λ _, ([1%nat; 2%nat], [tt])) (λ g, g) (λ _, true)
    (λ _ grants, OK (list_to_set grants, ∅))
    "ipr.config" "dpa.csv" = Raise UnboundLocalError.
Proof.
  by apply (reconcile_no_peer_unbound_local (DpaCfg := unit)
              (λ _, ([], [], [1%nat])) (λ _, ([1%nat; 2%nat], [tt])) (λ g, g) (λ _, true)
              (λ _ grants, OK (list_to_set grants, ∅))
              "ipr.config" "dpa.csv" [] [1%nat] [1%nat; 2%nat] [tt]
              (list_to_set [1%nat; 2%nat], ∅)).
Defined.

(** Scenario 2: one sample at -100 dBm with a delta of +2 dB. *)
Lemma scatter_max_margin_scenario2 :
  ∃ rep,
    ScatterAnalyze Db2Lin Lin2Db [(-100)%R] [2%R] (-96)%R = OK (Some rep)
    ∧ max_diff_mw rep ∈ map delta_linear [((-100)%R, 2%R)]
    ∧ max_margin_db rep = (Lin2Db (max_diff_mw rep + Db2Lin (-96)) - (-96))%R.
Proof.
  destruct (proj1 scatter_max_margin [((-100)%R, 2%R)] (-96)%R)
    as (rep & Hrep & Hin & _ & Hmargin); [done|].
  by exists rep.
Defined.

(** A mapped path, an unmapped path, and a request without the header. *)
Lemma translate_path_example :
  Database.translate_path example_server example_headers "/allsitedata"
  = (OK "allsitedata1"%string, [])
  ∧ Database.translate_path example_server example_headers "/etc/passwd"
    = (OK EmptyString, [])
  ∧ Database.translate_path example_server ∅ "/allsitedata"
    = (Raise TypeError, [Database.send_response 401; Database.end_headers]).
Proof.
  split; [|split].
  - apply (proj1 (translate_path_unauthorized_raises_TypeError
                    example_server example_headers "/allsitedata")).
    + by right.
    + done.
  - apply (proj1 (proj2 (translate_path_unauthorized_raises_TypeError
                           example_server example_headers "/etc/passwd"))).
    + by right.
    + done.
  - by apply (proj1 (proj2 (proj2 (translate_path_unauthorized_raises_TypeError
                                     example_server ∅ "/allsitedata")))).
Defined.


(** * Further properties of the two files *)

(** ** Strings of digits and [int] *)


















(** ** SyntheticMoveList: the remaining branches and the edges *)

Lemma py_getitem_nil {A : Type} (i : Z) : py_getitem (@nil A) i = Raise IndexError.
Proof.
  unfold py_getitem. change (Z.of_nat (length (@nil A))) with 0.
  destruct (Z.ltb_spec i 0).
  - by destruct (Z.ltb_spec (i + 0) 0); [|lia].
  - destruct (Z.ltb_spec i 0); [lia|]. by destruct (Z.leb_spec 0 i); [|lia].
Qed.

Lemma py_getitem_elem {A : Type} (l : list A) (i : Z) (x : A) :
  py_getitem l i = OK x → x ∈ l.
Proof.
  unfold py_getitem. destruct (_ || _); [done|].
  destruct (l !! _) as [y|] eqn:Hy; [|done]. intros [= <-].
  by eapply list_elem_of_lookup_2.
Qed.

Lemma py_getitem_beyond {A : Type} (l : list A) (i : Z) :
  Z.of_nat (length l) ≤ i → py_getitem l i = Raise IndexError.
Proof.
  intros Hi. unfold py_getitem.
  destruct (Z.ltb_spec i 0); [lia|].
  destruct (Z.ltb_spec i 0); [lia|].
  by destruct (Z.leb_spec (Z.of_nat (length l)) i); [|lia].
Qed.

Lemma py_slice_to_nil {A : Type} (n : Z) : py_slice_to (@nil A) n = [].
Proof. unfold py_slice_to. destruct (n <? 0); by rewrite take_nil. Qed.

Lemma rmap_length {A B : Type} (f : A → result B) (l : list A) (ys : list B) :
  rmap f l = OK ys → length ys = length l.
Proof.
  revert ys. induction l as [|x l IH]; intros ys; simpl; [by intros [= <-]|].
  destruct (f x) as [y|]; [|done]. rewrite rbind_OK.
  destruct (rmap f l) as [ys'|]; [|done]. rewrite rbind_OK.
  intros [= <-]. simpl. by rewrite (IH ys').
Qed.

Lemma rmap_OK_inv {A B : Type} (f : A → result B) (l : list A) (ys : list B) :
  rmap f l = OK ys → ∀ x, x ∈ l → is_OK (f x).
Proof.
  revert ys. induction l as [|x l IH]; intros ys; simpl.
  { intros _ x Hx. by apply elem_of_nil in Hx. }
  destruct (f x) as [y|] eqn:Hy; [|done]. rewrite rbind_OK.
  destruct (rmap f l) as [ys'|] eqn:Hys; [|done]. intros _ z Hz.
  apply elem_of_cons in Hz as [->|Hz]; [by exists y|by eapply IH].
Qed.

(** A comprehension raises as soon as one element does. *)
Lemma rmap_raises {A B : Type} (f : A → result B) (e0 : PyExn) (l : list A) (x : A) :
  (∀ z e, f z = Raise e → e = e0) → x ∈ l → f x = Raise e0 →
  rmap f l = Raise e0.
Proof.
  intros Honly Hx Hfx. destruct (rmap f l) as [ys|e] eqn:Hr.
  - destruct (rmap_OK_inv _ _ _ Hr x Hx) as [y Hy]. congruence.
  - f_equal. by eapply rmap_raise_only.
Qed.

Lemma prefix_split3 (a b c : ascii) (m : string) :
  String.prefix (String a (String b (String c EmptyString))) m = true →
  ∃ rest, m = String a (String b (String c rest)).
Proof.
  destruct m as [|a' [|b' [|c' rest]]]; simpl; try done.
  - by destruct (ascii_dec a a').
  - destruct (ascii_dec a a'); [|done]. by destruct (ascii_dec b b').
  - destruct (ascii_dec a a') as [->|]; [|done].
    destruct (ascii_dec b b') as [->|]; [|done].
    destruct (ascii_dec c c') as [->|]; [|done]. intros _. by exists rest.
Qed.

Section synthetic_extras.
Context `{Countable Grant}.
Implicit Types (ml_list : list (MoveList Grant)) (ml : MoveList Grant).


(** X2. Only the first three characters of a method name count for the
    methods 'med', 'max', 'min' and 'int': a name that starts with one of
    them ('median', 'minimum', 'intersect', ...) gives what the three
    characters alone give, result or exception. *)
Theorem synthetic_prefix_dispatch ml_list (m p : string) (num c : Z) :
  p ∈ ["med"; "max"; "min"; "int"]%string →
  py_startswith m p = true →
  SyntheticMoveList ml_list m num c = SyntheticMoveList ml_list p num c.
Proof.
  intros Hp Hm. unfold py_startswith in Hm.
  repeat (apply elem_of_cons in Hp as [->|Hp]);
    try (by apply elem_of_nil in Hp);
    apply prefix_split3 in Hm as [rest ->]; by destruct rest.
Qed.

(** X3. For the size-ranked methods a window at least as large as the
    collection is the whole collection: the outcome is that of window 0. *)
Theorem synthetic_ranked_window_saturates ml_list (m : string) (num c : Z) :
  size_ranked m = true →
  Z.of_nat (length ml_list) ≤ num →
  SyntheticMoveList ml_list m num c = SyntheticMoveList ml_list m 0 c.
Proof.
  intros Hm Hnum. unfold SyntheticMoveList.
  destruct (ml_sizes ml_list c) as [sizes|e] eqn:Hsizes; [|done].
  rewrite !rbind_OK.
  assert (length sizes = length ml_list) as Hlen by (by eapply rmap_length).
  assert (py_slice_to sizes (effective_num ml_list num)
          = py_slice_to sizes (effective_num ml_list 0)) as ->.
  { unfold effective_num, py_slice_to. simpl.
    destruct (Z.eqb_spec num 0) as [->|Hne]; [done|].
    destruct (Z.ltb_spec num 0); [lia|].
    destruct (Z.ltb_spec (Z.of_nat (length ml_list)) 0); [lia|].
    by rewrite !take_ge by lia. }
  unfold size_ranked in Hm.
  destruct (py_startswith m "med"); [done|].
  destruct (py_startswith m "max"); [done|].
  by destruct (py_startswith m "min").
Qed.

(** X4. The intersection method does not cut its window down to the
    collection: with more runs asked for than there are, it raises
    [IndexError]. *)
Theorem synthetic_intersection_window_too_large ml_list (m : string) (num c : Z) :
  m = "intersection"%string ∨ m = "inter"%string →
  ml_list ≠ [] →
  valid_chan ml_list c →
  Z.of_nat (length ml_list) < num →
  SyntheticMoveList ml_list m num c = Raise IndexError.
Proof.
  intros Hm Hne Hc Hnum.
  rewrite (synthetic_int_unfold _ _ _ _ Hm), (ml_sizes_valid _ _ Hc), rbind_OK.
  destruct ml_list as [|ml0 rest] eqn:Hlist; [done|]. rewrite <- Hlist in *.
  assert (py_getitem ml_list 0 = OK ml0) as ->.
  { change 0 with (Z.of_nat 0). apply py_getitem_lookup. by rewrite Hlist. }
  rewrite rbind_OK.
  assert (1 ≤ length ml0)%nat as Hlen0.
  { destruct Hc as [Hc0 Hall]. rewrite Hlist in Hall.
    apply Forall_cons in Hall as [Hml0 _]. lia. }
  assert (effective_num ml_list num = num) as ->.
  { unfold effective_num. destruct (Z.eqb_spec num 0); [lia|done]. }
  apply rmap_raises with (x := 0).
  - intros chan e.
    destruct (rmap _ (py_range num)) as [sets|e'] eqn:Hinner.
    + destruct (rmap_OK_inv _ _ _ Hinner (Z.of_nat (length ml_list))) as [s Hs].
      { apply py_range_spec. lia. }
      by rewrite py_getitem_beyond in Hs by lia.
    + rewrite rbind_Raise. intros [= <-].
      eapply rmap_raise_only; [|exact Hinner].
      intros k e''. cbv beta. destruct (py_getitem ml_list k) as [ml|] eqn:Hk.
      * rewrite rbind_OK. apply py_getitem_raises.
      * rewrite rbind_Raise. intros [= <-]. by eapply py_getitem_raises.
  - apply py_range_spec. lia.
  - rewrite (rmap_raises _ IndexError (py_range num) (Z.of_nat (length ml_list))).
    + done.
    + intros k e''. cbv beta. destruct (py_getitem ml_list k) as [ml|] eqn:Hk.
      * rewrite rbind_OK. apply py_getitem_raises.
      * rewrite rbind_Raise. intros [= <-]. by eapply py_getitem_raises.
    + apply py_range_spec. lia.
    + by rewrite py_getitem_beyond by lia.
Qed.

(** A collection that synthesizes has at least one run. *)
Lemma synthetic_OK_nonempty ml_list (m : string) (num c : Z) ml :
  SyntheticMoveList ml_list m num c = OK ml → ml_list ≠ [].
Proof.
  intros Hr ->. unfold SyntheticMoveList in Hr.
  change (ml_sizes [] c) with (@OK (list Z) []) in Hr. rewrite rbind_OK in Hr.
  rewrite py_slice_to_nil in Hr.
  destruct (py_startswith m "med"); [done|].
  destruct (py_startswith m "max"); [done|].
  destruct (py_startswith m "min"); [done|].
  destruct (py_startswith m "int"); [by rewrite py_getitem_nil in Hr|].
  destruct (py_startswith m "idx"); [|done].
  destruct (py_getitem (py_split m "idx") 1) as [piece|]; [|done].
  rewrite rbind_OK in Hr. destruct (py_int piece) as [idx|]; [|done].
  by rewrite rbind_OK, py_getitem_nil in Hr.
Qed.

(** X5. On an empty collection the synthesis never returns a move list:
    whatever the method, the window and the channel, it raises. *)
Theorem synthetic_empty_collection_never_returns (m : string) (num c : Z) :
  ∃ e, SyntheticMoveList (@nil (MoveList Grant)) m num c = Raise e.
Proof.
  destruct (SyntheticMoveList [] m num c) as [ml|e] eqn:Hr; [|by exists e].
  by destruct (synthetic_OK_nonempty _ _ _ _ _ Hr).
Qed.

(** What the methods other than the intersection return is an element of
    the collection. *)
Lemma synthetic_picks_elem ml_list (m : string) (num c : Z) ml :
  SyntheticMoveList ml_list m num c = OK ml →
  py_startswith m "int" = false →
  ml ∈ ml_list.
Proof.
  intros Hr Hint. unfold SyntheticMoveList in Hr.
  destruct (ml_sizes ml_list c) as [sizes|]; [|done]. rewrite rbind_OK in Hr.
  destruct (py_startswith m "med").
  { destruct (np_percentile_50_nearest _) as [v|]; [|done]. rewrite rbind_OK in Hr.
    destruct (py_index sizes v) as [i|]; [|done]. rewrite rbind_OK in Hr.
    by eapply py_getitem_elem. }
  destruct (py_startswith m "max").
  { destruct (np_argmax _) as [i|]; [|done]. rewrite rbind_OK in Hr.
    by eapply py_getitem_elem. }
  destruct (py_startswith m "min").
  { destruct (np_argmin _) as [i|]; [|done]. rewrite rbind_OK in Hr.
    by eapply py_getitem_elem. }
  rewrite Hint in Hr.
  destruct (py_startswith m "idx"); [|done].
  destruct (py_getitem (py_split m "idx") 1) as [piece|]; [|done].
  rewrite rbind_OK in Hr. destruct (py_int piece) as [idx|]; [|done].
  rewrite rbind_OK in Hr. by eapply py_getitem_elem.
Qed.

(** X6. Apart from the intersection, a synthesized move list is always one
    of the runs of the collection, unchanged: nothing is built or
    interpolated. *)
Theorem synthetic_selects_member ml_list (m : string) (num c : Z) ml :
  SyntheticMoveList ml_list m num c = OK ml →
  py_startswith m "int" = false →
  ∃ i : nat, (i < length ml_list)%nat ∧ ml_list !! i = Some ml.
Proof.
  intros Hr Hint.
  destruct (list_elem_of_lookup_1 _ _ (synthetic_picks_elem _ _ _ _ _ Hr Hint))
    as [i Hi].
  exists i. split; [by eapply lookup_lt_Some|done].
Qed.

End synthetic_extras.

(** ** The intersection against the windows and the smallest run *)

Section intersection_extras.
Context `{Countable Grant}.
Implicit Types (ml_list : list (MoveList Grant)) (ml : MoveList Grant).

Lemma py_slice_to_take {A : Type} (l : list A) (n : Z) :
  0 ≤ n → py_slice_to l n = take (Z.to_nat n) l.
Proof. intros Hn. unfold py_slice_to. by destruct (Z.ltb_spec n 0); [lia|]. Qed.

(** What the intersection method returns on a window of [n] runs, [n] read
    after the window size 0 has been replaced. *)
Lemma synthetic_intersection_window ml_list (nchan : nat) (c num : Z) (m : string) :
  m = "intersection"%string ∨ m = "inter"%string →
  run_collection nchan ml_list →
  0 ≤ c < Z.of_nat nchan →
  1 ≤ effective_num ml_list num ≤ Z.of_nat (length ml_list) →
  ∃ r : MoveList Grant,
    SyntheticMoveList ml_list m num c = OK r
    ∧ length r = nchan
    ∧ (∀ (ch : nat) (s : gset Grant), r !! ch = Some s →
         ∀ g, g ∈ s ↔
              ∀ (k : nat) mlk, Z.of_nat k < effective_num ml_list num →
                               ml_list !! k = Some mlk →
                               g ∈ chan_set mlk (Z.of_nat ch)).
Proof.
  intros Hmeth Hrc Hc Hw.
  set (w := effective_num ml_list num) in *.
  pose proof (run_collection_valid_chan _ _ _ Hrc Hc) as Hvalid.
  destruct (lookup_lt_is_Some_2 ml_list 0) as [ml0 Hml0]; [lia|].
  assert (∀ (k : nat) mlk, ml_list !! k = Some mlk → length mlk = nchan) as Hlen.
  { intros k mlk Hk. unfold run_collection in Hrc.
    rewrite Forall_forall in Hrc. apply Hrc. by eapply list_elem_of_lookup_2. }
  rewrite (synthetic_int_unfold _ _ _ _ Hmeth), (ml_sizes_valid _ _ Hvalid).
  rewrite rbind_OK. change 0 with (Z.of_nat 0).
  rewrite (py_getitem_lookup _ _ _ Hml0), rbind_OK, (Hlen _ _ Hml0).
  fold w.
  destruct (rmap_Forall2
              (λ chan : Z,
                 sets ← rmap (λ k : Z, ml ← py_getitem ml_list k; py_getitem ml chan)
                             (py_range w);
                 set_intersection sets)
              (λ (chan : Z) (s : gset Grant),
                 ∀ g, g ∈ s ↔
                      ∀ (k : nat) mlk, Z.of_nat k < w → ml_list !! k = Some mlk →
                                       g ∈ chan_set mlk chan)
              (py_range (Z.of_nat nchan))) as (r & Hr & Hall).
  { intros chan Hchan. apply py_range_spec in Hchan.
    destruct (rmap_Forall2
                (λ k : Z, ml ← py_getitem ml_list k; py_getitem ml chan)
                (λ (k : Z) (s : gset Grant),
                   ∃ mlk, ml_list !! Z.to_nat k = Some mlk ∧ s = chan_set mlk chan)
                (py_range w)) as (sets & Hsets & Hinner).
    { intros k Hk. apply py_range_spec in Hk.
      destruct (lookup_lt_is_Some_2 ml_list (Z.to_nat k)) as [mlk Hmlk]; [lia|].
      exists (chan_set mlk chan). split; [|by exists mlk].
      rewrite <- (Z2Nat.id k) at 1 by lia.
      rewrite (py_getitem_lookup _ _ _ Hmlk), rbind_OK.
      apply py_getitem_chan. rewrite (Hlen _ _ Hmlk). lia. }
    destruct (set_intersection_spec sets) as (s & Hs & Hmem).
    { intros ->. apply Forall2_length in Hinner.
      rewrite py_range_length in Hinner. simpl in Hinner. lia. }
    exists s. rewrite Hsets, rbind_OK. split; [done|].
    intros g. rewrite Hmem. split.
    - intros Hg k mlk Hk Hmlk.
      destruct (Forall2_lookup_l _ _ _ k (Z.of_nat k) Hinner)
        as (t & Ht & mlk' & Hmlk' & ->).
      { apply py_range_lookup. lia. }
      rewrite Nat2Z.id, Hmlk in Hmlk'. injection Hmlk' as <-.
      apply Hg. by eapply list_elem_of_lookup_2.
    - intros Hg t Ht. apply list_elem_of_lookup in Ht as [k Ht].
      destruct (Forall2_lookup_r _ _ _ k t Hinner Ht) as (kz & Hkz & mlk & Hmlk & ->).
      pose proof (lookup_lt_Some _ _ _ Hkz) as Hklt.
      rewrite py_range_length in Hklt.
      rewrite py_range_lookup in Hkz by done. injection Hkz as <-.
      rewrite Nat2Z.id in Hmlk. apply (Hg k); [lia|done]. }
  exists r. split; [exact Hr|].
  assert (length r = nchan) as Hrlen.
  { apply Forall2_length in Hall. rewrite py_range_length in Hall. lia. }
  split; [done|].
  intros ch s Hs. pose proof (lookup_lt_Some _ _ _ Hs) as Hch.
  destruct (Forall2_lookup_r _ _ _ ch s Hall Hs) as (chz & Hchz & HP).
  rewrite py_range_lookup in Hchz by lia. by injection Hchz as <-.
Qed.

Lemma chan_set_lookup ml (c : Z) (s : gset Grant) :
  0 ≤ c → ml !! Z.to_nat c = Some s → chan_set ml c = s.
Proof. intros Hc Hs. unfold chan_set. by rewrite Hs. Qed.

(** X7. On a window of [w] runs, [1 <= w <= number of runs], the
    intersection list for the channel is included in the list the 'min'
    method returns, so it is never larger than the smallest run of the
    window. *)
Theorem synthetic_intersection_within_min ml_list (nchan : nat) (c w : Z) :
  run_collection nchan ml_list →
  0 ≤ c < Z.of_nat nchan →
  1 ≤ w ≤ Z.of_nat (length ml_list) →
  ∃ r_int r_min : MoveList Grant,
    SyntheticMoveList ml_list "inter" w c = OK r_int
    ∧ SyntheticMoveList ml_list "min" w c = OK r_min
    ∧ chan_set r_int c ⊆ chan_set r_min c
    ∧ size_at c r_int ≤ size_at c r_min.
Proof.
  intros Hrc Hc Hw.
  pose proof (run_collection_valid_chan _ _ _ Hrc Hc) as Hvalid.
  assert (effective_num ml_list w = w) as Heff.
  { unfold effective_num. by destruct (Z.eqb_spec w 0); [lia|]. }
  destruct (synthetic_intersection_window ml_list nchan c w "inter"
              (or_intror eq_refl) Hrc Hc) as (r & Hr & Hlen & Hspec).
  { rewrite Heff. lia. }
  rewrite Heff in Hspec.
  assert (1 ≤ Z.to_nat w ≤ length ml_list)%nat as Hm by lia.
  destruct (select_min ml_list c _ Hm) as (i & ml & Hsel & Hml & Hat & _).
  destruct (window_lookup_inv _ _ _ _ _ Hat) as [Hi _].
  exists r, ml. split; [exact Hr|]. split.
  { rewrite (synthetic_min_unfold _ _ _ _ eq_refl), (ml_sizes_valid _ _ Hvalid).
    by rewrite rbind_OK, py_slice_to_exact by lia. }
  assert (chan_set r c ⊆ chan_set ml c) as Hsub.
  { intros g Hg.
    destruct (lookup_lt_is_Some_2 r (Z.to_nat c)) as [s Hs]; [lia|].
    rewrite (chan_set_lookup _ _ _ (proj1 Hc) Hs) in Hg.
    pose proof (proj1 (Hspec _ _ Hs g) Hg i ml ltac:(lia) Hml) as Hin.
    by rewrite Z2Nat.id in Hin by lia. }
  split; [exact Hsub|]. unfold size_at.
  apply inj_le. by apply subseteq_size.
Qed.

(** X8. Widening the window can only shrink the intersection: for
    [1 <= w <= w' <= number of runs] every set of the list for [w'] is
    included in the set of the same channel for [w]. *)
Theorem synthetic_intersection_antitone ml_list (nchan : nat) (c w w' : Z) :
  run_collection nchan ml_list →
  0 ≤ c < Z.of_nat nchan →
  1 ≤ w → w ≤ w' → w' ≤ Z.of_nat (length ml_list) →
  ∃ r r' : MoveList Grant,
    SyntheticMoveList ml_list "inter" w c = OK r
    ∧ SyntheticMoveList ml_list "inter" w' c = OK r'
    ∧ length r = length r'
    ∧ ∀ (ch : nat) s s', r !! ch = Some s → r' !! ch = Some s' → s' ⊆ s.
Proof.
  intros Hrc Hc Hw Hww Hw'.
  assert (effective_num ml_list w = w) as Heff.
  { unfold effective_num. by destruct (Z.eqb_spec w 0); [lia|]. }
  assert (effective_num ml_list w' = w') as Heff'.
  { unfold effective_num. by destruct (Z.eqb_spec w' 0); [lia|]. }
  destruct (synthetic_intersection_window ml_list nchan c w "inter"
              (or_intror eq_refl) Hrc Hc) as (r & Hr & Hlen & Hspec).
  { rewrite Heff. lia. }
  destruct (synthetic_intersection_window ml_list nchan c w' "inter"
              (or_intror eq_refl) Hrc Hc) as (r' & Hr' & Hlen' & Hspec').
  { rewrite Heff'. lia. }
  rewrite Heff in Hspec. rewrite Heff' in Hspec'.
  exists r, r'. split; [exact Hr|]. split; [exact Hr'|]. split; [congruence|].
  intros ch s s' Hs Hs' g Hg.
  apply (Hspec _ _ Hs g). intros k mlk Hk Hmlk.
  apply (proj1 (Hspec' _ _ Hs' g) Hg k mlk); [lia|done].
Qed.

End intersection_extras.

(** ** GetMostUsedChannel *)

Section most_used_channel_facts.
Context `{Countable Grant} {Channel : Type}.

(** X9. On a DPA with at least one channel [GetMostUsedChannel] returns the
    first channel, in the order of the DPA, whose neighbor list is largest,
    with its index; with no channel it raises [ValueError]. *)
Theorem most_used_channel_first_largest (channels : list Channel)
    (GetNeighborList : Channel → gset Grant) :
  (channels = [] → GetMostUsedChannel channels GetNeighborList = Raise ValueError)
  ∧ (channels ≠ [] →
     ∃ (i : nat) (channel : Channel),
       GetMostUsedChannel channels GetNeighborList = OK (channel, Z.of_nat i)
       ∧ channels !! i = Some channel
       ∧ (∀ (j : nat) chj, channels !! j = Some chj →
            (size (GetNeighborList chj) ≤ size (GetNeighborList channel))%nat)
       ∧ (∀ (j : nat) chj, (j < i)%nat → channels !! j = Some chj →
            (size (GetNeighborList chj) < size (GetNeighborList channel))%nat)).
Proof.
  split; [by intros ->|]. intros Hne. unfold GetMostUsedChannel.
  set (sizes := map (λ chan, Z.of_nat (size (GetNeighborList chan))) channels).
  destruct (np_argmax_spec sizes) as (i & v & Hi & Hat & Hle & Hlt).
  { unfold sizes. by destruct channels. }
  unfold sizes in Hat. rewrite list_lookup_fmap in Hat.
  destruct (channels !! i) as [channel|] eqn:Hch; [|done].
  injection Hat as <-.
  exists i, channel. rewrite Hi, rbind_OK, (py_getitem_lookup _ _ _ Hch), rbind_OK.
  split; [done|]. split; [done|]. split.
  - intros j chj Hj.
    assert (sizes !! j = Some (Z.of_nat (size (GetNeighborList chj)))) as Hsj.
    { unfold sizes. by rewrite list_lookup_fmap, Hj. }
    specialize (Hle _ _ Hsj). lia.
  - intros j chj Hji Hj.
    assert (sizes !! j = Some (Z.of_nat (size (GetNeighborList chj)))) as Hsj.
    { unfold sizes. by rewrite list_lookup_fmap, Hj. }
    specialize (Hlt _ _ Hji Hsj). lia.
Qed.

End most_used_channel_facts.

(** ** ExtensiveInterferenceCheck: counts and edges *)

Section extensive_extras.
Context `{Countable Grant} {Channel MarginSpec Rng : Type}.
Variable CheckInterference :
  Dpa Grant MarginSpec → gset Grant → MarginSpec → Channel → Rng
  → bool * list PtResult * Rng.
Variables D L : R → R.

(** What a turn of the loop that returns has done. *)
Lemma check_step_inv (uut_keep_list : gset Grant)
    (ref_move_lists : list (MoveList Grant)) (w : Z) (method : string)
    (channel : Channel) (c k : Z) (st st' : CheckState Grant MarginSpec Rng) :
  check_step CheckInterference uut_keep_list ref_move_lists w method channel c
             st k = OK st' →
  ∃ ml,
    SyntheticMoveList (py_slice_from ref_move_lists k) method w c = OK ml
    ∧ checked st' = checked st ++ [ml]
    ∧ st_dpa st' = set_move_lists (st_dpa st) ml
    ∧ num_success st ≤ num_success st' ≤ num_success st + 1.
Proof.
  unfold check_step. intros Hstep.
  destruct (SyntheticMoveList _ _ _ _) as [ml|]; [|done]. rewrite rbind_OK in Hstep.
  destruct (CheckInterference _ _ _ _ _) as [[success results] rng].
  destruct (collect_levels _ _ _) as [levels|]; [|done].
  rewrite rbind_OK in Hstep. injection Hstep as <-. simpl.
  exists ml. do 3 (split; [done|]). destruct success; lia.
Qed.

(** What a loop that runs to its end has done: one synthesis per position,
    logged in order, at most one success each, and the DPA left with the last
    synthesized move list and its other fields untouched. *)
Lemma check_loop_inv (uut_keep_list : gset Grant)
    (ref_move_lists : list (MoveList Grant)) (w : Z) (method : string)
    (channel : Channel) (c : Z) (ks : list Z)
    (st st' : CheckState Grant MarginSpec Rng) :
  check_loop (check_step CheckInterference uut_keep_list ref_move_lists w
                         method channel c) ks st = OK st' →
  ∃ mls,
    checked st' = checked st ++ mls
    ∧ Forall2 (λ k ml, SyntheticMoveList (py_slice_from ref_move_lists k)
                                          method w c = OK ml) ks mls
    ∧ num_success st ≤ num_success st' ≤ num_success st + Z.of_nat (length ks)
    ∧ st_dpa st' = set_move_lists (st_dpa st)
                                  (default (move_lists (st_dpa st)) (last mls)).
Proof.
  revert st. induction ks as [|k ks IH]; intros st.
  - intros [= <-]. exists []. rewrite app_nil_r. split; [done|].
    split; [constructor|]. split; [simpl; lia|]. simpl. by destruct (st_dpa st).
  - change (check_loop ?f (k :: ks) st) with (st1 ← f st k; check_loop f ks st1).
    destruct (check_step _ _ _ _ _ _ _ st k) as [st1|] eqn:Hstep; [|done].
    rewrite rbind_OK. intros Hloop.
    destruct (check_step_inv _ _ _ _ _ _ _ _ _ Hstep) as (ml & Hml & Hlog & Hdpa & Hnum).
    destruct (IH _ Hloop) as (mls & Hlog' & Hall & Hnum' & Hdpa').
    exists (ml :: mls). split; [by rewrite Hlog', Hlog, <- app_assoc|].
    split; [by constructor|]. split.
    { change (length (k :: ks)) with (S (length ks)). lia. }
    rewrite Hdpa', Hdpa. unfold set_move_lists. simpl. f_equal.
    destruct mls as [|ml' mls]; [done|].
    change (last (ml :: ml' :: mls)) with (last (ml' :: mls)).
    destruct (last (ml' :: mls)) eqn:Hlast; [done|].
    by apply last_None in Hlast.
Qed.

(** What a check that returned has logged and counted. *)
Lemma extensive_check_returns_log (dpa : Dpa Grant MarginSpec) (rng : Rng)
    (uut_keep_list : gset Grant) (ref_move_lists : list (MoveList Grant))
    (w : Z) (method : string) (channel : Channel) (c : Z)
    (out : CheckOutcome Grant MarginSpec Rng) :
  ExtensiveInterferenceCheck CheckInterference D L dpa rng uut_keep_list
                             ref_move_lists w method channel c = OK out →
  0 ≤ w
  ∧ out_num_check out = Z.of_nat (length ref_move_lists) - Z.max w 1 + 1
  ∧ out_num_check out ≠ 0
  ∧ Z.of_nat (length (checked (out_state out))) = Z.max (out_num_check out) 0
  ∧ (∀ (k : nat) ml, checked (out_state out) !! k = Some ml →
       SyntheticMoveList (drop k ref_move_lists) method w c = OK ml)
  ∧ 0 ≤ out_num_success out ≤ Z.of_nat (length (checked (out_state out)))
  ∧ (0 < out_num_check out → (0 <= out_percent out <= 100)%R).
Proof.
  unfold ExtensiveInterferenceCheck.
  set (num_synth := if w =? 0 then 1 else w).
  set (num_check := Z.of_nat (length ref_move_lists) - num_synth + 1).
  set (st0 := {| st_dpa := dpa; st_rng := rng; num_success := 0;
                 ref_levels := []; diff_levels := []; checked := [] |}).
  destruct (check_loop _ (py_range num_check) st0) as [st|] eqn:Hloop; [|done].
  rewrite rbind_OK. unfold py_percent.
  destruct (Z.eqb_spec num_check 0) as [|Hnz]; [done|]. rewrite rbind_OK.
  destruct (ScatterAnalyze _ _ _ _ _) as [rep|]; [|done]. rewrite rbind_OK.
  intros [= <-]. simpl.
  destruct (check_loop_inv _ _ _ _ _ _ _ _ _ Hloop) as (mls & Hlog & Hall & Hnum & _).
  simpl in Hlog, Hnum. subst mls.
  pose proof (Forall2_length _ _ _ Hall) as Hlen. rewrite py_range_length in Hlen.
  rewrite py_range_length in Hnum.
  assert (0 ≤ w) as Hw.
  { destruct (Z.le_gt_cases 0 w) as [|Hneg]; [done|]. exfalso.
    assert (Z.of_nat (length ref_move_lists) ∈ py_range num_check) as Hin.
    { apply py_range_spec. unfold num_check, num_synth.
      destruct (Z.eqb_spec w 0); lia. }
    destruct (list_elem_of_lookup_1 _ _ Hin) as [i Hi].
    destruct (Forall2_lookup_l _ _ _ _ _ Hall Hi) as (ml & _ & Hml).
    rewrite py_slice_from_drop, drop_all in Hml.
    by destruct (synthetic_OK_nonempty _ _ _ _ _ Hml). }
  assert (num_synth = Z.max w 1) as Hsynth.
  { unfold num_synth. destruct (Z.eqb_spec w 0); lia. }
  split; [done|]. split; [unfold num_check; by rewrite Hsynth|].
  split; [done|]. split; [lia|]. split; [|split; [lia|]].
  - intros k ml Hk.
    destruct (Forall2_lookup_r _ _ _ k ml Hall Hk) as (kz & Hkz & Hml).
    pose proof (lookup_lt_Some _ _ _ Hk) as Hklt.
    rewrite py_range_lookup in Hkz by lia. injection Hkz as <-.
    by rewrite py_slice_from_drop in Hml.
  - intros Hpos.
    assert (0 < IZR num_check)%R as Hn by (by apply IZR_lt).
    assert (0 <= IZR (num_success st))%R as Hs0 by (apply IZR_le; lia).
    assert (IZR (num_success st) <= IZR num_check)%R as Hs1 by (apply IZR_le; lia).
    split.
    + apply Rmult_le_reg_r with (IZR num_check); [done|].
      replace (100 * IZR (num_success st) / IZR num_check * IZR num_check)%R
        with (100 * IZR (num_success st))%R by (field; lra).
      lra.
    + apply Rmult_le_reg_r with (IZR num_check); [done|].
      replace (100 * IZR (num_success st) / IZR num_check * IZR num_check)%R
        with (100 * IZR (num_success st))%R by (field; lra).
      lra.
Qed.

(** X10. Whenever the extensive check returns, the window size was not
    negative, the number of checks [n - max w 1 + 1] it reports is not 0, and
    it has made that many interference checks (none when the number is
    negative), the check of position [k] on the DPA carrying the move list
    synthesized from the runs from [k] on: the successes it reports, the
    levels it returns and the random generator it leaves are those of these
    checks made in order; the number of successes lies between 0 and the
    number of checks made. *)
Theorem extensive_check_returns_inv (dpa : Dpa Grant MarginSpec) (rng : Rng)
    (uut_keep_list : gset Grant) (ref_move_lists : list (MoveList Grant))
    (w : Z) (method : string) (channel : Channel) (c : Z)
    (out : CheckOutcome Grant MarginSpec Rng) :
  ExtensiveInterferenceCheck CheckInterference D L dpa rng uut_keep_list
                             ref_move_lists w method channel c = OK out →
  0 ≤ w
  ∧ out_num_check out = Z.of_nat (length ref_move_lists) - Z.max w 1 + 1
  ∧ out_num_check out ≠ 0
  ∧ Z.of_nat (length (checked (out_state out))) = Z.max (out_num_check out) 0
  ∧ (∀ (k : nat) ml, checked (out_state out) !! k = Some ml →
       SyntheticMoveList (drop k ref_move_lists) method w c = OK ml)
  ∧ (∃ outcomes,
       spec_checks_on CheckInterference dpa uut_keep_list channel
                      (checked (out_state out)) rng
       = (outcomes, st_rng (out_state out))
       ∧ length outcomes = length (checked (out_state out))
       ∧ out_num_success out = count_successes outcomes
       ∧ collect_levels (all_results outcomes) [] []
         = OK (out_ref_levels out, out_diff_levels out))
  ∧ 0 ≤ out_num_success out ≤ Z.of_nat (length (checked (out_state out)))
  ∧ (0 < out_num_check out → (0 <= out_percent out <= 100)%R).
Proof.
  intros Hout.
  destruct (extensive_check_returns_log dpa rng uut_keep_list ref_move_lists w
              method channel c out Hout)
    as (Hw & Hnum & Hnz & Hlen & Hpos & Hsucc & Hpct).
  destruct (extensive_check_calls CheckInterference D L _ _ _ _ _ _ _ _ _ Hout)
    as (outcomes & _ & _ & _ & Hcalls & Hcount & Hlevels & _).
  do 5 (split; [done|]). split; [|done].
  exists outcomes. split; [done|]. split; [|done].
  pose proof (spec_checks_on_length CheckInterference dpa uut_keep_list channel
                (checked (out_state out)) rng) as Hlen'.
  by rewrite Hcalls in Hlen'.
Qed.

(** X11. A window one run longer than the list ([max w 1 = n + 1]) makes
    the extensive check raise [ZeroDivisionError] on any list of runs; a
    window longer still makes it return without a single interference check,
    with empty samples and a negative number of checks. *)
Theorem extensive_check_window_beyond (dpa : Dpa Grant MarginSpec) (rng : Rng)
    (uut_keep_list : gset Grant) (ref_move_lists : list (MoveList Grant))
    (w : Z) (method : string) (channel : Channel) (c : Z) :
  0 ≤ w →
  (Z.max w 1 = Z.of_nat (length ref_move_lists) + 1 →
   ExtensiveInterferenceCheck CheckInterference D L dpa rng uut_keep_list
                              ref_move_lists w method channel c
   = Raise ZeroDivisionError)
  ∧ (Z.of_nat (length ref_move_lists) + 1 < w →
     ∃ out,
       ExtensiveInterferenceCheck CheckInterference D L dpa rng uut_keep_list
                                  ref_move_lists w method channel c = OK out
       ∧ out_num_check out < 0
       ∧ out_num_success out = 0
       ∧ out_ref_levels out = [] ∧ out_diff_levels out = []
       ∧ checked (out_state out) = []
       ∧ st_dpa (out_state out) = dpa).
Proof.
  intros Hw. unfold ExtensiveInterferenceCheck.
  assert ((if w =? 0 then 1 else w) = Z.max w 1) as ->.
  { destruct (Z.eqb_spec w 0); lia. }
  split.
  - intros ->.
    by replace (Z.of_nat (length ref_move_lists)
                - (Z.of_nat (length ref_move_lists) + 1) + 1) with 0 by lia.
  - intros Hbig.
    assert (py_range (Z.of_nat (length ref_move_lists) - Z.max w 1 + 1) = []) as ->.
    { unfold py_range.
      by replace (Z.to_nat (Z.of_nat (length ref_move_lists) - Z.max w 1 + 1))
        with 0%nat by lia. }
    simpl. unfold py_percent.
    destruct (Z.eqb_spec (Z.of_nat (length ref_move_lists) - Z.max w 1 + 1) 0);
      [lia|].
    rewrite rbind_OK. eexists. split; [done|]. simpl. split; [lia|]. by repeat split.
Qed.

(** With a size-ranked method the check returns, and its final state is
    that of the loop over the [n - max w 1 + 1] positions. *)
Lemma extensive_check_ranked_loop (dpa : Dpa Grant MarginSpec) (rng : Rng)
    (uut_keep_list : gset Grant) (ref_move_lists : list (MoveList Grant))
    (w : Z) (method : string) (channel : Channel) (c : Z) :
  (∀ dpa kl m ch rng, Forall well_shaped (CheckInterference dpa kl m ch rng).1.2) →
  method ∈ ["min"; "max"; "median"; "med"]%string →
  valid_chan ref_move_lists c →
  0 ≤ w →
  Z.max w 1 ≤ Z.of_nat (length ref_move_lists) →
  ∃ out,
    ExtensiveInterferenceCheck CheckInterference D L dpa rng uut_keep_list
                               ref_move_lists w method channel c = OK out
    ∧ out_num_check out = Z.of_nat (length ref_move_lists) - Z.max w 1 + 1
    ∧ check_loop (check_step CheckInterference uut_keep_list ref_move_lists w
                             method channel c)
                 (py_range (Z.of_nat (length ref_move_lists) - Z.max w 1 + 1))
                 {| st_dpa := dpa; st_rng := rng; num_success := 0;
                    ref_levels := []; diff_levels := []; checked := [] |}
      = OK (out_state out).
Proof.
  intros Hshape Hm Hc Hw Hlen.
  unfold ExtensiveInterferenceCheck.
  assert ((if w =? 0 then 1 else w) = Z.max w 1) as ->.
  { destruct (Z.eqb_spec w 0); lia. }
  set (num_check := Z.of_nat (length ref_move_lists) - Z.max w 1 + 1) in *.
  set (st0 := {| st_dpa := dpa; st_rng := rng; num_success := 0;
                 ref_levels := []; diff_levels := []; checked := [] |}).
  destruct (check_loop_runs CheckInterference uut_keep_list ref_move_lists w
              method channel c (py_range num_check) st0)
    as (st & mls & Hloop & Hlevels & _ & _); [done| |done|].
  { intros k Hk. apply py_range_spec in Hk.
    rewrite <- (Z2Nat.id k), py_slice_from_drop by lia.
    apply sliding_windows_synthesize; [done..|]. unfold num_check in Hk. lia. }
  rewrite Hloop, rbind_OK. unfold py_percent.
  destruct (Z.eqb_spec num_check 0); [unfold num_check in *; lia|].
  rewrite rbind_OK.
  destruct (ScatterAnalyze_total D L (ref_levels st) (diff_levels st)
              (threshold (st_dpa st)) Hlevels) as [rep ->].
  rewrite rbind_OK. eexists. by split.
Qed.

(** With a size-ranked method the check returns, and what it has logged. *)
Lemma extensive_check_ranked_log (dpa : Dpa Grant MarginSpec) (rng : Rng)
    (uut_keep_list : gset Grant) (ref_move_lists : list (MoveList Grant))
    (w : Z) (method : string) (channel : Channel) (c : Z) :
  (∀ dpa kl m ch rng, Forall well_shaped (CheckInterference dpa kl m ch rng).1.2) →
  method ∈ ["min"; "max"; "median"; "med"]%string →
  valid_chan ref_move_lists c →
  0 ≤ w →
  Z.max w 1 ≤ Z.of_nat (length ref_move_lists) →
  ∃ out,
    ExtensiveInterferenceCheck CheckInterference D L dpa rng uut_keep_list
                               ref_move_lists w method channel c = OK out
    ∧ Z.of_nat (length (checked (out_state out)))
      = Z.of_nat (length ref_move_lists) - Z.max w 1 + 1
    ∧ (∀ (k : nat) ml, checked (out_state out) !! k = Some ml →
         ml ∈ drop k ref_move_lists)
    ∧ last (checked (out_state out))
      = Some (move_lists (st_dpa (out_state out)))
    ∧ name (st_dpa (out_state out)) = name dpa
    ∧ margin_db (st_dpa (out_state out)) = margin_db dpa
    ∧ threshold (st_dpa (out_state out)) = threshold dpa.
Proof.
  intros Hshape Hm Hc Hw Hlen.
  assert (py_startswith method "int" = false) as Hint.
  { repeat (apply elem_of_cons in Hm as [->|Hm]); try done.
    by apply elem_of_nil in Hm. }
  destruct (extensive_check_ranked_loop dpa rng uut_keep_list ref_move_lists w
              method channel c Hshape Hm Hc Hw Hlen) as (out & Hout & _ & Hloop).
  exists out. split; [done|].
  destruct (check_loop_inv _ _ _ _ _ _ _ _ _ Hloop) as (mls & Hlog & Hall & _ & Hdpa).
  simpl in Hlog. subst mls.
  pose proof (Forall2_length _ _ _ Hall) as Hlen2.
  rewrite py_range_length in Hlen2.
  split; [lia|]. split.
  - intros k ml Hk.
    destruct (Forall2_lookup_r _ _ _ k ml Hall Hk) as (kz & Hkz & Hml).
    pose proof (lookup_lt_Some _ _ _ Hk) as Hklt.
    rewrite py_range_lookup in Hkz by lia. injection Hkz as <-.
    rewrite py_slice_from_drop in Hml.
    by eapply synthetic_picks_elem.
  - rewrite Hdpa. simpl.
    destruct (last (checked (out_state out))) as [ml|] eqn:Hlast; [done|].
    apply last_None in Hlast. rewrite Hlast in Hlen2. simpl in Hlen2. lia.
Qed.

(** X12. With a size-ranked method, a channel index every run has and a
    window [0 <= w] no longer than the list, the extensive check always
    returns (as long as the interference check yields arrays of matching
    shapes), after [n - max w 1 + 1] interference checks; the check of
    position [k] is made on the DPA carrying one of the reference runs from
    [k] on, and the successes, levels and random generator the function
    leaves are those of these checks made in order; the DPA is left holding
    the last move list checked, name, margin and threshold untouched. *)
Theorem extensive_check_ranked_returns (dpa : Dpa Grant MarginSpec) (rng : Rng)
    (uut_keep_list : gset Grant) (ref_move_lists : list (MoveList Grant))
    (w : Z) (method : string) (channel : Channel) (c : Z) :
  (∀ dpa kl m ch rng, Forall well_shaped (CheckInterference dpa kl m ch rng).1.2) →
  method ∈ ["min"; "max"; "median"; "med"]%string →
  valid_chan ref_move_lists c →
  0 ≤ w →
  Z.max w 1 ≤ Z.of_nat (length ref_move_lists) →
  ∃ out mls outcomes,
    ExtensiveInterferenceCheck CheckInterference D L dpa rng uut_keep_list
                               ref_move_lists w method channel c = OK out
    ∧ Z.of_nat (length mls) = Z.of_nat (length ref_move_lists) - Z.max w 1 + 1
    ∧ (∀ (k : nat) ml, mls !! k = Some ml → ml ∈ drop k ref_move_lists)
    ∧ spec_checks_on CheckInterference dpa uut_keep_list channel mls rng
      = (outcomes, st_rng (out_state out))
    ∧ out_num_success out = count_successes outcomes
    ∧ collect_levels (all_results outcomes) [] []
      = OK (out_ref_levels out, out_diff_levels out)
    ∧ last mls = Some (move_lists (st_dpa (out_state out)))
    ∧ name (st_dpa (out_state out)) = name dpa
    ∧ margin_db (st_dpa (out_state out)) = margin_db dpa
    ∧ threshold (st_dpa (out_state out)) = threshold dpa.
Proof.
  intros Hshape Hm Hc Hw Hlen.
  destruct (extensive_check_ranked_log dpa rng uut_keep_list ref_move_lists w
              method channel c Hshape Hm Hc Hw Hlen)
    as (out & Hout & Hcount & Hmem & Hlast & Hname & Hmargin & Hthreshold).
  destruct (extensive_check_calls CheckInterference D L _ _ _ _ _ _ _ _ _ Hout)
    as (outcomes & _ & _ & _ & Hcalls & Hsucc & Hlevels & _).
  exists out, (checked (out_state out)), outcomes. by repeat split.
Qed.

(** The re-test returns, and what it has logged. *)
Lemma retest_log (options : Options)
    (dpa : Dpa Grant MarginSpec) (rng : Rng) (uut_keep_list : gset Grant)
    (full_ref_move_list_runs : MoveList Grant) (channel : Channel) (c : Z) :
  (∀ dpa kl m ch rng, Forall well_shaped (CheckInterference dpa kl m ch rng).1.2) →
  0 ≤ c < Z.of_nat (length full_ref_move_list_runs) →
  ∃ out,
    ExtensiveInterferenceCheck CheckInterference D L dpa rng uut_keep_list
      (DpaAnalyzeLogs_retest_runs options full_ref_move_list_runs)
      1 "max" channel c = OK out
    ∧ out_num_check out = DpaAnalyzeLogs_retest_num_check options
    ∧ 10 ≤ out_num_check out
    ∧ checked (out_state out)
      = replicate (Z.to_nat (DpaAnalyzeLogs_retest_num_check options))
                  full_ref_move_list_runs.
Proof.
  intros Hshape Hc.
  set (n := DpaAnalyzeLogs_retest_num_check options).
  assert (10 ≤ n) as Hn by (unfold n, DpaAnalyzeLogs_retest_num_check; lia).
  assert (length (DpaAnalyzeLogs_retest_runs options full_ref_move_list_runs)
          = Z.to_nat n) as Hlen by apply length_replicate.
  destruct (extensive_check_ranked_loop dpa rng uut_keep_list
              (DpaAnalyzeLogs_retest_runs options full_ref_move_list_runs)
              1 "max" channel c Hshape) as (out & Hout & Hnum & Hloop).
  { right. left. }
  { split; [lia|]. apply Forall_replicate. lia. }
  { lia. }
  { rewrite Hlen. lia. }
  rewrite Hlen in Hnum, Hloop.
  exists out. split; [done|]. split; [lia|]. split; [lia|].
  destruct (check_loop_inv _ _ _ _ _ _ _ _ _ Hloop) as (mls & Hlog & Hall & _).
  simpl in Hlog. rewrite Hlog.
  pose proof (Forall2_length _ _ _ Hall) as Hlen2.
  rewrite py_range_length in Hlen2.
  apply list_eq_same_length with (Z.to_nat n);
    [rewrite ?length_replicate; lia..|].
  intros k ml ml' Hk Hml Hml'.
  apply lookup_replicate in Hml' as [-> _].
  destruct (Forall2_lookup_r _ _ _ k ml Hall Hml) as (kz & Hkz & Hsyn).
  pose proof (synthetic_picks_elem _ _ _ _ _ Hsyn eq_refl) as Hin.
  unfold py_slice_from, DpaAnalyzeLogs_retest_runs in Hin.
  destruct (kz <? 0); rewrite drop_replicate in Hin;
    by apply elem_of_replicate_inv in Hin.
Qed.

(** X13. The re-test of [DpaAnalyzeLogs] hands the extensive check
    [max 10 (num_base_ml // 2)] copies of one move list with window 1 and
    method 'max': whatever the options, the check then returns, having made
    that many interference checks (at least 10), every one on the DPA
    carrying that same move list: the successes, the levels and the random
    generator it leaves are those of these checks made in order. *)
Theorem retest_checks_same_move_list (options : Options)
    (dpa : Dpa Grant MarginSpec) (rng : Rng) (uut_keep_list : gset Grant)
    (full_ref_move_list_runs : MoveList Grant) (channel : Channel) (c : Z) :
  (∀ dpa kl m ch rng, Forall well_shaped (CheckInterference dpa kl m ch rng).1.2) →
  0 ≤ c < Z.of_nat (length full_ref_move_list_runs) →
  ∃ out outcomes,
    ExtensiveInterferenceCheck CheckInterference D L dpa rng uut_keep_list
      (DpaAnalyzeLogs_retest_runs options full_ref_move_list_runs)
      1 "max" channel c = OK out
    ∧ out_num_check out = DpaAnalyzeLogs_retest_num_check options
    ∧ 10 ≤ out_num_check out
    ∧ spec_checks_on CheckInterference dpa uut_keep_list channel
        (replicate (Z.to_nat (DpaAnalyzeLogs_retest_num_check options))
                   full_ref_move_list_runs) rng
      = (outcomes, st_rng (out_state out))
    ∧ Z.of_nat (length outcomes) = DpaAnalyzeLogs_retest_num_check options
    ∧ out_num_success out = count_successes outcomes
    ∧ collect_levels (all_results outcomes) [] []
      = OK (out_ref_levels out, out_diff_levels out).
Proof.
  intros Hshape Hc.
  destruct (retest_log options dpa rng uut_keep_list full_ref_move_list_runs
              channel c Hshape Hc) as (out & Hout & Hnum & Hten & Hlog).
  destruct (extensive_check_calls CheckInterference D L _ _ _ _ _ _ _ _ _ Hout)
    as (outcomes & _ & _ & _ & Hcalls & Hsucc & Hlevels & _).
  rewrite Hlog in Hcalls.
  exists out, outcomes. do 3 (split; [done|]). split; [done|].
  split; [|done].
  pose proof (spec_checks_on_length CheckInterference dpa uut_keep_list channel
                (replicate (Z.to_nat (DpaAnalyzeLogs_retest_num_check options))
                           full_ref_move_list_runs) rng) as Hlen.
  rewrite Hcalls, length_replicate in Hlen. simpl in Hlen. lia.
Qed.

End extensive_extras.

(** ** DpaSimulate: the runs kept and the checks made on them *)

Lemma take_prefix_le {A : Type} (l : list A) (a b : nat) :
  (a ≤ b)%nat → take a l `prefix_of` take b l.
Proof.
  intros Hab. replace a with (a `min` b)%nat by lia.
  rewrite <- take_take. apply prefix_take.
Qed.

Section simulate_facts.
Context `{Countable Grant} {Channel MarginSpec Rng : Type}.
Variables ComputeMoveLists ComputeMoveListsUut : Rng → MoveList Grant * Rng.

Lemma compute_runs_length (compute : Rng → MoveList Grant * Rng) (n : nat) (rng : Rng) :
  length (compute_runs compute n rng).1 = n.
Proof.
  revert rng. induction n as [|n IH]; intros rng; simpl; [done|].
  destruct (compute rng) as [ml rng1]. specialize (IH rng1).
  destruct (compute_runs compute n rng1) as [runs rng2]. simpl in *. by rewrite IH.
Qed.

Lemma compute_runs_Forall (P : MoveList Grant → Prop)
    (compute : Rng → MoveList Grant * Rng) (n : nat) (rng : Rng) :
  (∀ r, P (compute r).1) → Forall P (compute_runs compute n rng).1.
Proof.
  intros HP. revert rng. induction n as [|n IH]; intros rng; simpl; [constructor|].
  pose proof (HP rng) as Hml. destruct (compute rng) as [ml rng1].
  specialize (IH rng1). destruct (compute_runs compute n rng1) as [runs rng2].
  simpl in *. by constructor.
Qed.

(** The reference runs kept are the first [num_ref_ml] of the runs computed,
    of which there are enough. *)
Lemma DpaSimulate_runs_ref (options : Options) (rng : Rng) :
  0 ≤ py_or (opt_ref_ml_num options) (opt_num_ml options) →
  ∃ base : nat,
    (Z.to_nat (py_or (opt_ref_ml_num options) (opt_num_ml options)) ≤ base)%nat
    ∧ (DpaSimulate_runs ComputeMoveLists ComputeMoveListsUut options rng).1
      = take (Z.to_nat (py_or (opt_ref_ml_num options) (opt_num_ml options)))
             (compute_runs ComputeMoveLists base rng).1
    ∧ (effective_builder_uut options = EmptyString →
       0 ≤ py_or (opt_uut_ml_num options) (opt_num_ml options) →
       (Z.to_nat (py_or (opt_uut_ml_num options) (opt_num_ml options)) ≤ base)%nat
       ∧ (DpaSimulate_runs ComputeMoveLists ComputeMoveListsUut options rng).2
         = take (Z.to_nat (py_or (opt_uut_ml_num options) (opt_num_ml options)))
                (compute_runs ComputeMoveLists base rng).1)
    ∧ (effective_builder_uut options ≠ EmptyString →
       ∃ rng1,
         (DpaSimulate_runs ComputeMoveLists ComputeMoveListsUut options rng).2
         = (compute_runs ComputeMoveListsUut
              (Z.to_nat (py_or (opt_uut_ml_num options) (opt_num_ml options)))
              rng1).1).
Proof.
  intros Href. unfold DpaSimulate_runs, DpaSimulate_run_counts.
  set (num_ref_ml := py_or (opt_ref_ml_num options) (opt_num_ml options)) in *.
  set (num_uut_ml := py_or (opt_uut_ml_num options) (opt_num_ml options)).
  set (num_base_ml :=
         if opt_do_extensive options
         then Z.max (if negb (String.eqb (effective_builder_uut options) EmptyString)
                     then num_ref_ml else Z.max num_ref_ml num_uut_ml)
                    (opt_num_ml options)
         else (if negb (String.eqb (effective_builder_uut options) EmptyString)
               then num_ref_ml else Z.max num_ref_ml num_uut_ml)).
  exists (Z.to_nat num_base_ml).
  destruct (compute_runs ComputeMoveLists (Z.to_nat num_base_ml) rng)
    as [runs rng1] eqn:Hruns.
  simpl.
  assert (num_ref_ml ≤ num_base_ml) as Hbase.
  { unfold num_base_ml.
    destruct (opt_do_extensive options), (negb _); lia. }
  split; [lia|]. split; [by apply py_slice_to_take|]. split.
  - intros Hb Huut. rewrite Hb. simpl.
    split; [|by apply py_slice_to_take].
    unfold num_base_ml. rewrite Hb. simpl.
    destruct (opt_do_extensive options); lia.
  - intros Hb. apply String.eqb_neq in Hb. rewrite Hb. simpl. by exists rng1.
Qed.

(** X14. With option values that are not negative, [DpaSimulate] keeps
    exactly [ref_ml_num or num_ml] reference runs and [uut_ml_num or num_ml]
    UUT runs; the window of either synthesis is then the whole of the list it
    is given; and a UUT without a builder of its own shares its runs with the
    reference: the shorter of the two lists is a prefix of the longer. *)
Theorem DpaSimulate_runs_kept (options : Options) (rng : Rng) :
  0 ≤ opt_ref_ml_num options →
  0 ≤ opt_uut_ml_num options →
  0 ≤ opt_num_ml options →
  let runs := DpaSimulate_runs ComputeMoveLists ComputeMoveListsUut options rng in
  Z.of_nat (length runs.1) = py_or (opt_ref_ml_num options) (opt_num_ml options)
  ∧ Z.of_nat (length runs.2) = py_or (opt_uut_ml_num options) (opt_num_ml options)
  ∧ effective_num runs.1 (opt_ref_ml_num options) = Z.of_nat (length runs.1)
  ∧ effective_num runs.2 (opt_uut_ml_num options) = Z.of_nat (length runs.2)
  ∧ (effective_builder_uut options = EmptyString →
     runs.1 `prefix_of` runs.2 ∨ runs.2 `prefix_of` runs.1).
Proof.
  intros Href Huut Hnum runs.
  assert (0 ≤ py_or (opt_ref_ml_num options) (opt_num_ml options)) as Href'.
  { unfold py_or. destruct (Z.eqb_spec (opt_ref_ml_num options) 0); lia. }
  assert (0 ≤ py_or (opt_uut_ml_num options) (opt_num_ml options)) as Huut'.
  { unfold py_or. destruct (Z.eqb_spec (opt_uut_ml_num options) 0); lia. }
  destruct (DpaSimulate_runs_ref options rng Href')
    as (base & Hbase & Hrefs & Hshared & Hown).
  fold runs in Hrefs, Hshared, Hown.
  assert (Z.of_nat (length runs.1)
          = py_or (opt_ref_ml_num options) (opt_num_ml options)) as Hlen1.
  { rewrite Hrefs, length_take_le by (rewrite compute_runs_length; lia). lia. }
  assert (Z.of_nat (length runs.2)
          = py_or (opt_uut_ml_num options) (opt_num_ml options)) as Hlen2.
  { destruct (decide (effective_builder_uut options = EmptyString)) as [Hb|Hb].
    - destruct (Hshared Hb Huut') as [Hle ->].
      rewrite length_take_le by (rewrite compute_runs_length; lia). lia.
    - destruct (Hown Hb) as [rng1 ->]. rewrite compute_runs_length. lia. }
  split; [done|]. split; [done|]. split; [|split].
  - unfold effective_num. rewrite Hlen1. unfold py_or.
    by destruct (Z.eqb_spec (opt_ref_ml_num options) 0).
  - unfold effective_num. rewrite Hlen2. unfold py_or.
    by destruct (Z.eqb_spec (opt_uut_ml_num options) 0).
  - intros Hb. destruct (Hshared Hb Huut') as [_ Huuts]. rewrite Hrefs, Huuts.
    destruct (Nat.le_ge_cases
                (Z.to_nat (py_or (opt_ref_ml_num options) (opt_num_ml options)))
                (Z.to_nat (py_or (opt_uut_ml_num options) (opt_num_ml options))));
      [left|right]; by apply take_prefix_le.
Qed.

Variable CheckInterference :
  Dpa Grant MarginSpec → gset Grant → MarginSpec → Channel → Rng
  → bool * list PtResult * Rng.
Variables D L : R → R.

(** X15. The extensive check at the end of [DpaSimulate], on the reference
    runs kept and with the window [ref_ml_num] (a size-ranked method, a
    channel every computed move list has): it returns, and makes [num_ml]
    interference checks when [ref_ml_num] is 0 but a single one when it is
    not, however many runs [num_ml] asks for. *)
Theorem DpaSimulate_extensive_checks (options : Options) (rng rng' : Rng)
    (dpa : Dpa Grant MarginSpec) (uut_keep_list : gset Grant)
    (method : string) (channel : Channel) (c : Z) :
  (∀ dpa kl m ch rng, Forall well_shaped (CheckInterference dpa kl m ch rng).1.2) →
  method ∈ ["min"; "max"; "median"; "med"]%string →
  (∀ r, 0 ≤ c < Z.of_nat (length (ComputeMoveLists r).1)) →
  0 ≤ opt_ref_ml_num options →
  1 ≤ py_or (opt_ref_ml_num options) (opt_num_ml options) →
  ∃ out,
    ExtensiveInterferenceCheck CheckInterference D L dpa rng' uut_keep_list
      (DpaSimulate_runs ComputeMoveLists ComputeMoveListsUut options rng).1
      (opt_ref_ml_num options) method channel c = OK out
    ∧ out_num_check out
      = (if opt_ref_ml_num options =? 0 then opt_num_ml options else 1)
    ∧ Z.of_nat (length (checked (out_state out))) = out_num_check out.
Proof.
  intros Hshape Hm Hc Hw Href.
  destruct (DpaSimulate_runs_ref options rng) as (base & Hbase & Hrefs & _); [lia|].
  set (refs := (DpaSimulate_runs ComputeMoveLists ComputeMoveListsUut options rng).1)
    in *.
  assert (Z.of_nat (length refs)
          = py_or (opt_ref_ml_num options) (opt_num_ml options)) as Hlen.
  { rewrite Hrefs, length_take_le by (rewrite compute_runs_length; lia). lia. }
  assert (Z.of_nat (length refs) - Z.max (opt_ref_ml_num options) 1 + 1
          = if opt_ref_ml_num options =? 0 then opt_num_ml options else 1) as Hcount.
  { rewrite Hlen. unfold py_or in *.
    destruct (Z.eqb_spec (opt_ref_ml_num options) 0); lia. }
  destruct (extensive_check_ranked_loop CheckInterference D L dpa rng'
              uut_keep_list refs (opt_ref_ml_num options) method channel c
              Hshape Hm) as (out & Hout & Hnum & Hloop).
  { split; [specialize (Hc rng); lia|]. rewrite Hrefs. apply Forall_take.
    apply (compute_runs_Forall (λ ml, c < Z.of_nat (length ml))).
    intros r. specialize (Hc r). lia. }
  { done. }
  { rewrite Hlen. unfold py_or in *.
    destruct (Z.eqb_spec (opt_ref_ml_num options) 0); lia. }
  exists out. split; [done|]. split; [by rewrite Hnum|].
  destruct (check_loop_inv _ _ _ _ _ _ _ _ _ _ Hloop) as (mls & Hlog & Hall & _).
  simpl in Hlog. rewrite Hlog.
  pose proof (Forall2_length _ _ _ Hall) as Hlen2.
  rewrite py_range_length in Hlen2. rewrite Hnum.
  unfold py_or in *. destruct (Z.eqb_spec (opt_ref_ml_num options) 0); lia.
Qed.

End simulate_facts.

(** ** database.py: what is served after the mappings are set *)

(** X16. After [setFileToServe(file_url, file_path)] an authorized request
    is given [file_path] for [file_url] and the empty path for any other URL
    path: whatever was mapped before is no longer served, and nothing is sent
    to the client.  Likewise after [setFilesToServe(dict)]: the paths of
    [dict], and no other. *)
Theorem setFileToServe_replaces_mappings (server : Database.Server)
    (headers : Database.Headers) (file_url file_path path : string)
    (file_url_file_path_dict : gmap string string) :
  Database.authorized server headers →
  Database.translate_path (DatabaseServer.setFileToServe server file_url file_path)
                          headers path
  = (OK (if decide (path = file_url) then file_path else EmptyString), [])
  ∧ Database.translate_path
      (DatabaseServer.setFilesToServe server file_url_file_path_dict) headers path
    = (OK (default EmptyString (file_url_file_path_dict !! path)), []).
Proof.
  intros Hauth.
  assert (Database.file_paths
            (DatabaseServer.setFileToServe server file_url file_path) !! path
          = if decide (path = file_url) then Some file_path else None) as Hlook.
  { unfold DatabaseServer.setFileToServe. simpl.
    destruct (decide (path = file_url)) as [->|Hne].
    - apply lookup_singleton_eq.
    - by apply lookup_singleton_ne. }
  unfold Database.translate_path. rewrite Hlook.
  change (Database.authorization
            (DatabaseServer.setFileToServe server file_url file_path))
    with (Database.authorization server).
  change (Database.authorization
            (DatabaseServer.setFilesToServe server file_url_file_path_dict))
    with (Database.authorization server).
  change (Database.file_paths
            (DatabaseServer.setFilesToServe server file_url_file_path_dict))
    with file_url_file_path_dict.
  destruct Hauth as [->|Hheader].
  - split; [by destruct (decide (path = file_url))|].
    by destruct (file_url_file_path_dict !! path).
  - rewrite Hheader, String.eqb_refl. simpl.
    destruct (Database.authorization server);
      (split; [by destruct (decide (path = file_url))|
               by destruct (file_url_file_path_dict !! path)]).
Qed.

(** X17. A server on which no file has been set serves nothing: an
    authorized request is given the empty path, with nothing sent to the
    client, and no request whatever is given a path that is not empty. *)
Theorem new_server_serves_nothing (authorization : bool)
    (headers : Database.Headers) (path : string) :
  (Database.authorized (DatabaseServer.new_server authorization) headers →
   Database.translate_path (DatabaseServer.new_server authorization) headers path
   = (OK EmptyString, []))
  ∧ (∀ p, (Database.translate_path (DatabaseServer.new_server authorization)
                                   headers path).1 = OK p →
          p = EmptyString).
Proof.
  unfold Database.translate_path, Database.authorized, DatabaseServer.new_server.
  simpl. rewrite lookup_empty. split.
  - intros [->|Hheader]; [done|].
    rewrite Hheader, String.eqb_refl. simpl. by destruct authorization.
  - intros p. destruct authorization; [|by intros [= <-]].
    destruct (Database.header_get headers "Authorization") as [auth|]; [|done].
    destruct (negb _); [done|]. by intros [= <-].
Qed.

(** ** FindOrBuildDpa *)

Section find_dpa_facts.
Context {Geometry Points Grant : Type}.
Variable BuildDpa : string → option string → result (ConfigDpa Geometry Points).
Variable CountInside : ConfigDpa Geometry Points → list Grant → result Z.
Variable CoastalZone : string → option Geometry.
Variable PortalZone : option string → string → result Geometry.
Variable DpaProtectionPoints : string → Geometry → string → result Points.
Variable py_float : string → option R.

Local Abbreviation same_name d wanted :=
  (Database.lower (cd_name d) = Database.lower wanted).

Lemma find_by_name_spec (dpas : list (ConfigDpa Geometry Points)) (wanted : string) :
  match find_by_name dpas wanted with
  | Some d =>
      ∃ i : nat, dpas !! i = Some d ∧ same_name d wanted
                 ∧ ∀ (j : nat) dj, (j < i)%nat → dpas !! j = Some dj →
                                   ¬ same_name dj wanted
  | None => ∀ d, d ∈ dpas → ¬ same_name d wanted
  end.
Proof.
  induction dpas as [|d0 dpas IH]; simpl.
  { intros d Hd. by apply elem_of_nil in Hd. }
  destruct (String.eqb_spec (Database.lower (cd_name d0)) (Database.lower wanted))
    as [Heq|Hne].
  - exists 0%nat. split; [done|]. split; [done|]. intros j dj Hj. lia.
  - destruct (find_by_name dpas wanted) as [d|].
    + destruct IH as (i & Hi & Hname & Hfirst). exists (S i).
      split; [done|]. split; [done|].
      intros [|j] dj Hj Hdj; simpl in Hdj; [by injection Hdj as <-|].
      apply (Hfirst j); [lia|done].
    + intros d Hd. apply elem_of_cons in Hd as [->|Hd]; [done|by apply IH].
Qed.


(** What the second half of the function returns. *)
Lemma complete_dpa_inv (options : Options) (dpa r : ConfigDpa Geometry Points)
    (dpa_kml_file : option (option string)) :
  complete_dpa CoastalZone PortalZone DpaProtectionPoints py_float
               options dpa dpa_kml_file = OK r →
  cd_name r = cd_name dpa
  ∧ is_Some (cd_geometry r)
  ∧ (∀ g, cd_geometry dpa = Some g → cd_geometry r = Some g)
  ∧ cd_margin_db r
    = Some (if String.eqb (opt_margin_db options) EmptyString
            then default (MarginText "linear(1.5)") (cd_margin_db dpa)
            else match py_float (opt_margin_db options) with
                 | Some x => MarginFloat x
                 | None => MarginText (opt_margin_db options)
                 end)
  ∧ (opt_dpa_builder options = EmptyString →
     cd_protected_points r = cd_protected_points dpa)
  ∧ (cd_geometry dpa = None → CoastalZone (cd_name dpa) = None →
     is_Some dpa_kml_file).
Proof.
  unfold complete_dpa. intros Hr.
  destruct (match cd_geometry dpa with
            | Some g => OK g
            | None => _
            end) as [geometry|] eqn:Hgeo; [|done].
  rewrite rbind_OK in Hr.
  destruct (if negb (String.eqb (opt_dpa_builder options) EmptyString)
            then _ else _) as [points|] eqn:Hpoints; [|done].
  rewrite rbind_OK in Hr. injection Hr as <-. simpl.
  split; [done|]. split; [done|]. split; [|split; [|split]].
  - intros g Hg. rewrite Hg in Hgeo. by injection Hgeo as <-.
  - f_equal. destruct (String.eqb (opt_margin_db options) EmptyString); simpl;
      [by destruct (cd_margin_db dpa)|done].
  - intros Hb. rewrite Hb in Hpoints. simpl in Hpoints. by injection Hpoints as <-.
  - intros Hnone Hcoast. rewrite Hnone, Hcoast in Hgeo.
    destruct dpa_kml_file; [done|]. by simpl in Hgeo.
Qed.

(** The DPA the first half takes is one of the configuration, or the one
    built under [--dpa]. *)
Lemma select_dpa_inv (dpas : list (ConfigDpa Geometry Points)) (options : Options)
    (grants : list Grant) (d : ConfigDpa Geometry Points)
    (kml : option (option string)) :
  select_dpa BuildDpa CountInside dpas options grants = OK (d, kml) →
  (opt_dpa options = EmptyString ∧ kml = None ∧ d ∈ dpas)
  ∨ (opt_dpa options ≠ EmptyString ∧ is_Some kml
     ∧ (d ∈ dpas ∨ ∃ file, BuildDpa (opt_dpa options) file = OK d)).
Proof.
  unfold select_dpa.
  destruct (String.eqb_spec (opt_dpa options) EmptyString) as [Hopt|Hopt]; simpl.
  - intros Hsel. left. split; [done|].
    destruct dpas as [|d0 [|d1 rest]]; [done|..].
    + injection Hsel as <- <-. split; [done|by left].
    + destruct (rmap _ _) as [counts|]; [|done]. rewrite rbind_OK in Hsel.
      destruct (np_argmax counts) as [idx|]; [|done]. rewrite rbind_OK in Hsel.
      destruct (py_getitem (d0 :: d1 :: rest) idx) as [d'|] eqn:Hget; [|done].
      rewrite rbind_OK in Hsel. injection Hsel as <- <-.
      split; [done|]. by eapply py_getitem_elem.
  - intros Hsel. right. split; [done|].
    pose proof (find_by_name_spec dpas (opt_dpa options)) as Hfind.
    destruct (find_by_name dpas (opt_dpa options)) as [d'|].
    + injection Hsel as <- <-. split; [done|]. left.
      destruct Hfind as (i & Hi & _). by eapply list_elem_of_lookup_2.
    + destruct (BuildDpa _ _) as [d'|] eqn:Hbuild; [|done].
      rewrite rbind_OK in Hsel. injection Hsel as <- <-.
      split; [done|]. right. by eexists.
Qed.

(** X19. Whenever [FindOrBuildDpa] returns a DPA, the DPA has a geometry
    and a margin: the margin is the [--margin_db] option when there is one (a
    number when the text reads as one, else the text as it is), otherwise the
    margin of the DPA taken, 'linear(1.5)' when it had none; and the DPA is
    one of the configuration, or the one the builder made under [--dpa],
    with its name, with its geometry when it had one, and with its protected
    points unless a builder of points is asked for. *)
Theorem find_dpa_result_is_complete (dpas : list (ConfigDpa Geometry Points))
    (options : Options) (grants : list Grant) (r : ConfigDpa Geometry Points) :
  FindOrBuildDpa BuildDpa CountInside CoastalZone PortalZone
                 DpaProtectionPoints py_float dpas options grants = OK r →
  ∃ d,
    (d ∈ dpas
     ∨ (opt_dpa options ≠ EmptyString
        ∧ ∃ file, BuildDpa (opt_dpa options) file = OK d))
    ∧ cd_name r = cd_name d
    ∧ is_Some (cd_geometry r)
    ∧ (∀ g, cd_geometry d = Some g → cd_geometry r = Some g)
    ∧ cd_margin_db r
      = Some (if String.eqb (opt_margin_db options) EmptyString
              then default (MarginText "linear(1.5)") (cd_margin_db d)
              else match py_float (opt_margin_db options) with
                   | Some x => MarginFloat x
                   | None => MarginText (opt_margin_db options)
                   end)
    ∧ (opt_dpa_builder options = EmptyString →
       cd_protected_points r = cd_protected_points d).
Proof.
  unfold FindOrBuildDpa. intros Hr.
  destruct (select_dpa _ _ _ _ _) as [[d kml]|] eqn:Hsel; [|done].
  rewrite rbind_OK in Hr. simpl in Hr.
  destruct (complete_dpa_inv _ _ _ _ Hr) as (Hname & Hgeo & Hgeo' & Hmargin & Hpts & _).
  exists d. split.
  { destruct (select_dpa_inv _ _ _ _ _ Hsel) as [(_ & _ & Hin)|(Hopt & _ & [Hin|Hb])];
      [by left|by left|by right]. }
  done.
Qed.

(** X20. Without [--dpa]: an empty configuration makes the function raise
    [ValueError]; and a configuration with one DPA that has no geometry and
    is not a coastal zone makes it raise [UnboundLocalError], whatever
    [--dpa_kml] says, for the KML file name is a local variable assigned
    under [--dpa] only. *)
Theorem find_dpa_without_option_failures (options : Options) (grants : list Grant) :
  opt_dpa options = EmptyString →
  FindOrBuildDpa BuildDpa CountInside CoastalZone PortalZone
                 DpaProtectionPoints py_float [] options grants
  = Raise ValueError
  ∧ ∀ d, cd_geometry d = None →
         CoastalZone (cd_name d) = None →
         FindOrBuildDpa BuildDpa CountInside CoastalZone PortalZone
                        DpaProtectionPoints py_float [d] options grants
         = Raise UnboundLocalError.
Proof.
  intros Hopt. unfold FindOrBuildDpa, select_dpa. rewrite Hopt. simpl.
  split; [done|]. intros d Hgeo Hcoast.
  unfold complete_dpa. simpl. by rewrite Hgeo, Hcoast.
Qed.

(** X21. Without [--dpa] and with several DPAs in the configuration, the
    DPA taken is the first of those with the largest number of grants
    nearby. *)
Theorem find_dpa_most_grants_nearby (dpas : list (ConfigDpa Geometry Points))
    (options : Options) (grants : list Grant) (counts : list Z) :
  opt_dpa options = EmptyString →
  (2 ≤ length dpas)%nat →
  Forall2 (λ d n, CountInside d grants = OK n) dpas counts →
  ∃ (i : nat) d n,
    dpas !! i = Some d
    ∧ first_max_at counts i n
    ∧ FindOrBuildDpa BuildDpa CountInside CoastalZone PortalZone
                     DpaProtectionPoints py_float dpas options grants
      = complete_dpa CoastalZone PortalZone DpaProtectionPoints py_float
                     options d None.
Proof.
  intros Hopt Hlen Hcounts. unfold FindOrBuildDpa, select_dpa. rewrite Hopt. simpl.
  assert (rmap (λ d, CountInside d grants) dpas = OK counts) as Hrmap.
  { clear Hlen. induction Hcounts as [|d n dpas counts Hd _ IH]; simpl; [done|].
    by rewrite Hd, rbind_OK, IH, rbind_OK. }
  pose proof (Forall2_length _ _ _ Hcounts) as Hlen'.
  destruct (np_argmax_spec counts) as (i & n & Hi & Hat & Hle & Hlt).
  { intros ->. simpl in Hlen'. lia. }
  destruct (dpas !! i) as [d|] eqn:Hd.
  2:{ apply lookup_ge_None in Hd. apply lookup_lt_Some in Hat. lia. }
  exists i, d, n. split; [done|]. split; [by repeat split|].
  destruct dpas as [|d0 [|d1 rest]]; [simpl in Hlen; lia..|].
  rewrite Hrmap, rbind_OK, Hi, rbind_OK, (py_getitem_lookup _ _ _ Hd).
  by rewrite !rbind_OK.
Qed.

End find_dpa_facts.

(** ** ScatterAnalyze: the percentages *)

Lemma filter_length_mono {A : Type} (P Q : A → Prop)
    `{∀ x, Decision (P x)} `{∀ x, Decision (Q x)} (l : list A) :
  (∀ x, P x → Q x) → (length (filter P l) ≤ length (filter Q l))%nat.
Proof.
  intros HPQ. induction l as [|x l IH]; [done|].
  rewrite !filter_cons.
  destruct (decide (P x)) as [HP|HP], (decide (Q x)) as [HQ|HQ]; simpl; try lia.
  exfalso. by apply HQ, HPQ.
Qed.

Lemma np_count_below_mono (a : list R) (c c' : R) :
  (c <= c')%R → np_count_below a c ≤ np_count_below a c'.
Proof.
  intros Hc. unfold np_count_below. apply inj_le.
  apply filter_length_mono. intros x Hx. lra.
Qed.

Lemma np_count_below_bounds (a : list R) (c : R) :
  0 ≤ np_count_below a c ≤ Z.of_nat (length a).
Proof.
  unfold np_count_below. pose proof (length_filter (λ x, (x < c)%R) a). lia.
Qed.

Lemma probe_margins_sorted (i j : nat) (p q : R) :
  (i ≤ j)%nat → probe_margins !! i = Some p → probe_margins !! j = Some q →
  (p <= q)%R.
Proof.
  intros Hij Hi Hj. unfold probe_margins in *.
  do 5 (destruct i as [|i]; [
    do 5 (destruct j as [|j]; [simpl in *; simplify_eq; (lra || lia)|]);
    by simpl in Hj |]).
  by simpl in Hi.
Qed.

Section scatter_extras.
Variables D L : R → R.

(** X22. On as many levels as deltas, at least one, the statistics stage
    returns its report, with one percentage for each of the five probe
    margins, each between 0 and 100; and when the conversion to linear power
    does not decrease, the percentages do not decrease from one probe margin
    to the next. *)
Theorem scatter_percentages (refs diffs : list R) (threshold_db : R) :
  refs ≠ [] →
  length refs = length diffs →
  ∃ rep,
    ScatterAnalyze D L refs diffs threshold_db = OK (Some rep)
    ∧ length (pct_below rep) = length probe_margins
    ∧ Forall (λ p, (0 <= p <= 100)%R) (pct_below rep)
    ∧ ((∀ x y, (x <= y)%R → (D x <= D y)%R) →
       ∀ (i j : nat) p q, (i ≤ j)%nat →
         pct_below rep !! i = Some p → pct_below rep !! j = Some q → (p <= q)%R).
Proof.
  intros Hne Hlen. unfold ScatterAnalyze.
  destruct refs as [|r0 rs] eqn:Hrefs; [done|]. rewrite <- Hrefs in *. clear Hne.
  assert (1 ≤ length refs)%nat as Hpos by (rewrite Hrefs; simpl; lia).
  clear Hrefs.
  rewrite np_binop_same_length by done. rewrite rbind_OK.
  rewrite np_binop_same_length
    by (rewrite !length_map, length_zip_with; lia).
  rewrite rbind_OK.
  set (diff_mw := zip_with Rminus (map D (zip_with Rplus refs diffs)) (map D refs)).
  assert (length diff_mw = length refs) as Hdiff.
  { unfold diff_mw. rewrite length_zip_with, !length_map, length_zip_with. lia. }
  destruct (np_max_spec diff_mw) as (m & -> & _).
  { intros Hnil. rewrite Hnil in Hdiff. simpl in Hdiff. lia. }
  rewrite rbind_OK. eexists. split; [done|]. cbn [pct_below].
  set (pct := λ probe : R,
         (IZR (np_count_below diff_mw
                 (D (threshold_db + probe) - D threshold_db))
          / INR (length diff_mw) * 100)%R).
  assert (0 < INR (length diff_mw))%R as Hn.
  { apply lt_0_INR. lia. }
  split; [by rewrite length_map|]. split.
  - apply Forall_map, Forall_forall. intros probe _. unfold pct.
    pose proof (np_count_below_bounds diff_mw
                  (D (threshold_db + probe) - D threshold_db)) as [Hlo Hhi].
    apply IZR_le in Hlo, Hhi. rewrite <- INR_IZR_INZ in Hhi.
    set (k := IZR (np_count_below diff_mw
                     (D (threshold_db + probe) - D threshold_db))) in *.
    assert (0 <= k / INR (length diff_mw) <= 1)%R as [H0 H1].
    { split.
      - apply Rmult_le_reg_r with (INR (length diff_mw)); [done|].
        replace (k / INR (length diff_mw) * INR (length diff_mw))%R with k
          by (field; lra).
        lra.
      - apply Rmult_le_reg_r with (INR (length diff_mw)); [done|].
        replace (k / INR (length diff_mw) * INR (length diff_mw))%R with k
          by (field; lra).
        lra. }
    lra.
  - intros Hmono i j p q Hij Hp Hq.
    rewrite list_lookup_fmap in Hp, Hq.
    destruct (probe_margins !! i) as [a|] eqn:Ha; [|done].
    destruct (probe_margins !! j) as [b|] eqn:Hb; [|done].
    injection Hp as <-. injection Hq as <-.
    pose proof (probe_margins_sorted i j a b Hij Ha Hb) as Hab.
    unfold pct. apply Rmult_le_compat_r; [lra|].
    apply Rmult_le_compat_r; [left; by apply Rinv_0_lt_compat|].
    apply IZR_le, np_count_below_mono.
    assert (D (threshold_db + a) <= D (threshold_db + b))%R by (apply Hmono; lra).
    lra.
Qed.

End scatter_extras.

(** * Worked instances of the further properties *)


(** 'median' is 'med'. *)
Lemma synthetic_prefix_scenario1 :
  SyntheticMoveList scenario1 "median" 5 0 = SyntheticMoveList scenario1 "med" 5 0.
Proof.
  apply (synthetic_prefix_dispatch scenario1 "median" "med" 5 0); [by left|done].
Defined.

(** A window of 7 on the five runs of scenario 1. *)
Lemma synthetic_saturates_scenario1 :
  SyntheticMoveList scenario1 "max" 7 0 = SyntheticMoveList scenario1 "max" 0 0.
Proof.
  apply (synthetic_ranked_window_saturates scenario1 "max" 7 0); [done|simpl; lia].
Defined.

(** The intersection of 6 runs out of five. *)
Lemma synthetic_intersection_too_large_scenario1 :
  SyntheticMoveList scenario1 "inter" 6 0 = Raise IndexError.
Proof.
  apply (synthetic_intersection_window_too_large scenario1 "inter" 6 0);
    [by right|done|exact scenario1_valid_chan|simpl; lia].
Defined.

(** The smallest run of scenario 1 is one of its runs. *)
Lemma synthetic_member_scenario1 :
  ∃ i : nat, (i < length scenario1)%nat
             ∧ scenario1 !! i = Some [ ({[1%nat; 2%nat]} : gset nat) ].
Proof.
  apply (synthetic_selects_member scenario1 "min" 5 0); by vm_compute.
Defined.

(** Scenario 1: the intersection against the smallest run. *)
Lemma synthetic_within_min_scenario1 :
  ∃ r_int r_min : MoveList nat,
    SyntheticMoveList scenario1 "inter" 5 0 = OK r_int
    ∧ SyntheticMoveList scenario1 "min" 5 0 = OK r_min
    ∧ chan_set r_int 0 ⊆ chan_set r_min 0
    ∧ size_at 0 r_int ≤ size_at 0 r_min.
Proof.
  apply (synthetic_intersection_within_min scenario1 1 0 5 scenario1_run_collection);
    simpl; lia.
Defined.

(** Scenario 1: the intersection of two runs against that of the five. *)
Lemma synthetic_antitone_scenario1 :
  ∃ r r' : MoveList nat,
    SyntheticMoveList scenario1 "inter" 2 0 = OK r
    ∧ SyntheticMoveList scenario1 "inter" 5 0 = OK r'
    ∧ length r = length r'
    ∧ ∀ (ch : nat) s s', r !! ch = Some s → r' !! ch = Some s' → s' ⊆ s.
Proof.
  apply (synthetic_intersection_antitone scenario1 1 0 2 5 scenario1_run_collection);
    simpl; lia.
Defined.

(** Three channels, the last two with three neighbors each. *)
Lemma most_used_channel_example :
  ∃ (i : nat) (channel : nat),
    GetMostUsedChannel example_channels example_neighbors = OK (channel, Z.of_nat i)
    ∧ example_channels !! i = Some channel
    ∧ (∀ (j : nat) chj, example_channels !! j = Some chj →
         (size (example_neighbors chj) ≤ size (example_neighbors channel))%nat)
    ∧ (∀ (j : nat) chj, (j < i)%nat → example_channels !! j = Some chj →
         (size (example_neighbors chj) < size (example_neighbors channel))%nat).
Proof.
  by apply (proj2 (most_used_channel_first_largest example_channels example_neighbors)).
Defined.

Lemma scenario3_valid_chan : valid_chan scenario3_runs 0.
Proof. split; [lia|]. repeat constructor; simpl; lia. Defined.

Lemma scenario3_check_well_shaped (dpa : Dpa nat unit) (kl : gset nat) (m ch rng : unit) :
  Forall well_shaped (scenario3_check dpa kl m ch rng).1.2.
Proof. by repeat constructor. Defined.

(** Scenario 3: what the check that returned has done. *)
Lemma extensive_check_inv_scenario3 :
  ∃ out,
    ExtensiveInterferenceCheck scenario3_check Db2Lin Lin2Db scenario3_dpa tt ∅
                               scenario3_runs 3 "max" tt 0 = OK out
    ∧ out_num_check out = 8
    ∧ Z.of_nat (length (checked (out_state out))) = 8
    ∧ 0 ≤ out_num_success out ≤ 8.
Proof.
  destruct (extensive_check_ranked_loop scenario3_check Db2Lin Lin2Db scenario3_dpa
              tt ∅ scenario3_runs 3 "max" tt 0 scenario3_check_well_shaped)
    as (out & Hout & _); [by right; left|exact scenario3_valid_chan|lia|simpl; lia|].
  destruct (extensive_check_returns_inv scenario3_check Db2Lin Lin2Db scenario3_dpa
              tt ∅ scenario3_runs 3 "max" tt 0 out Hout)
    as (_ & Hnum & _ & Hlen & _ & _ & Hsucc & _).
  simpl in Hnum. exists out. split; [exact Hout|]. split; [exact Hnum|].
  rewrite Hnum in Hlen. simpl in Hlen. split; [exact Hlen|]. lia.
Defined.

(** Scenario 3 with a window of eleven runs out of ten. *)
Lemma extensive_check_window_beyond_scenario3 :
  ExtensiveInterferenceCheck scenario3_check Db2Lin Lin2Db scenario3_dpa tt ∅
                             scenario3_runs 11 "max" tt 0
  = Raise ZeroDivisionError.
Proof.
  apply (proj1 (extensive_check_window_beyond scenario3_check Db2Lin Lin2Db
                  scenario3_dpa tt ∅ scenario3_runs 11 "max" tt 0 ltac:(lia))).
  reflexivity.
Defined.

(** Scenario 3 under 'median'. *)
Lemma extensive_check_ranked_scenario3 :
  ∃ out mls outcomes,
    ExtensiveInterferenceCheck scenario3_check Db2Lin Lin2Db scenario3_dpa tt ∅
                               scenario3_runs 3 "median" tt 0 = OK out
    ∧ Z.of_nat (length mls) = 8
    ∧ spec_checks_on scenario3_check scenario3_dpa ∅ tt mls tt
      = (outcomes, st_rng (out_state out))
    ∧ out_num_success out = count_successes outcomes
    ∧ name (st_dpa (out_state out)) = "West14"%string.
Proof.
  destruct (extensive_check_ranked_returns scenario3_check Db2Lin Lin2Db scenario3_dpa
              tt ∅ scenario3_runs 3 "median" tt 0 scenario3_check_well_shaped)
    as (out & mls & outcomes & Hout & Hlen & _ & Hcalls & Hsucc & _ & _ & Hname & _);
    [by right; right; left|exact scenario3_valid_chan|lia|simpl; lia|].
  exists out, mls, outcomes. split; [exact Hout|]. split; [exact Hlen|].
  split; [exact Hcalls|]. split; [exact Hsucc|exact Hname].
Defined.

(** The re-test under [--ref_ml_num 3 --num_ml 10]: ten checks. *)
Lemma retest_example :
  ∃ out outcomes,
    ExtensiveInterferenceCheck scenario3_check Db2Lin Lin2Db scenario3_dpa tt ∅
      (DpaAnalyzeLogs_retest_runs example_options [ ({[1%nat; 2%nat]} : gset nat) ])
      1 "max" tt 0 = OK out
    ∧ out_num_check out = 10
    ∧ spec_checks_on scenario3_check scenario3_dpa ∅ tt
        (replicate 10 [ ({[1%nat; 2%nat]} : gset nat) ]) tt
      = (outcomes, st_rng (out_state out))
    ∧ out_num_success out = count_successes outcomes.
Proof.
  destruct (retest_checks_same_move_list scenario3_check Db2Lin Lin2Db example_options
              scenario3_dpa tt ∅ [ ({[1%nat; 2%nat]} : gset nat) ] tt 0
              scenario3_check_well_shaped)
    as (out & outcomes & Hout & Hnum & _ & Hcalls & _ & Hsucc & _); [simpl; lia|].
  exists out, outcomes. split; [exact Hout|]. split; [exact Hnum|].
  split; [exact Hcalls|exact Hsucc].
Defined.

(** [--ref_ml_num 3 --num_ml 10]: three reference runs, ten UUT runs. *)
Lemma DpaSimulate_runs_example :
  Z.of_nat (length (DpaSimulate_runs example_ComputeMoveLists example_ComputeMoveLists
                                     example_options 0%nat).1) = 3
  ∧ Z.of_nat (length (DpaSimulate_runs example_ComputeMoveLists example_ComputeMoveLists
                                       example_options 0%nat).2) = 10.
Proof.
  destruct (DpaSimulate_runs_kept example_ComputeMoveLists example_ComputeMoveLists
              example_options 0%nat)
    as (Href & Huut & _); [simpl; lia..|].
  split; [exact Href|exact Huut].
Defined.

Lemma example_check_well_shaped (dpa : Dpa nat unit) (kl : gset nat) (m ch : unit)
    (rng : nat) :
  Forall well_shaped (example_check dpa kl m ch rng).1.2.
Proof. by repeat constructor. Defined.

(** [--ref_ml_num 3 --num_ml 10 --do_extensive]: one check. *)
Lemma DpaSimulate_extensive_example :
  ∃ out,
    ExtensiveInterferenceCheck example_check Db2Lin Lin2Db scenario3_dpa 10%nat ∅
      (DpaSimulate_runs example_ComputeMoveLists example_ComputeMoveLists
                        example_options 0%nat).1
      3 "max" tt 0 = OK out
    ∧ out_num_check out = 1.
Proof.
  destruct (DpaSimulate_extensive_checks example_ComputeMoveLists
              example_ComputeMoveLists example_check Db2Lin Lin2Db
              example_options 0%nat 10%nat scenario3_dpa ∅ "max" tt 0
              example_check_well_shaped)
    as (out & Hout & Hnum & _);
    [by right; left|intros r; simpl; lia|simpl; lia|by vm_compute|].
  exists out. split; [exact Hout|exact Hnum].
Defined.

(** One file set on the example server, asked for and not. *)
Lemma setFileToServe_example :
  Database.translate_path
    (DatabaseServer.setFileToServe example_server "/fad" "fad.json")
    example_headers "/fad" = (OK "fad.json"%string, [])
  ∧ Database.translate_path
      (DatabaseServer.setFileToServe example_server "/fad" "fad.json")
      example_headers "/allsitedata" = (OK EmptyString, []).
Proof.
  split.
  - apply (setFileToServe_replaces_mappings example_server example_headers
             "/fad" "fad.json" "/fad" ∅). by right.
  - apply (setFileToServe_replaces_mappings example_server example_headers
             "/fad" "fad.json" "/allsitedata" ∅). by right.
Defined.

(** A new server that asks for authorization, and a request that carries
    it. *)
Lemma new_server_example :
  Database.translate_path (DatabaseServer.new_server true) example_headers
                          "/allsitedata" = (OK EmptyString, []).
Proof.
  apply (proj1 (new_server_serves_nothing true example_headers "/allsitedata")).
  by right.
Defined.


(** The DPA returned for [--dpa EAST1]: margin and geometry of the
    configuration. *)
Lemma find_dpa_complete_example :
  ∃ r d : ConfigDpa unit unit,
    FindOrBuildDpa example_BuildDpa example_CountInside example_CoastalZone
                   example_PortalZone example_DpaProtectionPoints example_py_float
                   example_dpas example_options [1%nat; 2%nat] = OK r
    ∧ cd_name r = cd_name d
    ∧ is_Some (cd_geometry r)
    ∧ cd_margin_db r
      = Some (default (MarginText "linear(1.5)") (cd_margin_db d)).
Proof.
  destruct (find_dpa_result_is_complete example_BuildDpa example_CountInside
              example_CoastalZone example_PortalZone example_DpaProtectionPoints
              example_py_float example_dpas example_options [1%nat; 2%nat]
              {| cd_name := "East1"; cd_margin_db := Some (MarginText "linear(2)");
                 cd_geometry := Some tt; cd_protected_points := tt |} eq_refl)
    as (d & _ & Hname & Hgeo & _ & Hmargin & _).
  eexists _, d. split; [reflexivity|]. split; [exact Hname|].
  split; [exact Hgeo|exact Hmargin].
Defined.

(** Without [--dpa]: no DPA at all, and one DPA without geometry. *)
Lemma find_dpa_failures_example :
  FindOrBuildDpa example_BuildDpa example_CountInside example_CoastalZone
                 example_PortalZone example_DpaProtectionPoints example_py_float
                 [] example_options_no_dpa [1%nat; 2%nat] = Raise ValueError
  ∧ FindOrBuildDpa example_BuildDpa example_CountInside example_CoastalZone
                   example_PortalZone example_DpaProtectionPoints example_py_float
                   [example_dpa_no_geometry] example_options_no_dpa [1%nat; 2%nat]
    = Raise UnboundLocalError.
Proof.
  destruct (find_dpa_without_option_failures example_BuildDpa example_CountInside
              example_CoastalZone example_PortalZone example_DpaProtectionPoints
              example_py_float example_options_no_dpa [1%nat; 2%nat] eq_refl)
    as [Hnone Hone].
  split; [exact Hnone|]. by apply Hone.
Defined.

(** Without [--dpa], two DPAs: the one with most grants nearby. *)
Lemma find_dpa_most_grants_example :
  ∃ (i : nat) d n,
    example_dpas !! i = Some d
    ∧ first_max_at [6; 5] i n
    ∧ FindOrBuildDpa example_BuildDpa example_CountInside example_CoastalZone
                     example_PortalZone example_DpaProtectionPoints example_py_float
                     example_dpas example_options_no_dpa [1%nat; 2%nat]
      = complete_dpa example_CoastalZone example_PortalZone
                     example_DpaProtectionPoints example_py_float
                     example_options_no_dpa d None.
Proof.
  apply (find_dpa_most_grants_nearby example_BuildDpa example_CountInside
           example_CoastalZone example_PortalZone example_DpaProtectionPoints
           example_py_float example_dpas example_options_no_dpa [1%nat; 2%nat]
           [6; 5]); [done|simpl; lia|by repeat constructor].
Defined.

(** Scenario 2: the percentages of one sample. *)
Lemma scatter_percentages_scenario2 :
  ∃ rep,
    ScatterAnalyze Db2Lin Lin2Db [(-100)%R] [2%R] (-96)%R = OK (Some rep)
    ∧ length (pct_below rep) = 5%nat
    ∧ Forall (λ p, (0 <= p <= 100)%R) (pct_below rep).
Proof.
  destruct (scatter_percentages Db2Lin Lin2Db [(-100)%R] [2%R] (-96)%R)
    as (rep & Hrep & Hlen & Hall & _); [done|done|].
  exists rep. split; [exact Hrep|]. split; [exact Hlen|exact Hall].
Defined.
